(** * Cross-sectional time series assembly

    A shallow embedding of [data_creator] from
    [trend_following_portfolios/cross_sectional_time_series.py], together with
    the part of the pyarrow table interface it calls (column lookup, cast,
    comparison kernels, filter, select, rename, join, sort). *)

From Stdlib Require Import ZArith List String Bool Lia Permutation Sorted.
Import ListNotations.

Local Open Scope string_scope.
Local Open Scope Z_scope.

(** ** Exceptions

    Python raises; the embedding returns either a value or the exception. *)

Inductive exn : Type :=
| KeyError (field : string)
| IndexError
| ValueError
| ArrowInvalid
| ArrowNotImplementedError.

Inductive Exc (A : Type) : Type :=
| Return (a : A)
| Raise (e : exn).

Arguments Return {A} a.
Arguments Raise {A} e.

Definition bind {A B : Type} (m : Exc A) (k : A -> Exc B) : Exc B :=
  match m with
  | Return a => k a
  | Raise e => Raise e
  end.

Notation "x <- m ;; k" := (bind m (fun x => k))
  (at level 61, m at next level, right associativity).

Fixpoint mapM {A B : Type} (f : A -> Exc B) (l : list A) : Exc (list B) :=
  match l with
  | [] => Return []
  | x :: xs => y <- f x ;; ys <- mapM f xs ;; Return (y :: ys)
  end.

Fixpoint foldM {A B : Type} (f : A -> B -> Exc A) (l : list B) (a : A) : Exc A :=
  match l with
  | [] => Return a
  | x :: xs => a' <- f a x ;; foldM f xs a'
  end.

(** ** Python dictionaries

    A [dict] keeps its keys in insertion order; assigning to a key that is
    already present replaces the value and leaves the key where it was. *)

Definition dict (A : Type) : Type := list (string * A).

Fixpoint dict_set {A : Type} (k : string) (v : A) (d : dict A) : dict A :=
  match d with
  | [] => [(k, v)]
  | (k', v') :: rest =>
      if String.eqb k' k then (k, v) :: rest else (k', v') :: dict_set k v rest
  end.

Fixpoint dict_get {A : Type} (k : string) (d : dict A) : option A :=
  match d with
  | [] => None
  | (k', v) :: rest => if String.eqb k' k then Some v else dict_get k rest
  end.

Definition keys {A : Type} (d : dict A) : list string := map fst d.

(** The distinct names of a sequence, each at its first occurrence. *)
Fixpoint first_occurrences (seen l : list string) : list string :=
  match l with
  | [] => []
  | x :: xs =>
      if existsb (String.eqb x) seen then first_occurrences seen xs
      else x :: first_occurrences (x :: seen) xs
  end.

Definition distinct_names (l : list string) : list string :=
  first_occurrences [] l.

(** ** Generic list helpers *)

Fixpoint replace_nth {A : Type} (i : nat) (x : A) (l : list A) : list A :=
  match l, i with
  | [], _ => []
  | _ :: ys, O => x :: ys
  | y :: ys, S j => y :: replace_nth j x ys
  end.

Fixpoint remove_nth {A : Type} (i : nat) (l : list A) : list A :=
  match l, i with
  | [], _ => []
  | _ :: ys, O => ys
  | y :: ys, S j => y :: remove_nth j ys
  end.

(** ** The pyarrow interface used by the program *)

Module pyarrow.

Definition ms_per_day : Z := 86400000.

(** [Schema.get_all_field_indices]: every position holding the name. *)
Fixpoint get_all_field_indices (i : nat) (name : string) (names : list string)
  : list nat :=
  match names with
  | [] => []
  | n :: ns =>
      if String.eqb n name then i :: get_all_field_indices (S i) name ns
      else get_all_field_indices (S i) name ns
  end.

(** Name lookup of [Table.column] and [Table.select]: [KeyError] unless the
    name occurs exactly once. *)
Definition field_index (names : list string) (name : string) : Exc nat :=
  match get_all_field_indices 0 name names with
  | [i] => Return i
  | _ => Raise (KeyError name)
  end.

(** Field reference lookup of the join and sort kernels: [ArrowInvalid] when
    there is no match or more than one. *)
Definition find_one (names : list string) (name : string) : Exc nat :=
  match get_all_field_indices 0 name names with
  | [i] => Return i
  | _ => Raise ArrowInvalid
  end.

(** Join kinds of [Table.join]; the program relies on the default. *)
Inductive JoinType : Type := LeftOuter | FullOuter.

Definition default_join_type : JoinType := LeftOuter.

(** Keys of the sort and join kernels: a timestamp or null. *)
Definition key_eqb (a b : option Z) : bool :=
  match a, b with
  | Some x, Some y => Z.eqb x y
  | _, _ => false
  end.

(** Ascending order with nulls placed at the end. *)
Definition key_leb (a b : option Z) : bool :=
  match a, b with
  | Some x, Some y => Z.leb x y
  | _, None => true
  | None, Some _ => false
  end.

Section Tables.

(** [V] is the type of the feature values, which the program only moves
    around; [to_timestamp] is the cast kernel from that type to
    [timestamp("ms")], [None] where the cast raises. *)
Context {V : Type}.
Variable to_timestamp : V -> option Z.

Inductive Scalar : Type :=
| Null
| Date32 (days : Z)
| Timestamp (ms : Z)
| Val (v : V).

(** A table: its schema and its rows. *)
Record Table : Type := mkTable {
  column_names : list string;
  rows : list (list Scalar)
}.

Definition len (t : Table) : nat := List.length (rows t).

Definition cell (i : nat) (row : list Scalar) : Scalar := nth i row Null.

(** [table[name]] *)
Definition column (t : Table) (name : string) : Exc (list Scalar) :=
  i <- field_index (column_names t) name ;;
  Return (map (cell i) (rows t)).

(** [pyarrow.scalar(d)] for a [datetime.date], counted in days. *)
Definition scalar (d : Z) : Scalar := Date32 d.

Definition cast_scalar (s : Scalar) : Exc Scalar :=
  match s with
  | Null => Return Null
  | Date32 d => Return (Timestamp (d * ms_per_day))
  | Timestamp t => Return (Timestamp t)
  | Val v =>
      match to_timestamp v with
      | Some t => Return (Timestamp t)
      | None => Raise ArrowInvalid
      end
  end.

(** [pyarrow.compute.cast(col, pyarrow.timestamp("ms"))] *)
Definition cast (col : list Scalar) : Exc (list Scalar) :=
  mapM cast_scalar col.

(** [Table.set_column(i, name, col)] *)
Definition set_column (t : Table) (i : nat) (name : string)
  (col : list Scalar) : Exc Table :=
  if negb (Nat.ltb i (List.length (column_names t))) then Raise IndexError
  else if negb (Nat.eqb (List.length col) (len t)) then Raise ArrowInvalid
  else Return (mkTable (replace_nth i name (column_names t))
                 (map (fun rc => replace_nth i (snd rc) (fst rc))
                    (combine (rows t) col))).

(** Comparison kernels: a date is brought to the timestamp unit first, and a
    null operand gives a null. *)
Definition compare (op : Z -> Z -> bool) (x y : Scalar) : Exc (option bool) :=
  match x, y with
  | Null, _ => Return None
  | _, Null => Return None
  | Timestamp a, Timestamp b => Return (Some (op a b))
  | Timestamp a, Date32 b => Return (Some (op a (b * ms_per_day)))
  | Date32 a, Timestamp b => Return (Some (op (a * ms_per_day) b))
  | Date32 a, Date32 b => Return (Some (op a b))
  | _, _ => Raise ArrowNotImplementedError
  end.

Definition greater_equal (col : list Scalar) (s : Scalar)
  : Exc (list (option bool)) :=
  mapM (fun x => compare Z.geb x s) col.

Definition less_equal (col : list Scalar) (s : Scalar)
  : Exc (list (option bool)) :=
  mapM (fun x => compare Z.leb x s) col.

(** [pyarrow.compute.and_]: null when either side is null. *)
Definition and_ (a b : list (option bool)) : list (option bool) :=
  map (fun xy =>
         match fst xy, snd xy with
         | Some p, Some q => Some (p && q)
         | _, _ => None
         end) (combine a b).

Definition selected (m : option bool) : bool :=
  match m with
  | Some true => true
  | _ => false
  end.

(** [Table.filter(mask)]: rows whose mask is false or null are dropped. *)
Definition filter (t : Table) (mask : list (option bool)) : Table :=
  mkTable (column_names t)
    (map fst (List.filter (fun rm => selected (snd rm)) (combine (rows t) mask))).

(** [Table.select(names)] *)
Definition select (t : Table) (names : list string) : Exc Table :=
  idxs <- mapM (field_index (column_names t)) names ;;
  Return (mkTable names (map (fun r => map (fun i => cell i r) idxs) (rows t))).

(** [Table.rename_columns(names)] *)
Definition rename_columns (t : Table) (names : list string) : Exc Table :=
  if Nat.eqb (List.length names) (List.length (column_names t))
  then Return (mkTable names (rows t))
  else Raise ValueError.

(** [Table.combine_chunks()] changes the memory layout only. *)
Definition combine_chunks (t : Table) : Table := t.

(** The program joins and sorts on the date column after its cast, so the
    two kernels are embedded for timestamp keys; a key of another type is
    reported as not implemented. *)
Definition key_of (s : Scalar) : Exc (option Z) :=
  match s with
  | Null => Return None
  | Timestamp t => Return (Some t)
  | _ => Raise ArrowNotImplementedError
  end.

(** Rows paired with their key. *)
Definition keyed (i : nat) (rs : list (list Scalar))
  : Exc (list (option Z * list Scalar)) :=
  mapM (fun r => k <- key_of (cell i r) ;; Return (k, r)) rs.

Definition matches (k : option Z) (rs : list (option Z * list Scalar))
  : list (option Z * list Scalar) :=
  List.filter (fun kr => key_eqb k (fst kr)) rs.

(** Output names of the right side: a name also present on the left takes
    the right suffix (the left suffix is empty). *)
Definition suffixed (left_names : list string) (right_suffix : string)
  (n : string) : string :=
  if existsb (String.eqb n) left_names then n ++ right_suffix else n.

(** [left.join(right, keys=key, right_suffix=..., join_type=...)] with
    coalesced keys: the left columns, then the right columns without the
    key.  A left row is paired with every right row of the same key, or
    padded with nulls when there is none; a null key matches nothing.  The
    full outer join adds the right rows that no left row matched.  Rows are
    listed in the order of the left table (pyarrow leaves the order open;
    the program sorts the result). *)
Definition join (left right : Table) (key : string) (right_suffix : string)
  (join_type : JoinType) : Exc Table :=
  kl <- find_one (column_names left) key ;;
  kr <- find_one (column_names right) key ;;
  ls <- keyed kl (rows left) ;;
  rs <- keyed kr (rows right) ;;
  let right_names := remove_nth kr (column_names right) in
  let names :=
    (column_names left ++
       map (suffixed (column_names left) right_suffix) right_names)%list in
  let left_rows :=
    flat_map (fun kl_row =>
                match matches (fst kl_row) rs with
                | [] => [(snd kl_row ++ repeat Null (List.length right_names))%list]
                | ms => map (fun kr_row =>
                               (snd kl_row ++ remove_nth kr (snd kr_row))%list) ms
                end) ls in
  match join_type with
  | LeftOuter => Return (mkTable names left_rows)
  | FullOuter =>
      let unmatched :=
        List.filter (fun kr_row =>
                       negb (existsb (fun kl_row =>
                                        key_eqb (fst kl_row) (fst kr_row)) ls))
          rs in
      let right_rows :=
        map (fun kr_row =>
               (replace_nth kl (cell kr (snd kr_row))
                  (repeat Null (List.length (column_names left)))
                  ++ remove_nth kr (snd kr_row))%list) unmatched in
      Return (mkTable names (left_rows ++ right_rows)%list)
  end.

(** Stable insertion sort on the key, as [sort_indices] is stable. *)
Fixpoint insert_row (x : option Z * list Scalar)
  (l : list (option Z * list Scalar)) : list (option Z * list Scalar) :=
  match l with
  | [] => [x]
  | y :: ys =>
      if key_leb (fst x) (fst y) then x :: y :: ys else y :: insert_row x ys
  end.

Fixpoint sort_rows (l : list (option Z * list Scalar))
  : list (option Z * list Scalar) :=
  match l with
  | [] => []
  | x :: xs => insert_row x (sort_rows xs)
  end.

(** [Table.sort_by([(key, "ascending")])] *)
Definition sort_by (t : Table) (key : string) : Exc Table :=
  i <- find_one (column_names t) key ;;
  ks <- keyed i (rows t) ;;
  Return (mkTable (column_names t) (map snd (sort_rows ks))).

End Tables.

Arguments Scalar V : clear implicits.
Arguments Table V : clear implicits.

End pyarrow.

Import pyarrow.

(** ** The program: [cross_sectional_time_series.data_creator] *)

Section DataCreator.

Context {V : Type}.
Variable to_timestamp : V -> option Z.

(** The arguments of one call; dates are [datetime.date] values counted in
    days since the epoch. *)
Variables start_date end_date : Z.
Variable column_date_tag : string.

(** Lines 44-55: the date column is cast to millisecond timestamps, put back
    at position 0 under the date tag, and the rows inside
    [start_date, end_date] are kept. *)
Definition normalized_table (time_series_table : Table V) : Exc (Table V) :=
  dates <- column time_series_table column_date_tag ;;
  timestamps <- cast to_timestamp dates ;;
  set_column time_series_table 0 column_date_tag timestamps.

Definition range_mask (table : Table V) : Exc (list (option bool)) :=
  lower <- column table column_date_tag ;;
  ge <- greater_equal lower (scalar start_date) ;;
  upper <- column table column_date_tag ;;
  le <- less_equal upper (scalar end_date) ;;
  Return (and_ ge le).

Definition filtered_table (time_series_table : Table V) : Exc (Table V) :=
  table <- normalized_table time_series_table ;;
  mask <- range_mask table ;;
  Return (filter table mask).

(** Lines 58-59: the date and the feature are selected and the feature
    column takes the ticker's name. *)
Definition ticker_data (feature ticker : string) (time_series_table : Table V)
  : Exc (Table V) :=
  filtered <- filtered_table time_series_table ;;
  data <- select filtered [column_date_tag; feature] ;;
  rename_columns data [column_date_tag; ticker].

(** Lines 62-78: the first table starts the result; afterwards the table
    with more rows is the left side of the join.  No [join_type] is passed,
    so the join is pyarrow's default. *)
Definition accumulate (result : option (Table V)) (data : Table V)
  : Exc (Table V) :=
  match result with
  | None => Return (combine_chunks data)
  | Some result =>
      if Nat.ltb (len data) (len result)
      then join result data column_date_tag "_r" default_join_type
      else join data result column_date_tag "_r" default_join_type
  end.

(** Lines 41-79: the body of the loop over the tickers. *)
Definition ticker_step (feature : string) (result : option (Table V))
  (item : string * Table V) : Exc (option (Table V)) :=
  data <- ticker_data feature (fst item) (snd item) ;;
  result <- accumulate result data ;;
  result <- sort_by result column_date_tag ;;
  Return (Some result).

(** Lines 40-79: one feature; [None] is Python's [None]. *)
Definition feature_table (time_series_data_dictionary : dict (Table V))
  (feature : string) : Exc (option (Table V)) :=
  foldM (ticker_step feature) time_series_data_dictionary None.

(** Lines 39-82: the loop over the features, storing each result. *)
Fixpoint feature_loop (time_series_data_dictionary : dict (Table V))
  (features : list string) (features_dict : dict (option (Table V)))
  : Exc (dict (option (Table V))) :=
  match features with
  | [] => Return features_dict
  | feature :: rest =>
      result <- feature_table time_series_data_dictionary feature ;;
      feature_loop time_series_data_dictionary rest
        (dict_set feature result features_dict)
  end.

Definition data_creator (time_series_data_dictionary : dict (Table V))
  (weighted_scoring_features_tuple : list string)
  : Exc (dict (option (Table V))) :=
  feature_loop time_series_data_dictionary weighted_scoring_features_tuple [].

End DataCreator.

(** ** Concrete inputs *)

Module Scenario.

(** Days since 1970-01-01. *)
Definition d2020_01_01 : Z := 18262.
Definition d2020_01_02 : Z := 18263.
Definition d2020_01_03 : Z := 18264.
Definition d2020_01_06 : Z := 18267.
Definition d2020_01_10 : Z := 18271.

(** The scenarios hold dates as [Date32]; no feature value is ever cast. *)
Definition uncastable (_ : Z) : option Z := None.

Definition price_table (obs : list (Z * Z)) : Table Z :=
  mkTable ["m_date"; "price"]
    (map (fun dv => [Date32 (fst dv); Val (snd dv)]) obs).

Definition AAA : Table Z := price_table [(d2020_01_02, 10); (d2020_01_03, 11)].
Definition BBB : Table Z := price_table [(d2020_01_03, 20); (d2020_01_06, 21)].
Definition CCC : Table Z :=
  price_table [(d2020_01_02, 30); (d2020_01_03, 31); (d2020_01_06, 32)].
Definition DUP : Table Z := price_table [(d2020_01_02, 10); (d2020_01_02, 12)].

(** Tables around the two bounds of the range: calendar dates on the day
    before the start, on the start, on the end and on the day after the end,
    with one undated row; and timestamps at the midnight that opens the end
    date, one millisecond later and one millisecond before the start. *)
Definition d2019_12_31 : Z := 18261.
Definition d2020_01_11 : Z := 18272.

Definition EDGES : Table Z :=
  mkTable ["m_date"; "price"]
    [[Date32 d2019_12_31; Val 1]; [Date32 d2020_01_01; Val 2]; [Null; Val 3];
     [Date32 d2020_01_10; Val 4]; [Date32 d2020_01_11; Val 5]].

Definition INTRADAY : Table Z :=
  mkTable ["m_date"; "price"]
    [[Timestamp (d2020_01_10 * ms_per_day); Val 6];
     [Timestamp (d2020_01_10 * ms_per_day + 1); Val 7];
     [Timestamp (d2020_01_01 * ms_per_day - 1); Val 8]].

Definition filter_in_range (t : Table Z) : Exc (Table Z) :=
  filtered_table uncastable d2020_01_01 d2020_01_10 "m_date" t.

(** The rows of [EDGES] expected after the filter. *)
Definition EDGES_kept : Table Z :=
  mkTable ["m_date"; "price"]
    [[Timestamp (d2020_01_01 * ms_per_day); Val 2];
     [Timestamp (d2020_01_10 * ms_per_day); Val 4]].

Definition run (d : dict (Table Z)) (features : list string)
  : Exc (dict (option (Table Z))) :=
  data_creator uncastable d2020_01_01 d2020_01_10 "m_date" d features.

Definition ts (d : Z) : Scalar Z := Timestamp (d * ms_per_day).

(** The input mappings of the scenarios, in insertion order. *)
Definition two_tickers : dict (Table Z) := [("AAA", AAA); ("BBB", BBB)].
Definition two_tickers_swapped : dict (Table Z) := [("BBB", BBB); ("AAA", AAA)].
Definition three_tickers : dict (Table Z) :=
  [("AAA", AAA); ("BBB", BBB); ("CCC", CCC)].
Definition one_ticker : dict (Table Z) := [("AAA", AAA)].
Definition duplicated : dict (Table Z) := [("DUP", DUP)].

Definition projected (ticker : string) (t : Table Z) : Exc (Table Z) :=
  ticker_data uncastable d2020_01_01 d2020_01_10 "m_date" "price" ticker t.

Definition assemble (d : dict (Table Z)) (feature : string)
  : Exc (option (Table Z)) :=
  feature_table uncastable d2020_01_01 d2020_01_10 "m_date" d feature.

End Scenario.

(** ** Reading the program's results *)

Section Readings.

Context {V : Type}.
Variables start_date end_date : Z.

(** The closed range of the specification, on normalized dates. *)
Definition in_range (s : Scalar V) : bool :=
  match s with
  | Timestamp t =>
      Z.leb (start_date * ms_per_day) t && Z.leb t (end_date * ms_per_day)
  | _ => false
  end.

End Readings.

(** ** The range rule in the specification's words

    A row is kept exactly when its date, brought to the canonical
    representation, lies between [start_date] and [end_date], both bounds
    included.  The canonical representation is the number of milliseconds
    since the epoch; a calendar date stands for its midnight, and so do the
    two bounds.  These definitions follow that sentence, not the code; they
    are compared with [filtered_table] in the properties. *)

Section RangeRule.

Context {V : Type}.
Variable to_timestamp : V -> option Z.
Variables start_date end_date : Z.

Definition canonical_date (s : Scalar V) : option Z :=
  match s with
  | Null => None
  | Date32 days => Some (days * ms_per_day)
  | Timestamp t => Some t
  | Val v => to_timestamp v
  end.

Definition kept_by_rule (raw : list (Scalar V)) : bool :=
  match canonical_date (cell 0 raw) with
  | Some t =>
      Z.leb (start_date * ms_per_day) t && Z.leb t (end_date * ms_per_day)
  | None => false
  end.

Definition canonical_row (raw : list (Scalar V)) : list (Scalar V) :=
  match canonical_date (cell 0 raw) with
  | Some t => replace_nth 0 (Timestamp t) raw
  | None => raw
  end.

Definition rows_by_rule (raws : list (list (Scalar V)))
  : list (list (Scalar V)) :=
  map canonical_row (List.filter kept_by_rule raws).

End RangeRule.

(** ** Tables keyed by a timestamp

    Every table that [data_creator] joins or sorts holds the date tag in
    column 0 with a timestamp in each row.  On such tables the join and the
    sort act on pairs of a key and the remaining cells. *)

Section Keyed.

Context {V : Type}.

Definition row_of (kc : Z * list (Scalar V)) : list (Scalar V) :=
  Timestamp (fst kc) :: snd kc.

Definition keyed_table (tag : string) (cols : list string)
  (krows : list (Z * list (Scalar V))) : Table V :=
  mkTable (tag :: cols) (map row_of krows).

Definition with_key (kc : Z * list (Scalar V))
  : option Z * list (Scalar V) :=
  (Some (fst kc), row_of kc).

Fixpoint kinsert (x : Z * list (Scalar V)) (l : list (Z * list (Scalar V)))
  : list (Z * list (Scalar V)) :=
  match l with
  | [] => [x]
  | y :: ys => if Z.leb (fst x) (fst y) then x :: y :: ys else y :: kinsert x ys
  end.

Fixpoint ksort (l : list (Z * list (Scalar V))) : list (Z * list (Scalar V)) :=
  match l with
  | [] => []
  | x :: xs => kinsert x (ksort xs)
  end.

Definition kmatches (k : Z) (R : list (Z * list (Scalar V)))
  : list (Z * list (Scalar V)) :=
  List.filter (fun r => Z.eqb k (fst r)) R.

(** The default (left outer) join on keyed rows; [n] is the number of value
    columns on the right. *)
Definition kjoin (n : nat) (L R : list (Z * list (Scalar V)))
  : list (Z * list (Scalar V)) :=
  flat_map (fun l =>
              match kmatches (fst l) R with
              | [] => [(fst l, (snd l ++ repeat Null n)%list)]
              | ms => map (fun r => (fst l, (snd l ++ snd r)%list)) ms
              end) L.

(** One pass of the ticker loop on keyed rows: the value columns and the
    rows after the join and the sort. *)
Definition kstep (tag : string)
  (st : option (list string * list (Z * list (Scalar V))))
  (ticker : string) (kdata : list (Z * list (Scalar V)))
  : list string * list (Z * list (Scalar V)) :=
  match st with
  | None => ([ticker], ksort kdata)
  | Some (cols, krows) =>
      if Nat.ltb (List.length kdata) (List.length krows)
      then ((cols ++ map (suffixed (tag :: cols) "_r") [ticker])%list,
            ksort (kjoin 1 krows kdata))
      else ((ticker :: map (suffixed [tag; ticker] "_r") cols)%list,
            ksort (kjoin (List.length cols) kdata krows))
  end.

Definition table_of_state (tag : string)
  (st : option (list string * list (Z * list (Scalar V))))
  : option (Table V) :=
  match st with
  | None => None
  | Some (cols, krows) => Some (keyed_table tag cols krows)
  end.

Definition timestamp_of (s : Scalar V) : Z :=
  match s with
  | Timestamp t => t
  | _ => 0
  end.

(** A row of a ticker's projected table: one value, dated inside the
    range. *)
Definition observation (start_date end_date : Z) (kc : Z * list (Scalar V))
  : Prop :=
  (exists c, snd kc = [c]) /\
  start_date * ms_per_day <= fst kc <= end_date * ms_per_day.

(** The date tag names no value column. *)
Definition well_keyed (tag : string)
  (st : option (list string * list (Z * list (Scalar V)))) : Prop :=
  match st with
  | None => True
  | Some (cols, _) => ~ In tag cols
  end.

(** Properties of the keyed accumulator that the ticker loop keeps. *)
Definition sorted_state
  (st : option (list string * list (Z * list (Scalar V)))) : Prop :=
  match st with
  | None => True
  | Some (_, krows) => StronglySorted Z.le (map fst krows)
  end.

Definition distinct_state
  (st : option (list string * list (Z * list (Scalar V)))) : Prop :=
  match st with
  | None => True
  | Some (_, krows) => NoDup (map fst krows)
  end.

Definition columns_state (tickers : list string)
  (st : option (list string * list (Z * list (Scalar V)))) : Prop :=
  match st with
  | None => tickers = []
  | Some (cols, krows) =>
      Permutation cols tickers /\
      Forall (fun kc => List.length (snd kc) = List.length cols) krows
  end.

(** Every date of the accumulator satisfies [source]. *)
Definition keys_from (source : Z -> Prop)
  (st : option (list string * list (Z * list (Scalar V)))) : Prop :=
  match st with
  | None => True
  | Some (_, krows) => Forall (fun kc => source (fst kc)) krows
  end.

(** Every cell is null or is the value [source] gives for its ticker and
    date. *)
Definition cells_from (source : string -> Z -> Scalar V -> Prop)
  (st : option (list string * list (Z * list (Scalar V)))) : Prop :=
  match st with
  | None => True
  | Some (cols, krows) =>
      Forall (fun kc =>
                forall t c, In (t, c) (combine cols (snd kc)) ->
                            c = Null \/ source t (fst kc) c) krows
  end.

End Keyed.

(** ** Observations of a ticker *)

Section Observations.

Context {V : Type}.
Variable to_timestamp : V -> option Z.
Variables start_date end_date : Z.
Variable column_date_tag : string.

(** The ticker's projected (filtered) table has a row dated [k] whose value
    is [c]. *)
Definition observed (d : dict (Table V)) (feature ticker : string) (k : Z)
  (c : Scalar V) : Prop :=
  exists tst data,
    In (ticker, tst) d /\
    ticker_data to_timestamp start_date end_date column_date_tag
      feature ticker tst = Return data /\
    In [Timestamp k; c] (rows data).

End Observations.

(** ** The entry script: the rebalancing signal

    Lines 128-139 of [__main__.py]: the signal column, its missing values
    replaced by 0, is scanned once; [count] is the length of the current run
    of values above the threshold, and row [i] is flagged when the run has
    reached the window and [i] is not the last row.  The values are only
    compared with the threshold, so their type [A], the replacement [zero]
    and Python's [>] are left open; the script runs with [window_days]. *)

Module Rebalancing.

Definition window_days : nat := 5.

Section Signal.

Context {A : Type}.
Variable zero : A.
Variable gt : A -> A -> bool.

(** [df[signal_column_name].fillna(0).values] *)
Definition fillna (column : list (option A)) : list A :=
  map (fun x => match x with Some v => v | None => zero end) column.

(** The body of the loop, for index [i]. *)
Definition signal_pass (window : nat) (threshold : A) (signal_values : list A)
  (state : nat * list Z) (i : nat) : nat * list Z :=
  let count :=
    if gt (nth i signal_values zero) threshold then S (fst state) else O in
  let rebalance_signal :=
    if Nat.leb window count && Nat.ltb (i + 1) (List.length signal_values)
    then replace_nth i 1 (snd state)
    else snd state in
  (count, rebalance_signal).

Definition rebalance_signal (window : nat) (threshold : A)
  (signal_values : list A) : list Z :=
  snd (fold_left (signal_pass window threshold signal_values)
         (seq 0 (List.length signal_values))
         (O, repeat 0 (List.length signal_values))).

End Signal.

(** The length of the run of rows satisfying [above] that ends just before
    row [k]. *)
Fixpoint streak (above : nat -> bool) (k : nat) : nat :=
  match k with
  | O => O
  | S k' => if above k' then S (streak above k') else O
  end.

End Rebalancing.

(** ** The entry script: the portfolio weights

    Lines 156-200 of [__main__.py].  The three tables are the ones the
    script has read back from its files.  Cells reach Python through
    [as_py()]; what Python does with those values is left open: [py_eqb] is
    their [==] (used by the set and the dictionaries keyed by dates),
    [is_one] is [== 1], and [signal_leb] is the order [sorted] compares the
    values of a signal column with. *)

Module Portfolio.

Definition n_top_stocks : nat := 5.

(** A weight is [1.0 / n] or the integer [0]. *)
Inductive Weight : Type :=
| share (n : nat)
| nothing.

Section Weights.

Context {V : Type}.
Variable py_eqb : Scalar V -> Scalar V -> bool.
Variable is_one : Scalar V -> bool.
Variable signal_leb : Scalar V -> Scalar V -> bool.
Variable column_date_tag : string.

(** Sets and dictionaries keyed by dates. *)
Definition py_in (x : Scalar V) (s : list (Scalar V)) : bool :=
  existsb (fun y => py_eqb y x) s.

Definition py_add (x : Scalar V) (s : list (Scalar V)) : list (Scalar V) :=
  if py_in x s then s else (s ++ [x])%list.

Fixpoint py_set {B : Type} (k : Scalar V) (v : B) (d : list (Scalar V * B))
  : list (Scalar V * B) :=
  match d with
  | [] => [(k, v)]
  | (k', v') :: rest =>
      if py_eqb k' k then (k', v) :: rest else (k', v') :: py_set k v rest
  end.

Fixpoint py_get {B : Type} (k : Scalar V) (d : list (Scalar V * B))
  : option B :=
  match d with
  | [] => None
  | (k', v) :: rest => if py_eqb k' k then Some v else py_get k rest
  end.

(** The keys of a dictionary after [py_set], from the keys before. *)
Definition key_set (k : Scalar V) (ks : list (Scalar V)) : list (Scalar V) :=
  if existsb (fun k' => py_eqb k' k) ks then ks else (ks ++ [k])%list.

(** A set of stock names. *)
Definition has_stock (stock : string) (s : list string) : bool :=
  existsb (String.eqb stock) s.

Definition add_stock (stock : string) (s : list string) : list string :=
  if has_stock stock s then s else (s ++ [stock])%list.

(** [col[i]] *)
Definition getitem (col : list (Scalar V)) (i : nat) : Exc (Scalar V) :=
  match nth_error col i with
  | Some s => Return s
  | None => Raise IndexError
  end.

(** [table.column(name)[i].as_py()] *)
Definition value_at (t : Table V) (name : string) (i : nat) : Exc (Scalar V) :=
  col <- column t name ;; getitem col i.

(** Line 158 *)
Definition stock_columns (strategy_signals : Table V) : list string :=
  List.filter (fun col => negb (String.eqb col column_date_tag))
    (column_names strategy_signals).

(** Lines 161-165: the dates whose signal is 1. *)
Definition rebalancing_dates_filtered (rebalancing_dates : Table V)
  : Exc (list (Scalar V)) :=
  foldM (fun dates i =>
           flag <- value_at rebalancing_dates "rebalancing_signal" i ;;
           if is_one flag
           then date <- value_at rebalancing_dates column_date_tag i ;;
                Return (py_add date dates)
           else Return dates)
    (seq 0 (len rebalancing_dates)) [].

(** Lines 171-173: the stocks flagged 1 in one row. *)
Definition eligible_stocks (investable_universe : Table V)
  (stocks : list string) (row_index : nat) : Exc (list string) :=
  foldM (fun eligible stock =>
           flag <- value_at investable_universe stock row_index ;;
           Return (if is_one flag then add_stock stock eligible else eligible))
    stocks [].

(** Lines 168-174 *)
Definition investable_stocks_by_date (investable_universe : Table V)
  (stocks : list string) : Exc (list (Scalar V * list string)) :=
  foldM (fun by_date row_index =>
           date <- value_at investable_universe column_date_tag row_index ;;
           eligible <- eligible_stocks investable_universe stocks row_index ;;
           Return (py_set date eligible by_date))
    (seq 0 (len investable_universe)) [].

(** Lines 187-192: the non-null signals of the eligible stocks. *)
Definition stock_signals (strategy_signals : Table V) (stocks : list string)
  (eligible : list string) (row_index : nat) : Exc (dict (Scalar V)) :=
  foldM (fun signals stock =>
           if has_stock stock eligible
           then signal_value <- value_at strategy_signals stock row_index ;;
                match signal_value with
                | Null => Return signals
                | _ => Return (dict_set stock signal_value signals)
                end
           else Return signals)
    stocks [].

(** Line 195: [sorted(..., key=lambda x: x[1], reverse=True)], a stable sort
    by descending signal. *)
Fixpoint insert_desc (x : string * Scalar V) (l : list (string * Scalar V))
  : list (string * Scalar V) :=
  match l with
  | [] => [x]
  | y :: ys =>
      if signal_leb (snd y) (snd x) then x :: y :: ys
      else y :: insert_desc x ys
  end.

Fixpoint sorted_signals (items : list (string * Scalar V))
  : list (string * Scalar V) :=
  match items with
  | [] => []
  | x :: xs => insert_desc x (sorted_signals xs)
  end.

(** Lines 196-197 *)
Definition top_n_stocks (items : list (string * Scalar V))
  : list (string * Scalar V) :=
  firstn n_top_stocks (sorted_signals items).

Definition weight (top : list (string * Scalar V)) : Weight :=
  match top with
  | [] => nothing
  | _ :: _ => share n_top_stocks
  end.

(** Lines 199-200: every stock gets an entry at the date of the next row. *)
Definition assign_weights (date_column : list (Scalar V))
  (stocks : list string) (top : list (string * Scalar V)) (row_index : nat)
  (stock_weights : dict (list (Scalar V * Weight)))
  : Exc (dict (list (Scalar V * Weight))) :=
  foldM (fun weights stock =>
           let value :=
             if has_stock stock (map fst top) then weight top else nothing in
           match dict_get stock weights with
           | None => Raise (KeyError stock)
           | Some by_date =>
               next_date <- getitem date_column (row_index + 1) ;;
               Return (dict_set stock (py_set next_date value by_date) weights)
           end)
    stocks stock_weights.

(** Lines 179-200: the body of the loop over the rows. *)
Definition weights_pass (strategy_signals : Table V)
  (date_column : list (Scalar V)) (stocks : list string)
  (rebalancing : list (Scalar V)) (investable : list (Scalar V * list string))
  (stock_weights : dict (list (Scalar V * Weight))) (row_index : nat)
  : Exc (dict (list (Scalar V * Weight))) :=
  current_date <- getitem date_column row_index ;;
  if negb (py_in current_date rebalancing) then Return stock_weights
  else
    match py_get current_date investable with
    | None => Return stock_weights
    | Some [] => Return stock_weights
    | Some eligible =>
        signals <- stock_signals strategy_signals stocks eligible row_index ;;
        assign_weights date_column stocks (top_n_stocks signals) row_index
          stock_weights
    end.

(** Line 177 *)
Definition initial_weights (stocks : list string)
  : dict (list (Scalar V * Weight)) :=
  fold_left (fun weights stock => dict_set stock [] weights) stocks [].

(** Lines 157-200 *)
Definition portfolio_weights
  (investable_universe rebalancing_dates strategy_signals : Table V)
  : Exc (dict (list (Scalar V * Weight))) :=
  date_column <- column strategy_signals column_date_tag ;;
  let stocks := stock_columns strategy_signals in
  rebalancing <- rebalancing_dates_filtered rebalancing_dates ;;
  investable <- investable_stocks_by_date investable_universe stocks ;;
  foldM (weights_pass strategy_signals date_column stocks rebalancing
           investable)
    (seq 0 (len strategy_signals)) (initial_weights stocks).

(** What the loop over the rows keeps of [stock_weights]: its keys are the
    distinct stock columns, every stock holds the same dates, taken from the
    rows after the first, and every weight is [1.0 / n_top_stocks] or 0. *)
Definition uniform (stocks : list string) (date_column D : list (Scalar V))
  (weights : dict (list (Scalar V * Weight))) : Prop :=
  keys weights = distinct_names stocks /\
  incl D (skipn 1 date_column) /\
  forall stock by_date,
    dict_get stock weights = Some by_date ->
    map fst by_date = D /\
    Forall (fun w => w = share n_top_stocks \/ w = nothing) (map snd by_date).

End Weights.

End Portfolio.

(** ** More concrete inputs *)

Module MoreScenarios.

Import Scenario.

(** A table without a date column. *)
Definition undated : Table Z := mkTable ["price"] [[Val 10]; [Val 11]].


(** A signal column in thousandths, read against a threshold of 25: a run of
    six values above it, interrupted by a missing value. *)
Definition signal_column : list (option Z) :=
  [Some 30; Some 31; None; Some 40; Some 41; Some 42; Some 43; Some 44; Some 45].

(** Python's [==], [== 1] and order on the values of the scenarios. *)
Definition z_eqb (a b : Scalar Z) : bool :=
  match a, b with
  | Null, Null => true
  | Date32 x, Date32 y => Z.eqb x y
  | Timestamp x, Timestamp y => Z.eqb x y
  | Val x, Val y => Z.eqb x y
  | _, _ => false
  end.

Definition z_is_one (a : Scalar Z) : bool := z_eqb a (Val 1).

Definition z_leb (a b : Scalar Z) : bool :=
  match a, b with
  | Val x, Val y => Z.leb x y
  | Date32 x, Date32 y => Z.leb x y
  | Timestamp x, Timestamp y => Z.leb x y
  | Null, _ => true
  | _, _ => false
  end.

(** Seven stocks over three dates; signals in thousandths. *)
Definition strategy_signals : Table Z :=
  mkTable ["m_date"; "S1"; "S2"; "S3"; "S4"; "S5"; "S6"; "S7"]
    [[Date32 d2020_01_02; Val 10; Val 70; Val 30; Null; Val 50; Val 60; Val 20];
     [Date32 d2020_01_03; Val 11; Val 71; Val 31; Val 41; Val 51; Val 61; Val 21];
     [Date32 d2020_01_06; Val 12; Val 72; Val 32; Val 42; Val 52; Val 62; Val 22]].

Definition investable_universe : Table Z :=
  mkTable ["m_date"; "S1"; "S2"; "S3"; "S4"; "S5"; "S6"; "S7"]
    [[Date32 d2020_01_02; Val 1; Val 1; Val 1; Val 1; Val 1; Val 1; Val 1];
     [Date32 d2020_01_03; Val 0; Val 1; Val 1; Val 0; Val 0; Val 0; Val 0];
     [Date32 d2020_01_06; Val 1; Val 1; Val 1; Val 1; Val 1; Val 1; Val 1]].

Definition flags (a b c : Z) : Table Z :=
  mkTable ["m_date"; "rebalancing_signal"]
    [[Date32 d2020_01_02; Val a]; [Date32 d2020_01_03; Val b];
     [Date32 d2020_01_06; Val c]].

Definition stocks7 : list string := ["S1"; "S2"; "S3"; "S4"; "S5"; "S6"; "S7"].

Definition signal_dates : list (Scalar Z) :=
  [Date32 d2020_01_02; Date32 d2020_01_03; Date32 d2020_01_06].

(** What the script collects from [investable_universe]. *)
Definition investable_by_date : list (Scalar Z * list string) :=
  [(Date32 d2020_01_02, stocks7); (Date32 d2020_01_03, ["S2"; "S3"]);
   (Date32 d2020_01_06, stocks7)].

(** The non-null signals of the first and of the last row. *)
Definition first_row_signals : dict (Scalar Z) :=
  [("S1", Val 10); ("S2", Val 70); ("S3", Val 30); ("S5", Val 50);
   ("S6", Val 60); ("S7", Val 20)].

Definition last_row_signals : dict (Scalar Z) :=
  [("S1", Val 12); ("S2", Val 72); ("S3", Val 32); ("S4", Val 42);
   ("S5", Val 52); ("S6", Val 62); ("S7", Val 22)].

(** The weights after the first row, when it is a rebalancing date. *)
Definition after_first_row : dict (list (Scalar Z * Portfolio.Weight)) :=
  [("S1", [(Date32 d2020_01_03, Portfolio.nothing)]);
   ("S2", [(Date32 d2020_01_03, Portfolio.share 5)]);
   ("S3", [(Date32 d2020_01_03, Portfolio.share 5)]);
   ("S4", [(Date32 d2020_01_03, Portfolio.nothing)]);
   ("S5", [(Date32 d2020_01_03, Portfolio.share 5)]);
   ("S6", [(Date32 d2020_01_03, Portfolio.share 5)]);
   ("S7", [(Date32 d2020_01_03, Portfolio.share 5)])].

Definition weights_of (rebalancing_dates : Table Z)
  : Exc (dict (list (Scalar Z * Portfolio.Weight))) :=
  Portfolio.portfolio_weights z_eqb z_is_one z_leb "m_date"
    investable_universe rebalancing_dates strategy_signals.

End MoreScenarios.

(** * Properties *)

(** ** The exception monad *)

Lemma bind_Return {A B : Type} (m : Exc A) (k : A -> Exc B) (b : B) :
  bind m k = Return b -> exists a, m = Return a /\ k a = Return b.
Proof.
  destruct m as [a|e]; simpl; intros H; [eauto | discriminate].
Qed.


Tactic Notation "inv_bind" hyp(H) :=
  let a := fresh "x" in
  let Ha := fresh "E" in
  apply bind_Return in H; destruct H as (a & Ha & H).

Tactic Notation "inv_bind" hyp(H) "as" ident(a) ident(Ha) :=
  apply bind_Return in H; destruct H as (a & Ha & H).

Ltac inv_ret H := injection H as H; subst.

Lemma mapM_Forall2 {A B : Type} (f : A -> Exc B) (l : list A) (l' : list B) :
  mapM f l = Return l' -> Forall2 (fun x y => f x = Return y) l l'.
Proof.
  revert l'; induction l as [|x xs IH]; simpl; intros l' H.
  - inv_ret H. constructor.
  - inv_bind H. inv_bind H. inv_ret H. constructor; auto.
Qed.

Lemma Forall2_Forall_r {A B : Type} (R : A -> B -> Prop) (P : B -> Prop)
  (l : list A) (l' : list B) :
  (forall x y, R x y -> P y) -> Forall2 R l l' -> Forall P l'.
Proof. intros H F. induction F; constructor; eauto. Qed.


(** ** Dictionaries and first occurrences *)

Lemma existsb_eqb_In (x : string) (l : list string) :
  existsb (String.eqb x) l = true <-> In x l.
Proof.
  rewrite existsb_exists. split.
  - intros (y & Hy & E). apply String.eqb_eq in E. now subst.
  - intros H. exists x. split; [assumption | apply String.eqb_refl].
Qed.

Lemma existsb_eqb_ext (x : string) (l l' : list string) :
  (forall y, In y l <-> In y l') ->
  existsb (String.eqb x) l = existsb (String.eqb x) l'.
Proof.
  intros H. apply eq_true_iff_eq. rewrite !existsb_eqb_In. apply H.
Qed.

Lemma first_occurrences_ext (l seen seen' : list string) :
  (forall y, In y seen <-> In y seen') ->
  first_occurrences seen l = first_occurrences seen' l.
Proof.
  revert seen seen'; induction l as [|x xs IH]; simpl; intros seen seen' H.
  - reflexivity.
  - rewrite (existsb_eqb_ext x seen seen' H).
    destruct (existsb (String.eqb x) seen'); [now apply IH|].
    f_equal. apply IH. intros y; simpl. now rewrite H.
Qed.

Lemma first_occurrences_In (l seen : list string) (x : string) :
  In x (first_occurrences seen l) <-> In x l /\ ~ In x seen.
Proof.
  revert seen; induction l as [|y ys IH]; simpl; intros seen.
  - tauto.
  - destruct (existsb (String.eqb y) seen) eqn:E.
    + apply existsb_eqb_In in E. rewrite IH. split.
      * tauto.
      * intros [[->|H] Hn]; tauto.
    + assert (Hy : ~ In y seen).
      { intros H. apply existsb_eqb_In in H. congruence. }
      simpl. rewrite IH. simpl. split.
      * intros [->|[H Hn]]; [tauto|]. split; [tauto|]. intros Hx. apply Hn. tauto.
      * intros [[->|H] Hn]; [tauto|].
        destruct (string_dec y x) as [->|Hne]; [tauto|]. right. split; [assumption|].
        intros [Heq|Hin]; tauto.
Qed.

Lemma first_occurrences_NoDup (l seen : list string) :
  NoDup (first_occurrences seen l).
Proof.
  revert seen; induction l as [|y ys IH]; simpl; intros seen.
  - constructor.
  - destruct (existsb (String.eqb y) seen); [apply IH|].
    constructor; [|apply IH].
    rewrite first_occurrences_In. simpl. tauto.
Qed.

Lemma dict_set_keys {A : Type} (k : string) (v : A) (d : dict A) :
  keys (dict_set k v d) =
  if existsb (String.eqb k) (keys d) then keys d else (keys d ++ [k])%list.
Proof.
  unfold keys. induction d as [|[k' v'] rest IH]; simpl.
  - reflexivity.
  - rewrite (String.eqb_sym k k').
    destruct (String.eqb k' k) eqn:E; simpl.
    + apply String.eqb_eq in E. now subst.
    + rewrite IH.
      now destruct (existsb (String.eqb k) (map fst rest)).
Qed.

Lemma dict_get_set_same {A : Type} (k : string) (v : A) (d : dict A) :
  dict_get k (dict_set k v d) = Some v.
Proof.
  induction d as [|[k' v'] rest IH]; simpl.
  - now rewrite String.eqb_refl.
  - destruct (String.eqb k' k) eqn:E; simpl.
    + now rewrite String.eqb_refl.
    + now rewrite E.
Qed.

Lemma dict_get_set_other {A : Type} (k k0 : string) (v : A) (d : dict A) :
  k0 <> k -> dict_get k0 (dict_set k v d) = dict_get k0 d.
Proof.
  intros Hne. induction d as [|[k' v'] rest IH]; simpl.
  - apply String.eqb_neq in Hne. rewrite String.eqb_sym. now rewrite Hne.
  - destruct (String.eqb k' k) eqn:E; simpl.
    + apply String.eqb_eq in E. subst k'.
      assert (E' : String.eqb k k0 = false).
      { apply String.eqb_neq. congruence. }
      now rewrite E'.
    + now rewrite IH.
Qed.

(** ** The loop over the features *)

Section FeatureLoop.

Context {V : Type}.
Variable to_timestamp : V -> option Z.
Variables start_date end_date : Z.
Variable column_date_tag : string.
Variable d : dict (Table V).

Let table_of := feature_table to_timestamp start_date end_date column_date_tag d.
Let loop := feature_loop to_timestamp start_date end_date column_date_tag d.

Lemma feature_loop_keys (features : list string) :
  forall acc out,
    loop features acc = Return out ->
    keys out = (keys acc ++ first_occurrences (keys acc) features)%list.
Proof.
  induction features as [|f fs IH]; simpl; intros acc out H.
  - inv_ret H. now rewrite app_nil_r.
  - inv_bind H. apply IH in H. rewrite H, dict_set_keys.
    destruct (existsb (String.eqb f) (keys acc)) eqn:Hseen.
    + reflexivity.
    + rewrite <- app_assoc. simpl. do 2 f_equal.
      apply first_occurrences_ext. intros y. rewrite in_app_iff. simpl. tauto.
Qed.

Lemma feature_loop_get_other (f : string) (features : list string) :
  forall acc out,
    ~ In f features ->
    loop features acc = Return out ->
    dict_get f out = dict_get f acc.
Proof.
  induction features as [|g gs IH]; simpl; intros acc out Hn H.
  - now inv_ret H.
  - inv_bind H. rewrite (IH _ _ (fun Hg => Hn (or_intror Hg)) H).
    apply dict_get_set_other. intros ->. apply Hn. now left.
Qed.

Lemma feature_loop_values (features : list string) :
  forall acc out,
    loop features acc = Return out ->
    forall f, In f features ->
      exists r, table_of f = Return r /\ dict_get f out = Some r.
Proof.
  induction features as [|g gs IH]; simpl; intros acc out H f Hf.
  - contradiction.
  - inv_bind H.
    destruct (in_dec string_dec f gs) as [Hin|Hnin].
    + eapply IH; eauto.
    + destruct Hf as [->|Hf]; [|contradiction].
      exists x. split; [exact E|].
      rewrite (feature_loop_get_other f gs _ _ Hnin H).
      apply dict_get_set_same.
Qed.

Lemma feature_loop_raises (features : list string) :
  forall acc f e,
    In f features -> table_of f = Raise e ->
    exists pre g post e',
      features = (pre ++ g :: post)%list /\
      (forall h, In h pre -> exists r, table_of h = Return r) /\
      table_of g = Raise e' /\
      loop features acc = Raise e'.
Proof.
  unfold loop, table_of.
  induction features as [|h hs IH]; simpl; intros acc f e Hf He.
  - contradiction.
  - destruct (feature_table to_timestamp start_date end_date column_date_tag d h)
      as [r|e0] eqn:Eh.
    + destruct Hf as [->|Hf]; [congruence|].
      destruct (IH (dict_set h r acc) f e Hf He)
        as (pre & g & post & e' & -> & Hpre & Hg & Hl).
      exists (h :: pre), g, post, e'. repeat split; auto.
      intros h' [<-|Hh']; eauto.
    + exists [], h, hs, e0. repeat split; auto.
      intros h' [].
Qed.

Lemma feature_loop_returns (features : list string) :
  forall acc,
    (forall f, In f features -> exists r, table_of f = Return r) ->
    exists out, loop features acc = Return out.
Proof.
  unfold loop, table_of.
  induction features as [|h hs IH]; simpl; intros acc H.
  - eauto.
  - destruct (H h (or_introl eq_refl)) as (r & Hr).
    rewrite Hr. simpl. apply IH. auto.
Qed.

End FeatureLoop.

(** ** Field lookup *)

Lemma get_all_field_indices_nil (name : string) (names : list string) (i : nat) :
  get_all_field_indices i name names = [] <-> ~ In name names.
Proof.
  revert i; induction names as [|n ns IH]; simpl; intros i.
  - tauto.
  - destruct (String.eqb n name) eqn:E.
    + apply String.eqb_eq in E. split; [discriminate | tauto].
    + apply String.eqb_neq in E. rewrite IH. tauto.
Qed.

Lemma get_all_field_indices_head (name : string) (rest : list string) :
  get_all_field_indices 0 name (name :: rest) =
  O :: get_all_field_indices 1 name rest.
Proof. simpl. now rewrite String.eqb_refl. Qed.

Lemma field_index_head (name : string) (rest : list string) (i : nat) :
  field_index (name :: rest) name = Return i -> i = O /\ ~ In name rest.
Proof.
  unfold field_index. rewrite get_all_field_indices_head.
  destruct (get_all_field_indices 1 name rest) eqn:E; [|discriminate].
  intros H. inv_ret H. split; [reflexivity|].
  now apply get_all_field_indices_nil in E.
Qed.

Lemma find_one_head (name : string) (rest : list string) (i : nat) :
  find_one (name :: rest) name = Return i -> i = O /\ ~ In name rest.
Proof.
  unfold find_one. rewrite get_all_field_indices_head.
  destruct (get_all_field_indices 1 name rest) eqn:E; [|discriminate].
  intros H. inv_ret H. split; [reflexivity|].
  now apply get_all_field_indices_nil in E.
Qed.

Lemma find_one_head_ok (name : string) (rest : list string) :
  ~ In name rest -> find_one (name :: rest) name = Return O.
Proof.
  intros H. unfold find_one. rewrite get_all_field_indices_head.
  apply (get_all_field_indices_nil name rest 1) in H. now rewrite H.
Qed.

Lemma field_index_In (names : list string) (name : string) (i : nat) :
  field_index names name = Return i -> In name names.
Proof.
  unfold field_index. intros H.
  destruct (in_dec string_dec name names) as [Hin|Hn]; [assumption|].
  apply (get_all_field_indices_nil name names 0) in Hn. rewrite Hn in H.
  discriminate.
Qed.

(** ** The date-range filter *)

Section Filter.

Context {V : Type}.
Variable to_timestamp : V -> option Z.
Variables start_date end_date : Z.
Variable column_date_tag : string.

Let normalized := normalized_table to_timestamp column_date_tag.
Let filtered := filtered_table to_timestamp start_date end_date column_date_tag.

Lemma in_range_spec (s : Scalar V) :
  in_range start_date end_date s = true <->
  exists t, s = Timestamp t /\
            start_date * ms_per_day <= t <= end_date * ms_per_day.
Proof.
  destruct s; simpl; split; try discriminate;
    try (intros (t & Ht & _); discriminate).
  - intros H. apply andb_true_iff in H. destruct H as [H1 H2].
    apply Z.leb_le in H1, H2. eauto.
  - intros (t & Ht & H1 & H2). inv_ret Ht.
    apply andb_true_iff. split; now apply Z.leb_le.
Qed.

(** On a calendar date the range is the closed interval of days. *)
Lemma in_range_date32 (days : Z) :
  in_range start_date end_date (@Timestamp V (days * ms_per_day)) = true <->
  start_date <= days <= end_date.
Proof.
  rewrite in_range_spec. unfold ms_per_day. split.
  - intros (t & Ht & H). inv_ret Ht. lia.
  - intros H. eexists. split; [reflexivity|]. lia.
Qed.

Lemma cast_scalar_timestamp (s ts : Scalar V) :
  cast_scalar to_timestamp s = Return ts ->
  ts = Null \/ exists t, ts = Timestamp t.
Proof.
  destruct s as [|days|t|v]; simpl; intros H.
  - inv_ret H. now left.
  - inv_ret H. right. eauto.
  - inv_ret H. right. eauto.
  - destruct (to_timestamp v); [|discriminate]. inv_ret H. right. eauto.
Qed.


Lemma mask_selects (col : list (Scalar V)) :
  Forall (fun ts => ts = Null \/ exists t, ts = Timestamp t) col ->
  forall ge le,
    greater_equal col (scalar start_date) = Return ge ->
    less_equal col (scalar end_date) = Return le ->
    map selected (and_ ge le) = map (in_range start_date end_date) col.
Proof.
  unfold greater_equal, less_equal, and_.
  induction 1 as [|c cs Hc Hcs IH]; simpl; intros ge le Hge Hle.
  - inv_ret Hge. reflexivity.
  - inv_bind Hge. inv_bind Hge. inv_ret Hge.
    inv_bind Hle. inv_bind Hle. inv_ret Hle.
    simpl. f_equal; [|now apply IH].
    destruct Hc as [->|(t & ->)]; simpl in *.
    + inv_ret E. reflexivity.
    + inv_ret E. inv_ret E1. simpl.
      rewrite Z.geb_leb.
      now destruct (start_date * ms_per_day <=? t), (t <=? end_date * ms_per_day).
Qed.

Lemma filter_by_mask {A : Type} (p : A -> bool) (l : list A) :
  forall mask,
    map selected mask = map p l ->
    map fst (List.filter (fun rm => selected (snd rm)) (combine l mask)) =
    List.filter p l.
Proof.
  induction l as [|x xs IH]; intros [|m ms]; simpl; intros H;
    try reflexivity; try discriminate.
  injection H as Hm Hms. rewrite Hm.
  destruct (p x); simpl; now rewrite IH.
Qed.

Lemma cell_replace_head (c : Scalar V) (r : list (Scalar V)) :
  forall ts, cast_scalar to_timestamp (cell 0 r) = Return ts ->
             cell 0 (replace_nth 0 ts r) = ts.
Proof.
  destruct r as [|x xs]; simpl; intros ts H.
  - unfold cell in H. simpl in H. now inv_ret H.
  - reflexivity.
Qed.

Lemma normalized_rows (raws : list (list (Scalar V))) :
  forall casted,
    cast to_timestamp (map (cell 0) raws) = Return casted ->
    Forall2 (fun raw row =>
               exists ts, cast_scalar to_timestamp (cell 0 raw) = Return ts /\
                          row = replace_nth 0 ts raw /\ cell 0 row = ts)
      raws
      (map (fun rc => replace_nth 0 (snd rc) (fst rc)) (combine raws casted)).
Proof.
  unfold cast. induction raws as [|r rs IH]; simpl; intros casted H.
  - constructor.
  - inv_bind H. inv_bind H. inv_ret H. simpl. constructor; [|now apply IH].
    exists x. repeat split; auto.
    now apply (cell_replace_head Null).
Qed.

(** What a successful [normalized_table] looks like: the date tag names
    column 0 and no other column. *)
Lemma normalized_table_spec (tst table : Table V) :
  normalized tst = Return table ->
  field_index (column_names table) column_date_tag = Return O ->
  exists rest,
    column_names tst = column_date_tag :: rest /\
    column_names table = column_date_tag :: rest /\
    ~ In column_date_tag rest /\
    Forall2 (fun raw row =>
               exists ts, cast_scalar to_timestamp (cell 0 raw) = Return ts /\
                          row = replace_nth 0 ts raw /\ cell 0 row = ts)
      (rows tst) (rows table) /\
    Forall (fun row => cell 0 row = Null \/ exists t, cell 0 row = Timestamp t)
      (rows table).
Proof.
  unfold normalized, normalized_table, column, set_column.
  intros H Hidx.
  inv_bind H as dates Hdates. inv_bind Hdates as i Hi. inv_ret Hdates.
  inv_bind H as casted Hcast.
  destruct (negb (0 <? List.length (column_names tst))%nat); [discriminate|].
  destruct (negb (List.length casted =? len tst)%nat); [discriminate|].
  inv_ret H. simpl in *.
  destruct (column_names tst) as [|n rest] eqn:En; [discriminate|].
  simpl in Hidx. apply field_index_head in Hidx. destruct Hidx as [_ Hn].
  assert (n = column_date_tag) as ->.
  { apply field_index_In in Hi. destruct Hi; [assumption|contradiction]. }
  apply field_index_head in Hi. destruct Hi as [-> _].
  pose proof (normalized_rows _ _ Hcast) as Hrows.
  exists rest. repeat split; auto.
  eapply Forall2_Forall_r; [|exact Hrows].
  intros raw row (ts & Hc & _ & Hts).
  rewrite Hts. eapply cast_scalar_timestamp; eauto.
Qed.

Lemma filtered_table_spec (tst ft : Table V) :
  filtered tst = Return ft ->
  exists table rest,
    normalized tst = Return table /\
    column_names tst = column_date_tag :: rest /\
    column_names table = column_date_tag :: rest /\
    column_names ft = column_date_tag :: rest /\
    ~ In column_date_tag rest /\
    Forall2 (fun raw row =>
               exists ts, cast_scalar to_timestamp (cell 0 raw) = Return ts /\
                          row = replace_nth 0 ts raw /\ cell 0 row = ts)
      (rows tst) (rows table) /\
    rows ft =
      List.filter (fun row => in_range start_date end_date (cell 0 row))
        (rows table).
Proof.
  unfold filtered, filtered_table, range_mask. intros H.
  inv_bind H as table Htable. inv_bind H as mask Hmask. inv_ret H.
  inv_bind Hmask as lower Hlower. inv_bind Hmask as ge Hge.
  inv_bind Hmask as upper Hupper. inv_bind Hmask as le Hle. inv_ret Hmask.
  unfold column in Hlower, Hupper.
  inv_bind Hlower as i Hi. inv_ret Hlower.
  rewrite Hi in Hupper. simpl in Hupper. inv_ret Hupper.
  assert (Hi0 : i = O).
  { unfold normalized_table, column, set_column in Htable.
    inv_bind Htable as dates Hdates. inv_bind Htable as casted Hcast.
    destruct (negb (0 <? List.length (column_names tst))%nat); [discriminate|].
    destruct (negb (List.length casted =? len tst)%nat); [discriminate|].
    inv_ret Htable. simpl in Hi.
    destruct (column_names tst); simpl in Hi.
    - discriminate.
    - now apply field_index_head in Hi. }
  subst i.
  destruct (normalized_table_spec tst table Htable Hi)
    as (rest & Hn1 & Hn2 & Hn3 & Hrows & Hts).
  exists table, rest. repeat split; auto.
  simpl. apply filter_by_mask.
  rewrite (mask_selects (map (cell 0) (rows table))) with (ge := ge) (le := le);
    auto.
  - now rewrite map_map.
  - now apply Forall_map.
Qed.

(** The cast kernel computes the canonical date of the range rule. *)
Lemma cast_scalar_canonical (s ts : Scalar V) :
  cast_scalar to_timestamp s = Return ts ->
  match canonical_date to_timestamp s with
  | Some t => ts = Timestamp t
  | None => ts = Null
  end.
Proof.
  destruct s as [|days|t|v]; simpl; intros H; try (now inv_ret H).
  destruct (to_timestamp v); [now inv_ret H|discriminate].
Qed.

(** Filtering the normalized rows is the range rule on the raw rows. *)
Lemma filter_rows_by_rule (raws normalized_rows : list (list (Scalar V))) :
  Forall2 (fun raw row =>
             exists ts, cast_scalar to_timestamp (cell 0 raw) = Return ts /\
                        row = replace_nth 0 ts raw /\ cell 0 row = ts)
    raws normalized_rows ->
  List.filter (fun row => in_range start_date end_date (cell 0 row))
    normalized_rows =
  rows_by_rule to_timestamp start_date end_date raws.
Proof.
  unfold rows_by_rule.
  induction 1 as [|raw row raws' rows' (ts & Hcast & Hrow & Hcell) _ IH].
  - reflexivity.
  - cbn [List.filter]. rewrite Hcell, IH.
    apply cast_scalar_canonical in Hcast.
    assert (Hkept : kept_by_rule to_timestamp start_date end_date raw =
                    in_range start_date end_date ts).
    { unfold kept_by_rule.
      destruct (canonical_date to_timestamp (cell 0 raw)); now subst ts. }
    rewrite Hkept.
    destruct (in_range start_date end_date ts) eqn:Hr; [|reflexivity].
    cbn [map]. f_equal. unfold canonical_row.
    destruct (canonical_date to_timestamp (cell 0 raw)); subst ts;
      [exact Hrow|discriminate].
Qed.

End Filter.

(** ** Sorting and joining keyed rows *)

Section KeyedRows.

Context {V : Type}.
Implicit Types (L R l : list (Z * list (Scalar V))).

Lemma kinsert_perm x l : Permutation (kinsert x l) (x :: l).
Proof.
  induction l as [|y ys IH]; simpl.
  - reflexivity.
  - destruct (fst x <=? fst y); [reflexivity|].
    rewrite IH. apply perm_swap.
Qed.

Lemma ksort_perm l : Permutation (ksort l) l.
Proof.
  induction l as [|x xs IH]; simpl.
  - reflexivity.
  - rewrite kinsert_perm. now constructor.
Qed.

Lemma kinsert_sorted x l :
  StronglySorted Z.le (map fst l) ->
  StronglySorted Z.le (map fst (kinsert x l)).
Proof.
  induction l as [|y ys IH]; simpl; intros H.
  - repeat constructor.
  - destruct (fst x <=? fst y) eqn:E.
    + apply Z.leb_le in E. simpl. constructor; [assumption|].
      inversion H as [|? ? Hs Hf]; subst. constructor; [assumption|].
      eapply Forall_impl; [|exact Hf]. intros; lia.
    + apply Z.leb_gt in E. inversion H as [|? ? Hs Hf]; subst.
      simpl. constructor; [now apply IH|].
      apply Forall_forall. intros k Hk.
      apply (Permutation_in k (Permutation_map fst (kinsert_perm x ys))) in Hk.
      simpl in Hk. destruct Hk as [<-|Hk]; [lia|].
      rewrite Forall_forall in Hf. now apply Hf.
Qed.

Lemma ksort_sorted l : StronglySorted Z.le (map fst (ksort l)).
Proof.
  induction l as [|x xs IH]; simpl.
  - constructor.
  - now apply kinsert_sorted.
Qed.

Lemma sorted_nodup_strict (ks : list Z) :
  StronglySorted Z.le ks -> NoDup ks -> StronglySorted Z.lt ks.
Proof.
  induction 1 as [|k ks Hs IH Hf]; intros Hn.
  - constructor.
  - inversion Hn as [|? ? Hnin Hn']; subst. constructor; [now apply IH|].
    rewrite Forall_forall in *. intros y Hy.
    specialize (Hf y Hy). assert (k <> y) by (intros ->; contradiction). lia.
Qed.

Lemma kmatches_nodup k R :
  NoDup (map fst R) ->
  kmatches k R = [] \/ exists r, kmatches k R = [r].
Proof.
  unfold kmatches. induction R as [|r rs IH]; simpl; intros Hn.
  - now left.
  - inversion Hn as [|? ? Hnin Hn']; subst.
    destruct (k =? fst r) eqn:E.
    + right. exists r. f_equal.
      apply Z.eqb_eq in E. subst k.
      clear IH Hn Hn'. induction rs as [|s ss IHs]; simpl; [reflexivity|].
      destruct (fst r =? fst s) eqn:Es.
      * apply Z.eqb_eq in Es. exfalso. apply Hnin. simpl. now left.
      * apply IHs. intros H. apply Hnin. simpl. now right.
    + now apply IH.
Qed.

Lemma kjoin_keys_nodup n L R :
  NoDup (map fst R) -> map fst (kjoin n L R) = map fst L.
Proof.
  intros Hn. unfold kjoin. induction L as [|l ls IH].
  - reflexivity.
  - change (l :: ls) with ([l] ++ ls)%list.
    rewrite flat_map_app, map_app, IH. simpl. rewrite app_nil_r.
    destruct (kmatches_nodup (fst l) R Hn) as [->|(r & ->)]; reflexivity.
Qed.

Lemma kjoin_In n L R kc :
  In kc (kjoin n L R) ->
  exists a, In a L /\ fst kc = fst a /\
    (snd kc = (snd a ++ repeat Null n)%list \/
     exists b, In b R /\ fst b = fst a /\ snd kc = (snd a ++ snd b)%list).
Proof.
  unfold kjoin. rewrite in_flat_map. intros (a & Ha & H).
  exists a. split; [assumption|].
  destruct (kmatches (fst a) R) as [|m ms] eqn:E.
  - destruct H as [<-|[]]. simpl. auto.
  - apply in_map_iff in H. destruct H as (b & <- & Hb). simpl.
    split; [reflexivity|]. right. exists b.
    rewrite <- E in Hb. unfold kmatches in Hb. apply filter_In in Hb.
    destruct Hb as [Hb Hk]. apply Z.eqb_eq in Hk. auto.
Qed.

End KeyedRows.

(** ** The table operations on keyed tables *)

Section KeyedTables.

Context {V : Type}.
Variable tag : string.
Implicit Types (L R krows : list (Z * list (Scalar V))).

Lemma keyed_with_key krows :
  keyed 0 (map row_of krows) = Return (map with_key krows).
Proof.
  unfold keyed. induction krows as [|kc rest IH]; simpl.
  - reflexivity.
  - rewrite IH. reflexivity.
Qed.

Lemma insert_row_with_key x krows :
  insert_row (with_key x) (map with_key krows) = map with_key (kinsert x krows).
Proof.
  induction krows as [|y ys IH]; simpl.
  - reflexivity.
  - destruct (fst x <=? fst y); simpl; [reflexivity|]. now rewrite IH.
Qed.

Lemma sort_rows_with_key krows :
  sort_rows (map with_key krows) = map with_key (ksort krows).
Proof.
  induction krows as [|x xs IH]; simpl.
  - reflexivity.
  - rewrite IH. apply insert_row_with_key.
Qed.

Lemma matches_with_key k R :
  matches (Some k) (map with_key R) = map with_key (kmatches k R).
Proof.
  unfold matches, kmatches. induction R as [|r rs IH]; simpl.
  - reflexivity.
  - destruct (k =? fst r); simpl; f_equal; exact IH.
Qed.

Lemma snd_with_key krows : map snd (map with_key krows) = map row_of krows.
Proof. rewrite map_map. reflexivity. Qed.

Lemma sort_by_keyed cols krows :
  ~ In tag cols ->
  sort_by (keyed_table tag cols krows) tag =
  Return (keyed_table tag cols (ksort krows)).
Proof.
  intros Hn. unfold sort_by, keyed_table. simpl column_names. simpl rows.
  rewrite (find_one_head_ok tag cols Hn). simpl.
  rewrite keyed_with_key. simpl.
  now rewrite sort_rows_with_key, snd_with_key.
Qed.

Lemma sort_by_tag_unique (cols : list string) (rs : list (list (Scalar V)))
  (t : Table V) :
  sort_by (mkTable (tag :: cols) rs) tag = Return t -> ~ In tag cols.
Proof.
  unfold sort_by. simpl. intros H. inv_bind H as i Hi.
  now apply find_one_head in Hi.
Qed.

Lemma join_rows_keyed n L R :
  flat_map
    (fun kl_row : option Z * list (Scalar V) =>
       match matches (fst kl_row) (map with_key R) with
       | [] => [(snd kl_row ++ repeat Null n)%list]
       | ms => map (fun kr_row : option Z * list (Scalar V) =>
                      (snd kl_row ++ remove_nth 0 (snd kr_row))%list) ms
       end) (map with_key L) =
  map row_of (kjoin n L R).
Proof.
  unfold kjoin. induction L as [|a rest IH].
  - reflexivity.
  - change (a :: rest) with ([a] ++ rest)%list.
    rewrite map_app, !flat_map_app, map_app, IH. f_equal.
    simpl. rewrite !app_nil_r, matches_with_key.
    destruct (kmatches (fst a) R) as [|m ms]; simpl.
    + reflexivity.
    + f_equal. rewrite !map_map. reflexivity.
Qed.

Lemma join_keyed colsL colsR L R sfx :
  ~ In tag colsL -> ~ In tag colsR ->
  join (keyed_table tag colsL L) (keyed_table tag colsR R) tag sfx LeftOuter =
  Return (keyed_table tag
            (colsL ++ map (suffixed (tag :: colsL) sfx) colsR)
            (kjoin (List.length colsR) L R)).
Proof.
  intros HL HR. unfold join, keyed_table. simpl column_names. simpl rows.
  rewrite (find_one_head_ok tag colsL HL), (find_one_head_ok tag colsR HR).
  simpl bind. rewrite !keyed_with_key. simpl bind.
  simpl remove_nth. rewrite join_rows_keyed. reflexivity.
Qed.

Lemma join_tag_unique (colsL colsR : list string)
  (rl rr : list (list (Scalar V))) (sfx : string) (jt : JoinType) (t : Table V) :
  join (mkTable (tag :: colsL) rl) (mkTable (tag :: colsR) rr) tag sfx jt =
  Return t ->
  ~ In tag colsL /\ ~ In tag colsR.
Proof.
  unfold join. simpl. intros H.
  inv_bind H as kl Hkl. inv_bind H as kr Hkr.
  apply find_one_head in Hkl, Hkr. tauto.
Qed.

End KeyedTables.

(** ** One ticker at a time *)

Section TickerLoop.

Context {V : Type}.
Variable to_timestamp : V -> option Z.
Variables start_date end_date : Z.
Variable tag : string.

Let filtered := filtered_table to_timestamp start_date end_date tag.
Let data_of := ticker_data to_timestamp start_date end_date tag.
Let step := ticker_step to_timestamp start_date end_date tag.

(** The projected table of a ticker is a keyed table with one value column
    whose keys lie in the range. *)
Lemma ticker_data_keyed (feature ticker : string) (tst data : Table V) :
  data_of feature ticker tst = Return data ->
  exists ft j kdata,
    filtered tst = Return ft /\
    field_index (column_names ft) feature = Return j /\
    kdata = map (fun r => (timestamp_of (cell 0 r), [cell j r])) (rows ft) /\
    data = keyed_table tag [ticker] kdata /\
    Forall (observation start_date end_date) kdata.
Proof.
  unfold data_of, ticker_data. intros H.
  inv_bind H as ft Hft. inv_bind H as sel Hsel.
  unfold select in Hsel. inv_bind Hsel as idxs Hidxs. inv_ret Hsel.
  simpl in Hidxs. inv_bind Hidxs as i Hi. inv_bind Hidxs as js Hjs.
  inv_bind Hjs as j Hj. inv_ret Hjs. inv_ret Hidxs.
  unfold rename_columns in H. simpl in H. inv_ret H.
  destruct (filtered_table_spec _ _ _ _ _ _ Hft)
    as (table & rest & _ & _ & _ & Hnames & Hrest & _ & Hrows).
  rewrite Hnames in Hi. apply field_index_head in Hi. destruct Hi as [-> _].
  exists ft, j, (map (fun r => (timestamp_of (cell 0 r), [cell j r])) (rows ft)).
  assert (Hin : Forall (fun r => in_range start_date end_date (cell 0 r) = true)
                  (rows ft)).
  { rewrite Hrows. apply Forall_forall. intros r Hr.
    apply filter_In in Hr. tauto. }
  repeat split; auto.
  - unfold keyed_table. f_equal. rewrite map_map.
    apply map_ext_in. intros r Hr. rewrite Forall_forall in Hin.
    apply Hin, in_range_spec in Hr. destruct Hr as (t & Ht & _).
    unfold row_of. simpl. now rewrite Ht.
  - apply Forall_map. eapply Forall_impl; [|exact Hin].
    intros r Hr. apply in_range_spec in Hr. destruct Hr as (t & Ht & Hr).
    split; simpl; [eauto|]. now rewrite Ht.
Qed.

(** A pass of the loop body on a keyed accumulator is [kstep]. *)
Lemma ticker_step_keyed (feature ticker : string) (tst : Table V)
  (st : option (list string * list (Z * list (Scalar V))))
  (res : option (Table V)) :
  well_keyed tag st ->
  step feature (table_of_state tag st) (ticker, tst) = Return res ->
  exists kdata,
    data_of feature ticker tst = Return (keyed_table tag [ticker] kdata) /\
    Forall (observation start_date end_date) kdata /\
    ticker <> tag /\
    res = table_of_state tag (Some (kstep tag st ticker kdata)) /\
    well_keyed tag (Some (kstep tag st ticker kdata)).
Proof.
  unfold step, ticker_step. simpl fst. simpl snd. intros Hwf H.
  inv_bind H as data Hdata. inv_bind H as joined Hjoin.
  inv_bind H as sorted Hsort. inv_ret H.
  destruct (ticker_data_keyed _ _ _ _ Hdata)
    as (ft & j & kdata & _ & _ & _ & -> & Hobs).
  exists kdata. split; [exact Hdata|]. split; [exact Hobs|].
  destruct st as [[cols krows]|]; simpl in Hjoin, Hwf |- *.
  - assert (Hlen : len (keyed_table tag [ticker] kdata) = List.length kdata).
    { unfold len, keyed_table. simpl. apply length_map. }
    assert (Hlen' : len (keyed_table tag cols krows) = List.length krows).
    { unfold len, keyed_table. simpl. apply length_map. }
    rewrite Hlen, Hlen' in Hjoin.
    destruct (List.length kdata <? List.length krows)%nat.
    + pose proof (join_tag_unique _ _ _ _ _ _ _ _ Hjoin) as [_ Ht].
      rewrite join_keyed in Hjoin by assumption. inv_ret Hjoin.
      pose proof (sort_by_tag_unique _ _ _ _ Hsort) as Hc.
      rewrite sort_by_keyed in Hsort by assumption. inv_ret Hsort.
      repeat split; auto. intros ->. apply Ht. now left.
    + pose proof (join_tag_unique _ _ _ _ _ _ _ _ Hjoin) as [Ht _].
      rewrite join_keyed in Hjoin by assumption. inv_ret Hjoin.
      pose proof (sort_by_tag_unique _ _ _ _ Hsort) as Hc.
      rewrite sort_by_keyed in Hsort by assumption. inv_ret Hsort.
      repeat split; auto. intros ->. apply Ht. now left.
  - inv_ret Hjoin. unfold combine_chunks in Hsort.
    pose proof (sort_by_tag_unique _ _ _ _ Hsort) as Hc.
    rewrite sort_by_keyed in Hsort by assumption. inv_ret Hsort.
    repeat split; auto. intros ->. apply Hc. now left.
Qed.

(** Induction over the ticker loop: a property of the keyed accumulator that
    holds before the first ticker and is kept by every [kstep] holds of the
    feature's result. *)
Lemma feature_table_ind (feature : string)
  (P : dict (Table V) -> option (list string * list (Z * list (Scalar V))) -> Prop) :
  P [] None ->
  (forall pre st ticker tst kdata,
      P pre st -> well_keyed tag st ->
      data_of feature ticker tst = Return (keyed_table tag [ticker] kdata) ->
      Forall (observation start_date end_date) kdata ->
      ticker <> tag ->
      well_keyed tag (Some (kstep tag st ticker kdata)) ->
      P (pre ++ [(ticker, tst)])%list (Some (kstep tag st ticker kdata))) ->
  forall d res,
    feature_table to_timestamp start_date end_date tag d feature = Return res ->
    exists st, res = table_of_state tag st /\ well_keyed tag st /\ P d st.
Proof.
  intros Hinit Hstep d res. unfold feature_table.
  change None with (table_of_state tag (@None (list string * list (Z * list (Scalar V))))).
  assert (G : forall rest pre st,
             P pre st -> well_keyed tag st ->
             foldM (ticker_step to_timestamp start_date end_date tag feature)
               rest (table_of_state tag st) = Return res ->
             exists st', res = table_of_state tag st' /\ well_keyed tag st' /\
                         P (pre ++ rest)%list st').
  { induction rest as [|[ticker tst] rest IH]; simpl; intros pre st HP Hwf H.
    - inv_ret H. rewrite app_nil_r. eauto.
    - inv_bind H as res1 Hres1.
      destruct (ticker_step_keyed _ _ _ _ _ Hwf Hres1)
        as (kdata & Hdata & Hobs & Hne & -> & Hwf').
      destruct (IH (pre ++ [(ticker, tst)])%list _
                  (Hstep _ _ _ _ _ HP Hwf Hdata Hobs Hne Hwf') Hwf' H)
        as (st' & Hst' & Hwf'' & HP').
      rewrite <- app_assoc in HP'. simpl in HP'. eauto. }
  intros H. apply (G d [] None Hinit I H).
Qed.

End TickerLoop.

(** ** What the ticker loop keeps *)

Section LoopInvariants.

Context {V : Type}.
Variable to_timestamp : V -> option Z.
Variables start_date end_date : Z.
Variable tag : string.
Variable feature : string.

Let data_of := ticker_data to_timestamp start_date end_date tag feature.
Let table_of := feature_table to_timestamp start_date end_date tag.

Implicit Types (st : option (list string * list (Z * list (Scalar V)))).
Implicit Types (kdata krows : list (Z * list (Scalar V))).
Implicit Types (ticker : string).

Lemma field_index_head_ok (name : string) (rest : list string) :
  ~ In name rest -> field_index (name :: rest) name = Return O.
Proof.
  intros H. unfold field_index. rewrite get_all_field_indices_head.
  apply (get_all_field_indices_nil name rest 1) in H. now rewrite H.
Qed.

Lemma keyed_table_dates (cols : list string)
  (krows : list (Z * list (Scalar V))) :
  ~ In tag cols ->
  column (keyed_table tag cols krows) tag =
  Return (map Timestamp (map fst krows)).
Proof.
  intros H. unfold column, keyed_table. simpl.
  rewrite (field_index_head_ok tag cols H). simpl.
  now rewrite !map_map.
Qed.

Lemma Timestamp_inj_nodup (ks : list Z) :
  NoDup (map (@Timestamp V) ks) -> NoDup ks.
Proof. apply NoDup_map_inv. Qed.

Lemma kstep_sorted st ticker kdata :
  sorted_state (Some (kstep tag st ticker kdata)).
Proof.
  destruct st as [[cols krows]|]; simpl.
  - destruct (List.length kdata <? List.length krows)%nat; simpl;
      apply ksort_sorted.
  - apply ksort_sorted.
Qed.

Lemma ksort_keys_nodup (l : list (Z * list (Scalar V))) :
  NoDup (map fst l) -> NoDup (map fst (ksort l)).
Proof.
  intros H. eapply Permutation_NoDup; [|exact H].
  apply Permutation_map. symmetry. apply ksort_perm.
Qed.

Lemma kstep_distinct st ticker kdata :
  distinct_state st -> NoDup (map fst kdata) ->
  distinct_state (Some (kstep tag st ticker kdata)).
Proof.
  intros Hst Hk. destruct st as [[cols krows]|]; simpl in *.
  - destruct (List.length kdata <? List.length krows)%nat; simpl;
      apply ksort_keys_nodup; now rewrite kjoin_keys_nodup.
  - now apply ksort_keys_nodup.
Qed.

(** The dates of a feature's table ascend; they ascend strictly when no
    ticker's projected table repeats a date. *)
Lemma feature_table_sorted (d : dict (Table V)) (res : option (Table V)) :
  table_of d feature = Return res ->
  exists st,
    res = table_of_state tag st /\ well_keyed tag st /\ sorted_state st /\
    ((forall ticker tst data col,
         In (ticker, tst) d -> data_of ticker tst = Return data ->
         column data tag = Return col -> NoDup col) ->
     distinct_state st).
Proof.
  intros H.
  destruct (feature_table_ind to_timestamp start_date end_date tag feature
              (fun pre st =>
                 sorted_state st /\
                 ((forall ticker tst data col,
                      In (ticker, tst) pre -> data_of ticker tst = Return data ->
                      column data tag = Return col -> NoDup col) ->
                  distinct_state st))) with (d := d) (res := res)
    as (st & Hres & Hwf & Hs & Hd); auto.
  - simpl. auto.
  - intros pre st ticker tst kdata [Hs Hd] Hwf Hdata Hobs Hne Hwf'.
    split; [apply kstep_sorted|].
    intros Hall. apply kstep_distinct.
    + apply Hd. intros t0 tst0 data0 col0 Hin. apply Hall.
      apply in_or_app. now left.
    + apply Timestamp_inj_nodup.
      apply (Hall ticker tst (keyed_table tag [ticker] kdata)).
      * apply in_or_app. right. now left.
      * exact Hdata.
      * apply keyed_table_dates. intros [Ht|[]]. now apply Hne.
  - exists st. auto.
Qed.

Lemma suffixed_fresh (names : list string) (sfx n : string) :
  ~ In n names -> suffixed names sfx n = n.
Proof.
  intros H. unfold suffixed.
  destruct (existsb (String.eqb n) names) eqn:E; [|reflexivity].
  apply existsb_eqb_In in E. contradiction.
Qed.

Lemma map_suffixed_fresh (names cols : list string) (sfx : string) :
  (forall c, In c cols -> ~ In c names) ->
  map (suffixed names sfx) cols = cols.
Proof.
  induction cols as [|c cs IH]; simpl; intros H.
  - reflexivity.
  - rewrite suffixed_fresh by (apply H; now left).
    f_equal. apply IH. intros c' Hc'. apply H. now right.
Qed.

(** The value columns after a pass, when the ticker is new: last when the
    accumulator has more rows than the ticker's table, first otherwise. *)
Lemma kstep_columns_order cols krows ticker kdata :
  ~ In tag cols -> ticker <> tag -> ~ In ticker cols ->
  fst (kstep tag (Some (cols, krows)) ticker kdata) =
  if Nat.ltb (List.length kdata) (List.length krows)
  then (cols ++ [ticker])%list else ticker :: cols.
Proof.
  intros Htag Hne Hnew. simpl.
  destruct (List.length kdata <? List.length krows)%nat; simpl.
  - rewrite suffixed_fresh; [reflexivity|].
    intros [H|H]; [now apply Hne|contradiction].
  - rewrite map_suffixed_fresh; [reflexivity|].
    intros c Hc [H|[H|[]]]; subst; contradiction.
Qed.

Lemma ksort_Forall (P : Z * list (Scalar V) -> Prop) krows :
  Forall P krows -> Forall P (ksort krows).
Proof.
  apply Permutation_Forall. symmetry. apply ksort_perm.
Qed.

Lemma kstep_columns tickers st ticker kdata :
  columns_state tickers st -> well_keyed tag st ->
  ticker <> tag -> ~ In ticker tickers ->
  Forall (observation start_date end_date) kdata ->
  columns_state (tickers ++ [ticker]) (Some (kstep tag st ticker kdata)).
Proof.
  intros Hcols Hwf Hne Hnew Hobs.
  assert (Hone : Forall (fun kc => List.length (snd kc) = 1%nat) kdata).
  { eapply Forall_impl; [|exact Hobs]. intros kc [(c & ->) _]. reflexivity. }
  destruct st as [[cols krows]|].
  - destruct Hcols as [Hperm Hwidth]. simpl in Hwf.
    assert (Hnc : ~ In ticker cols).
    { intros H. apply Hnew. eapply Permutation_in; eauto. }
    pose proof (kstep_columns_order cols krows ticker kdata Hwf Hne Hnc) as Ho.
    unfold columns_state.
    destruct (kstep tag (Some (cols, krows)) ticker kdata) as [cols' krows'] eqn:Ek.
    simpl in Ho. simpl in Ek.
    destruct (List.length kdata <? List.length krows)%nat; inv_ret Ek.
    + rewrite Ho. split.
      * now apply Permutation_app_tail.
      * apply ksort_Forall, Forall_forall. intros kc Hkc.
        apply kjoin_In in Hkc. destruct Hkc as (a & Ha & _ & Hs).
        rewrite Forall_forall in Hwidth, Hone. specialize (Hwidth a Ha).
        destruct Hs as [->|(b & Hb & _ & ->)]; rewrite !length_app.
        -- simpl. now rewrite Hwidth.
        -- now rewrite Hwidth, (Hone b Hb).
    + rewrite Ho. split.
      * rewrite Permutation_app_comm. simpl. now constructor.
      * apply ksort_Forall, Forall_forall. intros kc Hkc.
        apply kjoin_In in Hkc. destruct Hkc as (a & Ha & _ & Hs).
        rewrite Forall_forall in Hwidth, Hone. specialize (Hone a Ha).
        destruct Hs as [->|(b & Hb & _ & ->)]; rewrite !length_app.
        -- rewrite repeat_length, Hone. reflexivity.
        -- now rewrite Hone, (Hwidth b Hb).
  - simpl in Hcols. subst tickers. simpl. split; [reflexivity|].
    now apply ksort_Forall.
Qed.

Lemma combine_app_same {A B : Type} (a a' : list A) (b b' : list B) :
  List.length a = List.length b ->
  combine (a ++ a') (b ++ b') = (combine a b ++ combine a' b')%list.
Proof.
  revert b; induction a as [|x xs IH]; intros [|y ys]; simpl; intros H;
    try discriminate; [reflexivity|].
  f_equal. apply IH. now injection H.
Qed.

Lemma combine_repeat_null (cols : list string) (n : nat) (t : string)
  (c : Scalar V) :
  In (t, c) (combine cols (repeat Null n)) -> c = Null.
Proof.
  intros H. apply in_combine_r in H. now apply repeat_spec in H.
Qed.

Lemma kstep_cells (source : string -> Z -> Scalar V -> Prop)
  tickers st ticker kdata :
  columns_state tickers st -> well_keyed tag st ->
  ticker <> tag -> ~ In ticker tickers ->
  Forall (observation start_date end_date) kdata ->
  (forall k c, In (k, [c]) kdata -> source ticker k c) ->
  cells_from source st ->
  cells_from source (Some (kstep tag st ticker kdata)).
Proof.
  intros Hcols Hwf Hne Hnew Hobs Hsrc Hcells.
  assert (Hone : forall a, In a kdata -> exists c, a = (fst a, [c])).
  { rewrite Forall_forall in Hobs. intros a Ha.
    destruct (Hobs a Ha) as [(c & Hc) _]. exists c.
    destruct a as [k cs]. simpl in *. now subst. }
  destruct st as [[cols krows]|].
  - destruct Hcols as [Hperm Hwidth]. simpl in Hwf, Hcells.
    assert (Hnc : ~ In ticker cols).
    { intros H. apply Hnew. eapply Permutation_in; eauto. }
    pose proof (kstep_columns_order cols krows ticker kdata Hwf Hne Hnc) as Ho.
    unfold cells_from.
    destruct (kstep tag (Some (cols, krows)) ticker kdata) as [cols' krows'] eqn:Ek.
    simpl in Ho. simpl in Ek.
    rewrite Forall_forall in Hwidth, Hcells.
    destruct (List.length kdata <? List.length krows)%nat; inv_ret Ek;
      rewrite Ho; apply ksort_Forall, Forall_forall; intros kc Hkc t c Hin;
      apply kjoin_In in Hkc; destruct Hkc as (a & Ha & Hk & Hs); rewrite Hk.
    + destruct Hs as [Hs|(b & Hb & Hkb & Hs)]; rewrite Hs in Hin;
        rewrite combine_app_same in Hin by (symmetry; now apply Hwidth);
        apply in_app_or in Hin; destruct Hin as [Hin|Hin].
      * now apply (Hcells a Ha).
      * left. eapply combine_repeat_null; eauto.
      * now apply (Hcells a Ha).
      * destruct (Hone b Hb) as (cb & Hcb). rewrite Hcb in Hin. simpl in Hin.
        destruct Hin as [Hin|[]]. inv_ret Hin. right. apply Hsrc.
        rewrite <- Hkb, <- Hcb. assumption.
    + destruct (Hone a Ha) as (ca & Hca).
      assert (Hsa : snd a = [ca]) by (rewrite Hca; reflexivity).
      destruct Hs as [Hs|(b & Hb & Hkb & Hs)]; rewrite Hs, Hsa in Hin;
        simpl in Hin; destruct Hin as [Hin|Hin].
      * inv_ret Hin. right. apply Hsrc. now rewrite <- Hca.
      * left. eapply combine_repeat_null; eauto.
      * inv_ret Hin. right. apply Hsrc. now rewrite <- Hca.
      * rewrite <- Hkb. now apply (Hcells b Hb).
  - simpl. apply ksort_Forall, Forall_forall. intros kc Hkc t c Hin.
    destruct (Hone kc Hkc) as (c0 & Hc0). rewrite Hc0 in Hin. simpl in Hin.
    destruct Hin as [Hin|[]]. inv_ret Hin. right. apply Hsrc.
    now rewrite <- Hc0.
Qed.

Lemma cells_from_impl (src src' : string -> Z -> Scalar V -> Prop) st :
  (forall t k c, src t k c -> src' t k c) ->
  cells_from src st -> cells_from src' st.
Proof.
  intros Himp. destruct st as [[cols krows]|]; simpl; [|auto].
  apply Forall_impl. intros kc H t c Hin.
  destruct (H t c Hin); auto.
Qed.

Lemma keys_app {A : Type} (a b : dict A) :
  keys (a ++ b)%list = (keys a ++ keys b)%list.
Proof. apply map_app. Qed.

(** The value columns of a feature's table are the tickers, and every cell
    is null or the ticker's observation at the row's date. *)
Lemma feature_table_columns (d : dict (Table V)) (res : option (Table V)) :
  NoDup (keys d) ->
  table_of d feature = Return res ->
  exists st,
    res = table_of_state tag st /\ well_keyed tag st /\
    columns_state (keys d) st /\
    cells_from (observed to_timestamp start_date end_date tag d feature) st.
Proof.
  intros Hnd H.
  destruct (feature_table_ind to_timestamp start_date end_date tag feature
              (fun pre st =>
                 NoDup (keys pre) ->
                 columns_state (keys pre) st /\
                 cells_from
                   (observed to_timestamp start_date end_date tag pre feature)
                   st)) with (d := d) (res := res)
    as (st & Hres & Hwf & HP); auto.
  - simpl. auto.
  - intros pre st ticker tst kdata HP Hwf Hdata Hobs Hne Hwf' Hnd'.
    rewrite keys_app in Hnd' |- *. simpl in Hnd' |- *.
    assert (Hpre : NoDup (keys pre)) by (eapply NoDup_app_remove_r; eauto).
    assert (Hnew : ~ In ticker (keys pre)).
    { intros Hin. apply NoDup_remove_2 in Hnd'. apply Hnd'.
      rewrite app_nil_r. exact Hin. }
    destruct (HP Hpre) as [Hcols Hcells].
    split; [now apply kstep_columns|].
    eapply kstep_cells; eauto.
    + intros k c Hin. exists tst, (keyed_table tag [ticker] kdata).
      repeat split; auto.
      * apply in_or_app. right. now left.
      * simpl. apply in_map_iff. exists (k, [c]). auto.
    + eapply cells_from_impl; [|exact Hcells].
      intros t k c (tst0 & data0 & Hin & Hd & Hr). exists tst0, data0.
      repeat split; auto. apply in_or_app. now left.
  - exists st. destruct (HP Hnd). auto.
Qed.

Lemma kstep_keys (source : Z -> Prop) st ticker kdata :
  keys_from source st ->
  Forall (fun kc => source (fst kc)) kdata ->
  keys_from source (Some (kstep tag st ticker kdata)).
Proof.
  intros Hst Hk. destruct st as [[cols krows]|]; simpl in *.
  - rewrite Forall_forall in Hst, Hk.
    destruct (List.length kdata <? List.length krows)%nat; simpl;
      apply ksort_Forall, Forall_forall; intros kc Hkc;
      apply kjoin_In in Hkc; destruct Hkc as (a & Ha & -> & _); auto.
  - now apply ksort_Forall.
Qed.

(** No date is made up: every date of a feature's table is an in-range
    date of some ticker. *)
Lemma feature_table_keys (d : dict (Table V)) (res : option (Table V)) :
  table_of d feature = Return res ->
  exists st,
    res = table_of_state tag st /\ well_keyed tag st /\
    keys_from
      (fun k =>
         start_date * ms_per_day <= k <= end_date * ms_per_day /\
         exists ticker c,
           observed to_timestamp start_date end_date tag d feature ticker k c)
      st.
Proof.
  intros H.
  destruct (feature_table_ind to_timestamp start_date end_date tag feature
              (fun pre st =>
                 keys_from
                   (fun k =>
                      start_date * ms_per_day <= k <= end_date * ms_per_day /\
                      exists ticker c,
                        observed to_timestamp start_date end_date tag pre
                          feature ticker k c) st))
    with (d := d) (res := res) as (st & Hres & Hwf & HP); auto.
  - simpl. auto.
  - intros pre st ticker tst kdata HP Hwf Hdata Hobs Hne Hwf'.
    apply kstep_keys.
    + destruct st as [[cols krows]|]; simpl in *; [|exact I].
      eapply Forall_impl; [|exact HP].
      intros kc (Hr & t0 & c0 & tst0 & data0 & Hin & Hd & Hrow).
      split; [exact Hr|]. exists t0, c0, tst0, data0. repeat split; auto.
      apply in_or_app. now left.
    + rewrite Forall_forall in Hobs |- *. intros [k cs] Hkc.
      destruct (Hobs _ Hkc) as [(c & Hc) Hr]. simpl in Hc, Hr |- *. subst cs.
      split; [exact Hr|]. exists ticker, c, tst, (keyed_table tag [ticker] kdata).
      repeat split; auto.
      * apply in_or_app. right. now left.
      * simpl. apply in_map_iff. exists (k, [c]). auto.
  - exists st. auto.
Qed.

End LoopInvariants.

(** ** Looking results up *)


Lemma dict_In_unique {A : Type} (k : string) (a b : A) (d : dict A) :
  NoDup (keys d) -> In (k, a) d -> In (k, b) d -> a = b.
Proof.
  unfold keys. induction d as [|[k' v'] rest IH]; simpl; intros Hn Ha Hb.
  - contradiction.
  - inversion Hn as [|? ? Hnin Hn']; subst.
    destruct Ha as [Ha|Ha], Hb as [Hb|Hb].
    + congruence.
    + inv_ret Ha. exfalso. apply Hnin. apply in_map_iff. now exists (k, b).
    + inv_ret Hb. exfalso. apply Hnin. apply in_map_iff. now exists (k, a).
    + now apply IH.
Qed.

Lemma get_all_field_indices_nodup (names : list string) (name : string) :
  forall i j,
    NoDup names -> nth_error names j = Some name ->
    get_all_field_indices i name names = [(i + j)%nat].
Proof.
  induction names as [|n ns IH]; intros i j Hn Hj.
  - destruct j; discriminate.
  - inversion Hn as [|? ? Hnin Hn']; subst. destruct j as [|j]; simpl in *.
    + inv_ret Hj. rewrite String.eqb_refl.
      apply (get_all_field_indices_nil name ns (S i)) in Hnin.
      rewrite Hnin. now rewrite Nat.add_0_r.
    + assert (Hne : String.eqb n name = false).
      { apply String.eqb_neq. intros ->. apply Hnin.
        eapply nth_error_In; eauto. }
      rewrite Hne, (IH (S i) j Hn' Hj). f_equal. lia.
Qed.

Lemma field_index_nodup (names : list string) (name : string) (j : nat) :
  NoDup names -> nth_error names j = Some name ->
  field_index names name = Return j.
Proof.
  intros Hn Hj. unfold field_index.
  now rewrite (get_all_field_indices_nodup names name 0 j Hn Hj).
Qed.

Lemma nth_error_combine {A B : Type} (a : list A) (b : list B) (j : nat)
  (x : A) (y : B) :
  nth_error a j = Some x -> nth_error b j = Some y -> In (x, y) (combine a b).
Proof.
  revert a b; induction j as [|j IH]; intros [|a0 a] [|b0 b]; simpl;
    try discriminate; intros Ha Hb.
  - inv_ret Ha. inv_ret Hb. now left.
  - right. now apply IH.
Qed.

Section Results.

Context {V : Type}.
Variable to_timestamp : V -> option Z.
Variables start_date end_date : Z.
Variable tag : string.
Variable d : dict (Table V).

Lemma data_creator_lookup (features : list string)
  (out : dict (option (Table V))) (feature : string) (r : option (Table V)) :
  data_creator to_timestamp start_date end_date tag d features = Return out ->
  dict_get feature out = Some r ->
  In feature features /\
  feature_table to_timestamp start_date end_date tag d feature = Return r.
Proof.
  unfold data_creator. intros H Hget.
  destruct (in_dec string_dec feature features) as [Hin|Hnin].
  - split; [assumption|].
    destruct (feature_loop_values _ _ _ _ _ _ _ _ H feature Hin)
      as (r' & Hr' & Hget').
    congruence.
  - rewrite (feature_loop_get_other _ _ _ _ _ _ _ _ _ Hnin H) in Hget.
    discriminate.
Qed.

Lemma feature_loop_empty (features ks : list string) :
  feature_loop to_timestamp start_date end_date tag [] features
    (map (fun f => (f, @None (Table V))) ks) =
  Return (map (fun f => (f, None)) (ks ++ first_occurrences ks features)%list).
Proof.
  revert ks; induction features as [|f fs IH]; simpl; intros ks.
  - now rewrite app_nil_r.
  - assert (Hset : dict_set f None (map (fun f => (f, @None (Table V))) ks) =
                   map (fun f => (f, None))
                     (if existsb (String.eqb f) ks then ks else (ks ++ [f])%list)).
    { clear IH. induction ks as [|k ks IHk]; simpl.
      - reflexivity.
      - rewrite (String.eqb_sym f k). destruct (String.eqb k f) eqn:E; simpl.
        + apply String.eqb_eq in E. now subst.
        + rewrite IHk. now destruct (existsb (String.eqb f) ks). }
    rewrite Hset. destruct (existsb (String.eqb f) ks).
    + apply IH.
    + rewrite IH, <- app_assoc. simpl. do 4 f_equal.
      apply first_occurrences_ext. intros y. rewrite in_app_iff. simpl. tauto.
Qed.

(** [data_creator] returns a mapping exactly when every requested feature
    assembles. *)
Lemma data_creator_returns_iff (features : list string) :
  (exists out,
      data_creator to_timestamp start_date end_date tag d features = Return out)
  <->
  (forall f, In f features ->
             exists r,
               feature_table to_timestamp start_date end_date tag d f = Return r).
Proof.
  unfold data_creator. split.
  - intros (out & H) f Hf.
    destruct (feature_loop_values _ _ _ _ _ _ _ _ H f Hf) as (r & Hr & _).
    eauto.
  - intros H. now apply feature_loop_returns.
Qed.

(** X1. No date is made up: every date of a returned table lies in the range
    and is a date of some ticker's projected table. *)
Lemma returned_dates_in_range (features : list string)
  (out : dict (option (Table V))) (feature : string) (t : Table V) :
  data_creator to_timestamp start_date end_date tag d features = Return out ->
  dict_get feature out = Some (Some t) ->
  exists dates,
    column t tag = Return (map Timestamp dates) /\
    Forall (fun k =>
              start_date * ms_per_day <= k <= end_date * ms_per_day /\
              exists ticker c,
                observed to_timestamp start_date end_date tag d feature
                  ticker k c) dates.
Proof.
  intros H Hget.
  destruct (data_creator_lookup _ _ _ _ H Hget) as [_ Ht].
  destruct (feature_table_keys _ _ _ _ _ _ _ Ht) as (st & Hres & Hwf & Hk).
  destruct st as [[cols krows]|]; [|discriminate].
  simpl in Hres, Hwf, Hk. inv_ret Hres.
  exists (map fst krows). split; [now apply keyed_table_dates|].
  now apply Forall_map.
Qed.

(** X2. Every cell of a returned table is null or is, unchanged, the value its
    ticker's projected table holds on the date of the row. *)
Lemma returned_cells_observed (features : list string)
  (out : dict (option (Table V))) (feature : string) (t : Table V) :
  NoDup (keys d) ->
  data_creator to_timestamp start_date end_date tag d features = Return out ->
  dict_get feature out = Some (Some t) ->
  exists dates,
    column t tag = Return (map Timestamp dates) /\
    forall ticker tst,
      In (ticker, tst) d ->
      exists col,
        column t ticker = Return col /\
        Forall2 (fun k c =>
                   c = Null \/
                   observed to_timestamp start_date end_date tag d feature
                     ticker k c) dates col.
Proof.
  intros Hnd H Hget.
  destruct (data_creator_lookup _ _ _ _ H Hget) as [_ Ht].
  destruct (feature_table_columns _ _ _ _ _ _ _ Hnd Ht)
    as (st & Hres & Hwf & Hcols & Hcells).
  destruct st as [[cols krows]|]; [|discriminate].
  destruct Hcols as [Hperm Hwidth].
  simpl in Hres, Hwf, Hcells. inv_ret Hres.
  exists (map fst krows). split; [now apply keyed_table_dates|].
  intros ticker tst Hin.
  assert (Hcol : In ticker cols).
  { eapply Permutation_in; [symmetry; exact Hperm|].
    apply in_map_iff. now exists (ticker, tst). }
  assert (Hndc : NoDup (tag :: cols)).
  { constructor; [assumption|].
    eapply Permutation_NoDup; [symmetry; exact Hperm|assumption]. }
  destruct (In_nth_error _ _ Hcol) as (j & Hj).
  exists (map (cell (S j)) (map row_of krows)). split.
  - unfold column, keyed_table. simpl column_names. simpl rows.
    rewrite (field_index_nodup (tag :: cols) ticker (S j) Hndc Hj).
    reflexivity.
  - clear Ht Hget H. induction krows as [|kc rest IH]; simpl; constructor.
    + inversion Hcells as [|? ? Hc _]; subst.
      inversion Hwidth as [|? ? Hw _]; subst.
      unfold cell, row_of. simpl.
      assert (Hlt : (j < List.length (snd kc))%nat).
      { rewrite Hw. apply nth_error_Some. congruence. }
      destruct (nth_error (snd kc) j) as [c|] eqn:Ec;
        [|apply nth_error_None in Ec; lia].
      rewrite (nth_error_nth _ _ Null Ec).
      apply (Hc ticker c). eapply nth_error_combine; eauto.
    + inversion Hcells; inversion Hwidth; subst. now apply IH.
Qed.

End Results.

(** * The claims *)

Section Claims.

Context {V : Type}.
Variable to_timestamp : V -> option Z.
Variables start_date end_date : Z.
Variable column_date_tag : string.

Let normalized := normalized_table to_timestamp column_date_tag.
Let filtered := filtered_table to_timestamp start_date end_date column_date_tag.
Let data_of := ticker_data to_timestamp start_date end_date column_date_tag.
Let step := ticker_step to_timestamp start_date end_date column_date_tag.
Let table_of := feature_table to_timestamp start_date end_date column_date_tag.
Let creator := data_creator to_timestamp start_date end_date column_date_tag.

(** The loop body looks at a ticker's table through the filter only. *)
Lemma ticker_step_filtered (feature : string) (acc : option (Table V))
  (p p' : string * Table V) :
  fst p = fst p' -> filtered (snd p) = filtered (snd p') ->
  step feature acc p = step feature acc p'.
Proof.
  unfold step, ticker_step, ticker_data, filtered. intros Hk Hf.
  now rewrite Hk, Hf.
Qed.

Lemma feature_table_filtered (feature : string) (d d' : dict (Table V)) :
  Forall2 (fun p p' => fst p = fst p' /\ filtered (snd p) = filtered (snd p'))
    d d' ->
  table_of d feature = table_of d' feature.
Proof.
  unfold table_of, feature_table. generalize (@None (Table V)).
  intros acc H. revert acc.
  induction H as [|p p' l l' [Hk Hf] _ IH]; intros acc; cbn [foldM].
  - reflexivity.
  - fold (step feature acc p). fold (step feature acc p').
    rewrite (ticker_step_filtered feature acc p p' Hk Hf).
    destruct (step feature acc p') as [acc'|e]; cbn [bind]; [apply IH|reflexivity].
Qed.

Lemma data_creator_filtered (d d' : dict (Table V)) (features : list string) :
  Forall2 (fun p p' => fst p = fst p' /\ filtered (snd p) = filtered (snd p'))
    d d' ->
  creator d features = creator d' features.
Proof.
  intros H. unfold creator, data_creator. generalize (@nil (string * option (Table V))).
  induction features as [|f fs IH]; intros acc; cbn [feature_loop].
  - reflexivity.
  - fold (table_of d f). fold (table_of d' f).
    rewrite (feature_table_filtered f d d' H).
    destruct (table_of d' f) as [r|e]; cbn [bind]; [apply IH|reflexivity].
Qed.

(** C5. The date-range filter keeps a row of a ticker's table exactly when
    its date, normalized to a millisecond timestamp, lies between
    [start_date] and [end_date], both bounds included, each bound standing
    for its midnight.  So a row dated by a calendar date is kept exactly when
    [start_date <= days <= end_date]; a row dated by a timestamp is kept
    exactly when the timestamp lies between the midnight of [start_date] and
    the midnight of [end_date]; an undated row is dropped.  The rows kept are
    those of [rows_by_rule], in the order of the input, and the schema is
    unchanged.  The filter comes before the join: the table that the loop
    body joins and sorts is the projection of the filtered table, whatever
    the accumulator holds; every date of a table that [data_creator] returns
    lies in the range; and [data_creator] returns the same on two mappings
    whose tables filter alike. *)
Theorem range_filter_closed (tst ft : Table V) :
  filtered tst = Return ft ->
  exists table,
    normalized tst = Return table /\
    Forall2 (fun raw row =>
               exists ts, cast_scalar to_timestamp (cell 0 raw) = Return ts /\
                          row = replace_nth 0 ts raw /\ cell 0 row = ts)
      (rows tst) (rows table) /\
    column table column_date_tag = Return (map (cell 0) (rows table)) /\
    rows ft =
      List.filter (fun row => in_range start_date end_date (cell 0 row))
        (rows table) /\
    (forall row,
        In row (rows ft) <->
        In row (rows table) /\
        exists dt, cell 0 row = Timestamp dt /\
                   start_date * ms_per_day <= dt <= end_date * ms_per_day) /\
    column_names ft = column_names tst /\
    rows ft = rows_by_rule to_timestamp start_date end_date (rows tst) /\
    (forall raw days,
        In raw (rows tst) -> cell 0 raw = Date32 days ->
        (In (replace_nth 0 (Timestamp (days * ms_per_day)) raw) (rows ft) <->
         start_date <= days <= end_date)) /\
    (forall raw t,
        In raw (rows tst) -> cell 0 raw = Timestamp t ->
        (In raw (rows ft) <->
         start_date * ms_per_day <= t <= end_date * ms_per_day)) /\
    (forall raw,
        In raw (rows tst) -> cell 0 raw = Null -> ~ In raw (rows ft)) /\
    (forall feature ticker acc res,
        step feature acc (ticker, tst) = Return res ->
        exists j joined t,
          field_index (column_names ft) feature = Return j /\
          data_of feature ticker tst =
            Return (mkTable [column_date_tag; ticker]
                      (map (fun row => [cell 0 row; cell j row]) (rows ft))) /\
          accumulate column_date_tag acc
            (mkTable [column_date_tag; ticker]
               (map (fun row => [cell 0 row; cell j row]) (rows ft))) =
            Return joined /\
          sort_by joined column_date_tag = Return t /\
          res = Some t) /\
    (forall d features out feature t,
        creator d features = Return out ->
        dict_get feature out = Some (Some t) ->
        exists dates,
          column t column_date_tag = Return (map Timestamp dates) /\
          Forall (fun k =>
                    start_date * ms_per_day <= k <= end_date * ms_per_day)
            dates) /\
    (forall d d' features,
        Forall2 (fun p p' =>
                   fst p = fst p' /\ filtered (snd p) = filtered (snd p')) d d' ->
        creator d features = creator d' features).
Proof.
  intros H.
  destruct (filtered_table_spec _ _ _ _ _ _ H)
    as (table & rest & Hnorm & Hn1 & Hn2 & Hn3 & Hrest & Hrows & Hfilter).
  assert (Hiff : forall row,
             In row (rows ft) <->
             In row (rows table) /\
             exists dt, cell 0 row = Timestamp dt /\
                        start_date * ms_per_day <= dt <= end_date * ms_per_day).
  { intros row. rewrite Hfilter, filter_In, in_range_spec. tauto. }
  assert (Hrule : rows ft = rows_by_rule to_timestamp start_date end_date (rows tst)).
  { rewrite Hfilter. now apply filter_rows_by_rule. }
  exists table.
  split; [exact Hnorm|]. split; [exact Hrows|].
  split.
  { unfold column. rewrite Hn2, (field_index_head_ok _ _ Hrest). reflexivity. }
  split; [exact Hfilter|]. split; [exact Hiff|].
  split; [now rewrite Hn3, Hn1|]. split; [exact Hrule|].
  split; [|split; [|split; [|split; [|split]]]].
  - intros raw days Hin Hcell.
    destruct raw as [|c cs]; [discriminate|].
    unfold cell in Hcell. cbn [nth] in Hcell. subst c. cbn [replace_nth].
    split.
    + intros Hft. apply Hiff in Hft. destruct Hft as (_ & dt & Hdt & Hr).
      unfold cell in Hdt. cbn [nth] in Hdt. inv_ret Hdt.
      unfold ms_per_day in Hr. lia.
    + intros Hr. rewrite Hrule. unfold rows_by_rule. apply in_map_iff.
      exists (Date32 days :: cs). split; [reflexivity|].
      apply filter_In. split; [exact Hin|].
      unfold kept_by_rule, cell. cbn [nth canonical_date].
      apply andb_true_iff. unfold ms_per_day. split; apply Z.leb_le; lia.
  - intros raw t Hin Hcell.
    destruct raw as [|c cs]; [discriminate|].
    unfold cell in Hcell. cbn [nth] in Hcell. subst c.
    split.
    + intros Hft. apply Hiff in Hft. destruct Hft as (_ & dt & Hdt & Hr).
      unfold cell in Hdt. cbn [nth] in Hdt. now inv_ret Hdt.
    + intros Hr. rewrite Hrule. unfold rows_by_rule. apply in_map_iff.
      exists (Timestamp t :: cs). split; [reflexivity|].
      apply filter_In. split; [exact Hin|].
      unfold kept_by_rule, cell. cbn [nth canonical_date].
      apply andb_true_iff. split; apply Z.leb_le; lia.
  - intros raw Hin Hcell Hft. apply Hiff in Hft.
    destruct Hft as (_ & dt & Hdt & _). congruence.
  - intros feature ticker acc res Hstep.
    unfold step, ticker_step in Hstep. cbn [fst snd] in Hstep.
    inv_bind Hstep as data Hdata. inv_bind Hstep as joined Hjoin.
    inv_bind Hstep as t Hsort. inv_ret Hstep.
    assert (Hproj : exists j,
               field_index (column_names ft) feature = Return j /\
               data = mkTable [column_date_tag; ticker]
                        (map (fun row => [cell 0 row; cell j row]) (rows ft))).
    { unfold ticker_data in Hdata. unfold filtered in H. rewrite H in Hdata.
      cbn [bind] in Hdata. inv_bind Hdata as sel Hsel.
      unfold select in Hsel. inv_bind Hsel as idxs Hidxs. inv_ret Hsel.
      cbn [mapM] in Hidxs. inv_bind Hidxs as i Hi. inv_bind Hidxs as js Hjs.
      inv_bind Hjs as j Hj. inv_ret Hjs. inv_ret Hidxs.
      unfold rename_columns in Hdata. cbn in Hdata. inv_ret Hdata.
      rewrite Hn3 in Hi. apply field_index_head in Hi. destruct Hi as [-> _].
      exists j. split; [exact Hj|reflexivity]. }
    destruct Hproj as (j & Hj & ->).
    exists j, joined, t. repeat split; auto.
  - intros d features out feature t Hout Hget.
    destruct (data_creator_lookup _ _ _ _ _ _ _ _ _ Hout Hget) as [_ Ht].
    destruct (feature_table_keys _ _ _ _ _ _ _ Ht) as (st & Hres & Hwf & Hk).
    destruct st as [[cols krows]|]; [|discriminate].
    simpl in Hres, Hwf, Hk. inv_ret Hres.
    exists (map fst krows). split; [now apply keyed_table_dates|].
    apply Forall_map. eapply Forall_impl; [|exact Hk].
    intros kc [Hr _]. exact Hr.
  - intros d d' features. apply data_creator_filtered.
Qed.

(** C10. The keys of the mapping returned by [data_creator] are the distinct
    requested feature names in first-occurrence order: a name requested more
    than once has a single entry, which holds the table computed for that
    name, and no other key appears. *)
Theorem data_creator_keys (d : dict (Table V)) (features : list string)
  (out : dict (option (Table V))) :
  creator d features = Return out ->
  keys out = distinct_names features /\
  NoDup (keys out) /\
  (forall f, In f (keys out) <-> In f features) /\
  (forall f, In f features ->
             exists r, table_of d f = Return r /\ dict_get f out = Some r).
Proof.
  unfold creator, data_creator. intros H.
  pose proof (feature_loop_keys _ _ _ _ _ _ _ _ H) as Hk. simpl in Hk.
  fold (distinct_names features) in Hk. rewrite Hk.
  split; [reflexivity|]. split; [apply first_occurrences_NoDup|]. split.
  - intros f. unfold distinct_names. rewrite first_occurrences_In. simpl. tauto.
  - intros f Hf. eapply feature_loop_values; eauto.
Qed.

(** C9. With an empty ticker mapping [data_creator] raises nothing and
    returns a mapping that sends every distinct requested feature to
    [None]: neither an empty table nor an error. *)
Theorem empty_mapping_yields_none (features : list string) :
  creator [] features =
  Return (map (fun f => (f, None)) (distinct_names features)).
Proof.
  unfold creator, data_creator.
  apply (feature_loop_empty to_timestamp start_date end_date column_date_tag
           features []).
Qed.

(** C8 (amended). When the assembly of a requested feature fails,
    [data_creator] as a whole raises the exception of the first failing
    feature of the tuple and returns no mapping, so the tables of the other
    features are not produced. *)
Theorem feature_failure_aborts (d : dict (Table V)) (features : list string)
  (f : string) (e : exn) :
  In f features -> table_of d f = Raise e ->
  exists pre g post e',
    features = (pre ++ g :: post)%list /\
    (forall h, In h pre -> exists r, table_of d h = Return r) /\
    table_of d g = Raise e' /\
    creator d features = Raise e'.
Proof.
  intros Hin Hf. unfold creator, data_creator.
  eapply feature_loop_raises; eauto.
Qed.

(** C4 (amended). The date column of every table returned by
    [data_creator] holds timestamps in ascending order; the order is strict,
    with no date repeated, when no ticker's projected table repeats a date. *)
Theorem table_dates_ascending (d : dict (Table V)) (features : list string)
  (out : dict (option (Table V))) (feature : string) (t : Table V) :
  creator d features = Return out ->
  dict_get feature out = Some (Some t) ->
  exists dates,
    column t column_date_tag = Return (map Timestamp dates) /\
    StronglySorted Z.le dates /\
    ((forall ticker tst data col,
         In (ticker, tst) d -> data_of feature ticker tst = Return data ->
         column data column_date_tag = Return col -> NoDup col) ->
     StronglySorted Z.lt dates).
Proof.
  intros H Hget.
  destruct (data_creator_lookup _ _ _ _ _ _ _ _ _ H Hget) as [_ Ht].
  destruct (feature_table_sorted _ _ _ _ _ _ _ Ht)
    as ([[cols krows]|] & Hres & Hwf & Hs & Hd); [|discriminate].
  simpl in Hres, Hwf, Hs, Hd. inv_ret Hres.
  exists (map fst krows). split; [now apply keyed_table_dates|].
  split; [assumption|].
  intros Hall. apply sorted_nodup_strict; auto.
Qed.

(** C7 (amended). The columns of every table returned by [data_creator] are
    the date column first, followed by exactly one column per key of the
    input mapping, in an order fixed by the joins and not necessarily the
    order of the mapping.  Every ticker has its column, and the column of a
    ticker without in-range rows holds only nulls. *)
Theorem table_columns (d : dict (Table V)) (features : list string)
  (out : dict (option (Table V))) (feature : string) (t : Table V) :
  NoDup (keys d) ->
  creator d features = Return out ->
  dict_get feature out = Some (Some t) ->
  exists cols,
    column_names t = column_date_tag :: cols /\
    Permutation cols (keys d) /\
    (forall ticker tst,
        In (ticker, tst) d ->
        exists col,
          column t ticker = Return col /\
          List.length col = len t /\
          (forall data,
              data_of feature ticker tst = Return data -> rows data = [] ->
              Forall (fun c => c = Null) col)).
Proof.
  intros Hnd H Hget.
  destruct (data_creator_lookup _ _ _ _ _ _ _ _ _ H Hget) as [_ Ht].
  destruct (feature_table_columns _ _ _ _ _ _ _ Hnd Ht)
    as (st & Hres & Hwf & Hcols & Hcells).
  destruct st as [[cols krows]|]; [|discriminate].
  destruct Hcols as [Hperm Hwidth].
  simpl in Hres, Hwf, Hcells. inv_ret Hres.
  exists cols. split; [reflexivity|]. split; [assumption|].
  intros ticker tst Hin.
  assert (Hcol : In ticker cols).
  { eapply Permutation_in; [symmetry; exact Hperm|].
    apply in_map_iff. now exists (ticker, tst). }
  assert (Hndc : NoDup (column_date_tag :: cols)).
  { constructor; [assumption|].
    eapply Permutation_NoDup; [symmetry; exact Hperm|assumption]. }
  destruct (In_nth_error _ _ Hcol) as (j & Hj).
  exists (map (cell (S j)) (map row_of krows)). split; [|split].
  - unfold column, keyed_table. simpl column_names. simpl rows.
    rewrite (field_index_nodup (column_date_tag :: cols) ticker (S j) Hndc Hj).
    reflexivity.
  - unfold len, keyed_table. simpl. now rewrite !length_map.
  - intros data Hdata Hempty. rewrite map_map. apply Forall_map.
    rewrite Forall_forall in Hcells, Hwidth |- *. intros kc Hkc.
    unfold cell, row_of. simpl.
    assert (Hlt : (j < List.length (snd kc))%nat).
    { rewrite (Hwidth kc Hkc). apply nth_error_Some. congruence. }
    destruct (nth_error (snd kc) j) as [c|] eqn:Ec;
      [|apply nth_error_None in Ec; lia].
    rewrite (nth_error_nth _ _ Null Ec).
    destruct (Hcells kc Hkc ticker c (nth_error_combine _ _ _ _ _ Hj Ec))
      as [Hnull|(tst' & data' & Hin' & Hdata' & Hrow)]; [assumption|].
    assert (tst' = tst) by (eapply dict_In_unique; eauto). subst tst'.
    unfold data_of in Hdata. rewrite Hdata in Hdata'. inv_ret Hdata'.
    rewrite Hempty in Hrow. contradiction.
Qed.

End Claims.

(** * The scenarios *)

Module ScenarioFacts.

Import Scenario.

(** C1. Scenario A: AAA has an in-range row dated 2020-01-02, yet the table
    returned for the feature holds the dates 2020-01-03 and 2020-01-06 only,
    because the join that is run is the default left outer join and keeps
    the rows of its left side alone. *)
Theorem scenario_A_loses_a_date :
  observed uncastable d2020_01_01 d2020_01_10 "m_date" two_tickers "price" "AAA"
    (d2020_01_02 * ms_per_day) (Val 10) /\
  run two_tickers ["price"] =
  Return [("price",
           Some (mkTable ["m_date"; "BBB"; "AAA"]
                   [[ts d2020_01_03; Val 20; Val 11];
                    [ts d2020_01_06; Val 21; Null]]))].
Proof.
  split; [|reflexivity].
  exists AAA, (mkTable ["m_date"; "AAA"]
                 [[ts d2020_01_02; Val 10]; [ts d2020_01_03; Val 11]]).
  repeat split.
  - simpl. now left.
  - simpl. now left.
Qed.

(** C2. The same two tickers in the two possible orders give tables with
    different dates: 01-03 and 01-06 in one order, 01-02 and 01-03 in the
    other. *)
Theorem ticker_order_changes_rows :
  Permutation two_tickers two_tickers_swapped /\
  run two_tickers ["price"] =
  Return [("price",
           Some (mkTable ["m_date"; "BBB"; "AAA"]
                   [[ts d2020_01_03; Val 20; Val 11];
                    [ts d2020_01_06; Val 21; Null]]))] /\
  run two_tickers_swapped ["price"] =
  Return [("price",
           Some (mkTable ["m_date"; "AAA"; "BBB"]
                   [[ts d2020_01_02; Val 10; Null];
                    [ts d2020_01_03; Val 11; Val 20]]))].
Proof.
  split; [apply perm_swap|]. split; reflexivity.
Qed.

(** C3. For the projected tables of AAA and BBB the two join branches give
    different rows, and neither gives the rows of the full outer join. *)
Theorem join_sides_disagree :
  exists acc new,
    projected "AAA" AAA = Return acc /\
    projected "BBB" BBB = Return new /\
    join acc new "m_date" "_r" default_join_type =
    Return (mkTable ["m_date"; "AAA"; "BBB"]
              [[ts d2020_01_02; Val 10; Null];
               [ts d2020_01_03; Val 11; Val 20]]) /\
    join new acc "m_date" "_r" default_join_type =
    Return (mkTable ["m_date"; "BBB"; "AAA"]
              [[ts d2020_01_03; Val 20; Val 11];
               [ts d2020_01_06; Val 21; Null]]) /\
    accumulate "m_date" (Some acc) new =
    join new acc "m_date" "_r" default_join_type /\
    join acc new "m_date" "_r" FullOuter =
    Return (mkTable ["m_date"; "AAA"; "BBB"]
              [[ts d2020_01_02; Val 10; Null];
               [ts d2020_01_03; Val 11; Val 20];
               [ts d2020_01_06; Null; Val 21]]).
Proof.
  do 2 eexists. repeat split; reflexivity.
Qed.

(** C6. With three tickers, AAA has the value 10 on 2020-01-02 and the
    returned table has a row for that date, but its AAA cell is null: the
    date was dropped by the first join and came back from CCC. *)
Theorem observed_value_nulled :
  observed uncastable d2020_01_01 d2020_01_10 "m_date" three_tickers "price" "AAA"
    (d2020_01_02 * ms_per_day) (Val 10) /\
  exists t,
    run three_tickers ["price"] = Return [("price", Some t)] /\
    column t "m_date" =
    Return [ts d2020_01_02; ts d2020_01_03; ts d2020_01_06] /\
    column t "AAA" = Return [Null; Val 11; Null].
Proof.
  split.
  - exists AAA, (mkTable ["m_date"; "AAA"]
                   [[ts d2020_01_02; Val 10]; [ts d2020_01_03; Val 11]]).
    repeat split; simpl; now left.
  - eexists. repeat split; reflexivity.
Qed.

(** C4, as stated, fails: the mapping with the single ticker DUP, whose
    input holds 2020-01-02 twice, gives a table that holds it twice. *)
Lemma duplicate_dates_kept :
  exists t,
    run duplicated ["price"] = Return [("price", Some t)] /\
    column t "m_date" = Return [ts d2020_01_02; ts d2020_01_02] /\
    ~ StronglySorted Z.lt [d2020_01_02 * ms_per_day; d2020_01_02 * ms_per_day].
Proof.
  eexists. repeat split; try reflexivity.
  intros H. inversion H as [|? ? _ Hf]; subst.
  inversion Hf as [|? ? Hlt _]; subst. revert Hlt. apply Z.lt_irrefl.
Qed.

(** C7, as stated, fails: in Scenario A the columns come out as BBB then
    AAA, not in the order of the mapping's keys. *)
Lemma column_order_differs :
  exists t,
    run two_tickers ["price"] = Return [("price", Some t)] /\
    column_names t = ["m_date"; "BBB"; "AAA"] /\
    column_names t <> "m_date" :: keys two_tickers.
Proof.
  eexists. repeat split; try reflexivity. discriminate.
Qed.

(** C8, as stated, fails: the feature "price" assembles on its own, yet
    requesting it together with a missing feature yields no result at
    all. *)
Lemma missing_feature_aborts_all :
  (exists t, assemble one_ticker "price" = Return (Some t)) /\
  assemble one_ticker "volume" = Raise (KeyError "volume") /\
  run one_ticker ["price"; "volume"] = Raise (KeyError "volume").
Proof.
  split; [eexists; reflexivity|]. split; reflexivity.
Qed.

(** The theorem of C5 at a table with a row on each side of each bound:
    the rows dated 2020-01-01 and 2020-01-10 are kept, those dated 2019-12-31
    and 2020-01-11 and the undated one are dropped.  With timestamps, the
    midnight that opens 2020-01-10 is kept and the next millisecond is not. *)
Lemma range_filter_closed_witness :
  filter_in_range INTRADAY =
    Return (mkTable ["m_date"; "price"] [[ts d2020_01_10; Val 6]]) /\
  filter_in_range EDGES = Return EDGES_kept /\
  exists table,
    normalized_table uncastable "m_date" EDGES = Return table /\
    Forall2 (fun raw row =>
               exists ts, cast_scalar uncastable (cell 0 raw) = Return ts /\
                          row = replace_nth 0 ts raw /\ cell 0 row = ts)
      (rows EDGES) (rows table) /\
    column table "m_date" = Return (map (cell 0) (rows table)) /\
    rows EDGES_kept =
      List.filter (fun row => in_range d2020_01_01 d2020_01_10 (cell 0 row))
        (rows table) /\
    (forall row,
        In row (rows EDGES_kept) <->
        In row (rows table) /\
        exists dt, cell 0 row = Timestamp dt /\
                   d2020_01_01 * ms_per_day <= dt <= d2020_01_10 * ms_per_day) /\
    column_names EDGES_kept = column_names EDGES /\
    rows EDGES_kept = rows_by_rule uncastable d2020_01_01 d2020_01_10 (rows EDGES) /\
    (forall raw days,
        In raw (rows EDGES) -> cell 0 raw = Date32 days ->
        (In (replace_nth 0 (Timestamp (days * ms_per_day)) raw) (rows EDGES_kept) <->
         d2020_01_01 <= days <= d2020_01_10)) /\
    (forall raw t,
        In raw (rows EDGES) -> cell 0 raw = Timestamp t ->
        (In raw (rows EDGES_kept) <->
         d2020_01_01 * ms_per_day <= t <= d2020_01_10 * ms_per_day)) /\
    (forall raw,
        In raw (rows EDGES) -> cell 0 raw = Null -> ~ In raw (rows EDGES_kept)) /\
    (forall feature ticker acc res,
        ticker_step uncastable d2020_01_01 d2020_01_10 "m_date" feature acc
          (ticker, EDGES) = Return res ->
        exists j joined t,
          field_index (column_names EDGES_kept) feature = Return j /\
          ticker_data uncastable d2020_01_01 d2020_01_10 "m_date" feature ticker
            EDGES =
            Return (mkTable ["m_date"; ticker]
                      (map (fun row => [cell 0 row; cell j row]) (rows EDGES_kept))) /\
          accumulate "m_date" acc
            (mkTable ["m_date"; ticker]
               (map (fun row => [cell 0 row; cell j row]) (rows EDGES_kept))) =
            Return joined /\
          sort_by joined "m_date" = Return t /\
          res = Some t) /\
    (forall d features out feature t,
        data_creator uncastable d2020_01_01 d2020_01_10 "m_date" d features =
          Return out ->
        dict_get feature out = Some (Some t) ->
        exists dates,
          column t "m_date" = Return (map Timestamp dates) /\
          Forall (fun k =>
                    d2020_01_01 * ms_per_day <= k <= d2020_01_10 * ms_per_day)
            dates) /\
    (forall d d' features,
        Forall2 (fun p p' =>
                   fst p = fst p' /\ filter_in_range (snd p) = filter_in_range (snd p')) d d' ->
        data_creator uncastable d2020_01_01 d2020_01_10 "m_date" d features =
        data_creator uncastable d2020_01_01 d2020_01_10 "m_date" d' features).
Proof.
  split; [reflexivity|]. split; [reflexivity|].
  apply (range_filter_closed uncastable d2020_01_01 d2020_01_10 "m_date" EDGES).
  reflexivity.
Defined.

(** The theorem of C10 at a tuple that requests "price" twice. *)
Lemma data_creator_keys_witness :
  exists out,
    run one_ticker ["price"; "m_date"; "price"] = Return out /\
    keys out = distinct_names ["price"; "m_date"; "price"] /\
    NoDup (keys out) /\
    (forall f, In f (keys out) <-> In f ["price"; "m_date"; "price"]) /\
    (forall f, In f ["price"; "m_date"; "price"] ->
               exists r, assemble one_ticker f = Return r /\
                         dict_get f out = Some r).
Proof.
  eexists. split; [reflexivity|].
  apply (data_creator_keys uncastable d2020_01_01 d2020_01_10 "m_date" one_ticker).
  reflexivity.
Defined.

(** The amended C8 at Scenario B. *)
Lemma feature_failure_aborts_witness :
  In "volume" ["price"; "volume"] /\
  assemble one_ticker "volume" = Raise (KeyError "volume") /\
  exists pre g post e',
    ["price"; "volume"] = (pre ++ g :: post)%list /\
    (forall h, In h pre -> exists r, assemble one_ticker h = Return r) /\
    assemble one_ticker g = Raise e' /\
    run one_ticker ["price"; "volume"] = Raise e'.
Proof.
  split; [simpl; tauto|]. split; [reflexivity|].
  apply (feature_failure_aborts uncastable d2020_01_01 d2020_01_10 "m_date"
           one_ticker ["price"; "volume"] "volume" (KeyError "volume")).
  - simpl. tauto.
  - reflexivity.
Defined.

(** The amended C4 at Scenario A, where no ticker repeats a date. *)
Lemma table_dates_ascending_witness :
  (forall ticker tst data col,
      In (ticker, tst) two_tickers ->
      projected ticker tst = Return data ->
      column data "m_date" = Return col -> NoDup col) /\
  exists out t,
    run two_tickers ["price"] = Return out /\
    dict_get "price" out = Some (Some t) /\
    exists dates,
      column t "m_date" = Return (map Timestamp dates) /\
      StronglySorted Z.le dates /\
      StronglySorted Z.lt dates.
Proof.
  assert (Hdistinct : forall ticker tst data col,
             In (ticker, tst) two_tickers ->
             projected ticker tst = Return data ->
             column data "m_date" = Return col -> NoDup col).
  { intros ticker tst data col [Hin|[Hin|[]]] Hdata Hcol;
      injection Hin as <- <-; vm_compute in Hdata;
      injection Hdata as <-; vm_compute in Hcol; injection Hcol as <-;
      repeat constructor; simpl; intuition discriminate. }
  split; [exact Hdistinct|].
  do 2 eexists. split; [reflexivity|]. split; [reflexivity|].
  destruct (table_dates_ascending uncastable d2020_01_01 d2020_01_10 "m_date"
              two_tickers ["price"] _ "price" _ eq_refl eq_refl)
    as (dates & Hcol & Hle & Hlt).
  exists dates. split; [exact Hcol|]. split; [exact Hle|].
  apply Hlt. exact Hdistinct.
Defined.

(** The amended C7 at Scenario A. *)
Lemma table_columns_witness :
  NoDup (keys two_tickers) /\
  exists out t,
    run two_tickers ["price"] = Return out /\
    dict_get "price" out = Some (Some t) /\
    exists cols,
      column_names t = "m_date" :: cols /\
      Permutation cols (keys two_tickers) /\
      (forall ticker tst,
          In (ticker, tst) two_tickers ->
          exists col,
            column t ticker = Return col /\
            List.length col = len t /\
            (forall data,
                projected ticker tst = Return data -> rows data = [] ->
                Forall (fun c => c = Null) col)).
Proof.
  assert (Hnd : NoDup (keys two_tickers)).
  { repeat constructor; simpl; intuition discriminate. }
  split; [exact Hnd|].
  do 2 eexists. split; [reflexivity|]. split; [reflexivity|].
  eapply (table_columns uncastable d2020_01_01 d2020_01_10 "m_date"
            two_tickers ["price"]); [exact Hnd|reflexivity|reflexivity].
Defined.

End ScenarioFacts.

(** * Further properties of the program *)

(** ** When the date-range filter accepts a table *)

Section FilterAcceptance.

Context {V : Type}.
Variable to_timestamp : V -> option Z.
Variables start_date end_date : Z.
Variable column_date_tag : string.

Let normalized := normalized_table to_timestamp column_date_tag.
Let filtered := filtered_table to_timestamp start_date end_date column_date_tag.

Lemma cast_length (col casted : list (Scalar V)) :
  cast to_timestamp col = Return casted ->
  List.length casted = List.length col.
Proof.
  unfold cast. intros H. apply mapM_Forall2 in H.
  symmetry. eapply Forall2_length; eauto.
Qed.

Lemma cast_timestamp_or_null (col casted : list (Scalar V)) :
  cast to_timestamp col = Return casted ->
  Forall (fun ts => ts = Null \/ exists t, ts = Timestamp t) casted.
Proof.
  unfold cast. intros H. apply mapM_Forall2 in H.
  eapply Forall2_Forall_r; [|exact H].
  intros s ts Hs. exact (cast_scalar_timestamp to_timestamp s ts Hs).
Qed.

(** The comparison kernels never raise on a column of timestamps and
    nulls. *)
Lemma compare_column_returns (op : Z -> Z -> bool) (col : list (Scalar V))
  (day : Z) :
  Forall (fun ts => ts = Null \/ exists t, ts = Timestamp t) col ->
  exists mask,
    mapM (fun x => compare op x (scalar day)) col = Return mask.
Proof.
  induction 1 as [|c cs Hc _ (mask & IH)]; simpl.
  - eauto.
  - destruct Hc as [->|(t & ->)]; simpl; rewrite IH; simpl; eauto.
Qed.

Lemma combine_replaced_head (raws : list (list (Scalar V)))
  (casted : list (Scalar V)) :
  cast to_timestamp (map (cell 0) raws) = Return casted ->
  map (cell 0)
    (map (fun rc => replace_nth 0 (snd rc) (fst rc)) (combine raws casted)) =
  casted.
Proof.
  unfold cast. revert casted. induction raws as [|r rs IH]; simpl; intros casted H.
  - now inv_ret H.
  - inv_bind H as ts Hts. inv_bind H as rest Hrest. inv_ret H. simpl.
    f_equal; [|now apply IH].
    now apply (cell_replace_head to_timestamp Null).
Qed.

Lemma normalized_returns (tst : Table V) (rest : list string)
  (casted : list (Scalar V)) :
  column_names tst = column_date_tag :: rest ->
  ~ In column_date_tag rest ->
  cast to_timestamp (map (cell 0) (rows tst)) = Return casted ->
  normalized tst =
  Return (mkTable (column_date_tag :: rest)
            (map (fun rc => replace_nth 0 (snd rc) (fst rc))
               (combine (rows tst) casted))).
Proof.
  intros Hnames Hrest Hcast.
  pose proof (cast_length _ _ Hcast) as Hlen. rewrite length_map in Hlen.
  unfold normalized, normalized_table, column, set_column, len.
  rewrite Hnames, (field_index_head_ok _ _ Hrest). cbn [bind].
  rewrite Hcast. cbn [bind List.length Nat.ltb Nat.leb negb].
  rewrite Hlen, Nat.eqb_refl. reflexivity.
Qed.

Lemma range_mask_returns (table : Table V) (rest : list string) :
  column_names table = column_date_tag :: rest ->
  ~ In column_date_tag rest ->
  Forall (fun ts => ts = Null \/ exists t, ts = Timestamp t)
    (map (cell 0) (rows table)) ->
  exists mask,
    range_mask start_date end_date column_date_tag table = Return mask /\
    map selected mask =
    map (in_range start_date end_date) (map (cell 0) (rows table)).
Proof.
  intros Hnames Hrest Hts.
  destruct (compare_column_returns Z.geb _ start_date Hts) as (ge & Hge).
  destruct (compare_column_returns Z.leb _ end_date Hts) as (le & Hle).
  exists (and_ ge le). split.
  - unfold range_mask, column, greater_equal, less_equal.
    rewrite Hnames, (field_index_head_ok _ _ Hrest). cbn [bind].
    rewrite Hge. cbn [bind]. rewrite Hle. reflexivity.
  - now apply mask_selects.
Qed.

(** X3. The tables the filter accepts: the date tag names the first column and
    no other one, and every cell of that column casts to a timestamp. *)
Theorem filter_accepts_iff (tst : Table V) :
  (exists ft, filtered tst = Return ft) <->
  (exists rest casted,
      column_names tst = column_date_tag :: rest /\
      ~ In column_date_tag rest /\
      cast to_timestamp (map (cell 0) (rows tst)) = Return casted).
Proof.
  split.
  - intros (ft & H).
    destruct (filtered_table_spec _ _ _ _ _ _ H)
      as (table & rest & Hnorm & Hn1 & _ & _ & Hrest & _ & _).
    unfold normalized_table, column in Hnorm.
    inv_bind Hnorm as dates Hdates. inv_bind Hdates as i Hi. inv_ret Hdates.
    inv_bind Hnorm as casted Hcast.
    rewrite Hn1 in Hi. apply field_index_head in Hi. destruct Hi as [-> _].
    eauto.
  - intros (rest & casted & Hnames & Hrest & Hcast).
    unfold filtered, filtered_table.
    fold normalized. rewrite (normalized_returns _ _ _ Hnames Hrest Hcast).
    cbn [bind].
    destruct (range_mask_returns
                (mkTable (column_date_tag :: rest)
                   (map (fun rc => replace_nth 0 (snd rc) (fst rc))
                      (combine (rows tst) casted))) rest eq_refl Hrest)
      as (mask & Hmask & _).
    { cbn [rows]. rewrite (combine_replaced_head _ _ Hcast).
      eapply cast_timestamp_or_null; eauto. }
    rewrite Hmask. cbn [bind]. eauto.
Qed.

(** X4. Filtering a filtered table again changes nothing. *)
Theorem filter_idempotent (tst ft : Table V) :
  filtered tst = Return ft -> filtered ft = Return ft.
Proof.
  intros H.
  destruct (filtered_table_spec _ _ _ _ _ _ H)
    as (table & rest & _ & _ & _ & Hnames & Hrest & _ & Hrows).
  assert (Hin : Forall (fun r => in_range start_date end_date (cell 0 r) = true)
                  (rows ft)).
  { rewrite Hrows. apply Forall_forall. intros r Hr.
    apply filter_In in Hr. tauto. }
  clear H Hrows. destruct ft as [names rs]. cbn [column_names rows] in *.
  subst names.
  assert (Hcast : cast to_timestamp (map (cell 0) rs) = Return (map (cell 0) rs)).
  { unfold cast. clear - Hin. induction Hin as [|r rs' Hr _ IH]; simpl.
    - reflexivity.
    - apply in_range_spec in Hr. destruct Hr as (t & Ht & _).
      unfold cell in Ht, IH |- *. rewrite Ht. simpl. rewrite IH. reflexivity. }
  assert (Hsame : map (fun rc : list (Scalar V) * Scalar V =>
                         replace_nth 0 (snd rc) (fst rc))
                    (combine rs (map (cell 0) rs)) = rs).
  { clear - Hin. induction Hin as [|r rs' Hr _ IH]; simpl.
    - reflexivity.
    - f_equal; [|exact IH].
      apply in_range_spec in Hr. destruct Hr as (t & Ht & _).
      destruct r as [|c cs]; [discriminate|]. reflexivity. }
  assert (Hts : Forall (fun ts : Scalar V => ts = Null \/ exists t, ts = Timestamp t)
                  (map (cell 0) rs)).
  { apply Forall_map. eapply Forall_impl; [|exact Hin].
    intros r Hr. apply in_range_spec in Hr. destruct Hr as (t & Ht & _). eauto. }
  unfold filtered, filtered_table. fold normalized.
  rewrite (normalized_returns (mkTable (column_date_tag :: rest) rs) rest
             (map (cell 0) rs) eq_refl Hrest Hcast).
  cbn [bind rows]. rewrite Hsame.
  destruct (range_mask_returns (mkTable (column_date_tag :: rest) rs) rest
              eq_refl Hrest Hts) as (mask & Hmask & Hsel).
  rewrite Hmask. cbn [bind]. unfold filter. cbn [column_names rows].
  do 2 f_equal. cbn [rows] in Hsel. rewrite map_map in Hsel.
  rewrite (filter_by_mask (fun r => in_range start_date end_date (cell 0 r))
             rs mask Hsel).
  clear - Hin. induction Hin as [|r rs' Hr _ IH]; simpl.
  - reflexivity.
  - rewrite Hr. now f_equal.
Qed.

End FilterAcceptance.

(** ** What [data_creator] requires, raises and returns *)

Section MoreOfDataCreator.

Context {V : Type}.
Variable to_timestamp : V -> option Z.
Variables start_date end_date : Z.
Variable tag : string.

Let filtered := filtered_table to_timestamp start_date end_date tag.
Let data_of := ticker_data to_timestamp start_date end_date tag.
Let table_of := feature_table to_timestamp start_date end_date tag.
Let creator := data_creator to_timestamp start_date end_date tag.

Implicit Types (d : dict (Table V)) (tst : Table V).
Implicit Types (kdata krows : list (Z * list (Scalar V))).

Lemma field_index_missing (names : list string) (name : string) :
  ~ In name names -> field_index names name = Raise (KeyError name).
Proof.
  intros H. unfold field_index.
  apply (get_all_field_indices_nil name names 0) in H. now rewrite H.
Qed.

Lemma keyed_table_len (cols : list string) krows :
  len (keyed_table tag cols krows) = List.length krows.
Proof. unfold len, keyed_table. simpl. apply length_map. Qed.

(** A feature assembles only if every ticker's projection does. *)
Lemma feature_table_tickers (feature : string) d (res : option (Table V)) :
  table_of d feature = Return res ->
  forall ticker tst,
    In (ticker, tst) d ->
    ticker <> tag /\
    exists kdata,
      data_of feature ticker tst = Return (keyed_table tag [ticker] kdata).
Proof.
  intros H.
  destruct (feature_table_ind to_timestamp start_date end_date tag feature
              (fun pre _ =>
                 forall ticker tst,
                   In (ticker, tst) pre ->
                   ticker <> tag /\
                   exists kdata,
                     data_of feature ticker tst =
                     Return (keyed_table tag [ticker] kdata)))
    with (d := d) (res := res) as (st & _ & _ & HP); auto.
  - intros ticker tst [].
  - intros pre st ticker tst kdata HP _ Hdata _ Hne _ ticker' tst' Hin.
    apply in_app_or in Hin. destruct Hin as [Hin|[Hin|[]]].
    + now apply HP.
    + inv_ret Hin. eauto.
Qed.

(** X5. What a successful call tells about its input.  Every ticker's table
    has the date tag as the name of its first column and of no other, holds
    each requested feature as the name of exactly one column, and no ticker
    is named like the date column. *)
Theorem accepted_tables d (features : list string)
  (out : dict (option (Table V))) (feature ticker : string) tst :
  creator d features = Return out ->
  In feature features ->
  In (ticker, tst) d ->
  ticker <> tag /\
  exists rest j,
    column_names tst = tag :: rest /\
    ~ In tag rest /\
    field_index (column_names tst) feature = Return j.
Proof.
  intros H Hf Hin.
  destruct (feature_loop_values _ _ _ _ _ _ _ _ H feature Hf) as (r & Hr & _).
  destruct (feature_table_tickers _ _ _ Hr ticker tst Hin) as (Hne & kdata & Hd).
  split; [exact Hne|].
  destruct (ticker_data_keyed _ _ _ _ _ _ _ _ Hd)
    as (ft & j & _ & Hft & Hj & _).
  destruct (filtered_table_spec _ _ _ _ _ _ Hft)
    as (table & rest & _ & Hn1 & _ & Hn3 & Hrest & _).
  exists rest, j. rewrite Hn1. rewrite Hn3 in Hj. auto.
Qed.

(** X6. A first table without the date column makes the call raise
    [KeyError] for the date tag, before anything else is looked at. *)
Theorem missing_date_column_raises (ticker feature : string) tst
  (others : dict (Table V)) (features : list string) :
  ~ In tag (column_names tst) ->
  creator ((ticker, tst) :: others) (feature :: features) =
  Raise (KeyError tag).
Proof.
  intros H. unfold creator, data_creator. cbn [feature_loop].
  unfold feature_table. cbn [foldM]. unfold ticker_step at 1. cbn [fst snd].
  unfold ticker_data, filtered_table, normalized_table, column.
  rewrite (field_index_missing _ _ H). reflexivity.
Qed.

(** X7. A first table that passes the filter but lacks the first requested
    feature makes the call raise [KeyError] for that feature. *)
Theorem missing_feature_column_raises (ticker feature : string) tst
  (ft : Table V) (others : dict (Table V)) (features : list string) :
  filtered tst = Return ft ->
  ~ In feature (column_names tst) ->
  creator ((ticker, tst) :: others) (feature :: features) =
  Raise (KeyError feature).
Proof.
  intros Hft H.
  destruct (filtered_table_spec _ _ _ _ _ _ Hft)
    as (table & rest & _ & Hn1 & _ & Hn3 & Hrest & _).
  unfold creator, data_creator. cbn [feature_loop].
  unfold feature_table. cbn [foldM]. unfold ticker_step at 1. cbn [fst snd].
  unfold ticker_data. unfold filtered in Hft. rewrite Hft. cbn [bind].
  unfold select. cbn [mapM]. rewrite Hn3, (field_index_head_ok _ _ Hrest).
  cbn [bind]. rewrite Hn1 in H. rewrite (field_index_missing _ _ H).
  reflexivity.
Qed.

(** X8. With a single ticker nothing is joined: the table of a feature has
    the two columns of the ticker's projection and exactly its rows, put in
    date order. *)
Theorem single_ticker_table (ticker : string) tst (features : list string)
  (out : dict (option (Table V))) (feature : string) (t : Table V) :
  creator [(ticker, tst)] features = Return out ->
  dict_get feature out = Some (Some t) ->
  exists data dates,
    data_of feature ticker tst = Return data /\
    column_names t = [tag; ticker] /\
    Permutation (rows t) (rows data) /\
    column t tag = Return (map Timestamp dates) /\
    StronglySorted Z.le dates.
Proof.
  intros H Hget.
  destruct (data_creator_lookup _ _ _ _ _ _ _ _ _ H Hget) as [_ Ht].
  unfold feature_table in Ht. cbn [foldM] in Ht.
  inv_bind Ht as res Hres. inv_ret Ht.
  change (@None (Table V))
    with (table_of_state tag (@None (list string * list (Z * list (Scalar V)))))
    in Hres.
  destruct (ticker_step_keyed to_timestamp start_date end_date tag feature
              ticker tst None (Some t) I Hres)
    as (kdata & Hdata & _ & Hne & Heq & Hwf).
  cbn in Heq, Hwf. inv_ret Heq.
  exists (keyed_table tag [ticker] kdata), (map fst (ksort kdata)).
  split; [exact Hdata|]. split; [reflexivity|]. split; [|split].
  - cbn [keyed_table rows]. apply Permutation_map, ksort_perm.
  - now apply keyed_table_dates.
  - apply ksort_sorted.
Qed.






(** The dates of the accumulator are those of one ticker with the most
    in-range rows, as long as no ticker repeats a date. *)
Lemma feature_table_longest (feature : string) d (res : option (Table V)) :
  table_of d feature = Return res ->
  (forall ticker tst data col,
      In (ticker, tst) d -> data_of feature ticker tst = Return data ->
      column data tag = Return col -> NoDup col) ->
  exists st,
    res = table_of_state tag st /\ well_keyed tag st /\
    match st with
    | None => d = []
    | Some (_, krows) =>
        exists ticker tst kdata,
          In (ticker, tst) d /\
          data_of feature ticker tst = Return (keyed_table tag [ticker] kdata) /\
          ticker <> tag /\
          NoDup (map fst kdata) /\
          Permutation (map fst krows) (map fst kdata) /\
          forall ticker' tst' data',
            In (ticker', tst') d ->
            data_of feature ticker' tst' = Return data' ->
            (len data' <= List.length kdata)%nat
    end.
Proof.
  intros H Hall.
  destruct (feature_table_ind to_timestamp start_date end_date tag feature
              (fun pre st =>
                 (forall ticker tst data col,
                     In (ticker, tst) pre ->
                     data_of feature ticker tst = Return data ->
                     column data tag = Return col -> NoDup col) ->
                 match st with
                 | None => pre = []
                 | Some (_, krows) =>
                     exists ticker tst kdata,
                       In (ticker, tst) pre /\
                       data_of feature ticker tst =
                       Return (keyed_table tag [ticker] kdata) /\
                       ticker <> tag /\
                       NoDup (map fst kdata) /\
                       Permutation (map fst krows) (map fst kdata) /\
                       forall ticker' tst' data',
                         In (ticker', tst') pre ->
                         data_of feature ticker' tst' = Return data' ->
                         (len data' <= List.length kdata)%nat
                 end))
    with (d := d) (res := res) as (st & Hres & Hwf & HP); auto.
  - intros pre st ticker tst kdata HP Hwf Hdata Hobs Hne Hwf' Hnd.
    assert (Hnew : NoDup (map fst kdata)).
    { apply (Timestamp_inj_nodup (V := V)).
      apply (Hnd ticker tst (keyed_table tag [ticker] kdata)).
      - apply in_or_app. right. now left.
      - exact Hdata.
      - apply keyed_table_dates. intros [Ht|[]]. now apply Hne. }
    assert (Hold : forall ticker0 tst0 data0 col0,
               In (ticker0, tst0) pre ->
               data_of feature ticker0 tst0 = Return data0 ->
               column data0 tag = Return col0 -> NoDup col0).
    { intros ? ? ? ? Hin. apply Hnd. apply in_or_app. now left. }
    specialize (HP Hold).
    assert (Hlast : forall ticker' tst' data',
               In (ticker', tst') [(ticker, tst)] ->
               data_of feature ticker' tst' = Return data' ->
               len data' = List.length kdata).
    { intros ticker' tst' data' [Hin|[]] Hd'. inv_ret Hin.
      unfold data_of in Hd', Hdata. rewrite Hdata in Hd'. inv_ret Hd'.
      apply keyed_table_len. }
    destruct st as [[cols krows]|].
    + destruct HP as (ti & tsti & kdi & Hini & Hdi & Hnei & Hndi & Hperm & Hmax).
      assert (Hndk : NoDup (map fst krows)).
      { eapply Permutation_NoDup; [symmetry; exact Hperm|exact Hndi]. }
      assert (Hlen : List.length krows = List.length kdi).
      { apply Permutation_length in Hperm. now rewrite !length_map in Hperm. }
      cbn [kstep].
      destruct (List.length kdata <? List.length krows)%nat eqn:Hlt.
      * apply Nat.ltb_lt in Hlt.
        exists ti, tsti, kdi. repeat split; auto.
        -- apply in_or_app. now left.
        -- rewrite (Permutation_map fst (ksort_perm _)).
           now rewrite kjoin_keys_nodup.
        -- intros ticker' tst' data' Hin Hd'.
           apply in_app_or in Hin. destruct Hin as [Hin|Hin].
           ++ eapply Hmax; eauto.
           ++ rewrite (Hlast _ _ _ Hin Hd'). lia.
      * apply Nat.ltb_ge in Hlt.
        exists ticker, tst, kdata. repeat split; auto.
        -- apply in_or_app. right. now left.
        -- rewrite (Permutation_map fst (ksort_perm _)).
           now rewrite kjoin_keys_nodup.
        -- intros ticker' tst' data' Hin Hd'.
           apply in_app_or in Hin. destruct Hin as [Hin|Hin].
           ++ specialize (Hmax _ _ _ Hin Hd'). lia.
           ++ rewrite (Hlast _ _ _ Hin Hd'). lia.
    + subst pre. exists ticker, tst, kdata. repeat split; auto.
      * now left.
      * cbn. apply Permutation_map, ksort_perm.
      * intros ticker' tst' data' Hin Hd'.
        rewrite (Hlast _ _ _ Hin Hd'). lia.
  - exists st. split; [exact Hres|]. split; [exact Hwf|]. apply HP. exact Hall.
Qed.

(** X10. The left outer joins keep the dates of one ticker only.  When no
    ticker repeats a date, the dates of a returned table are exactly the
    dates of one ticker that has the most in-range rows, so the table has as
    many rows as that ticker and not as many as there are distinct dates. *)
Theorem table_has_dates_of_longest_ticker d (features : list string)
  (out : dict (option (Table V))) (feature : string) (t : Table V) :
  creator d features = Return out ->
  dict_get feature out = Some (Some t) ->
  (forall ticker tst data col,
      In (ticker, tst) d -> data_of feature ticker tst = Return data ->
      column data tag = Return col -> NoDup col) ->
  exists ticker tst data dates dates',
    In (ticker, tst) d /\
    data_of feature ticker tst = Return data /\
    (forall ticker' tst' data',
        In (ticker', tst') d ->
        data_of feature ticker' tst' = Return data' ->
        (len data' <= len data)%nat) /\
    len t = len data /\
    column t tag = Return (map Timestamp dates) /\
    column data tag = Return (map Timestamp dates') /\
    Permutation dates dates'.
Proof.
  intros H Hget Hnd.
  destruct (data_creator_lookup _ _ _ _ _ _ _ _ _ H Hget) as [_ Ht].
  destruct (feature_table_longest _ _ _ Ht Hnd) as (st & Hres & Hwf & Hst).
  destruct st as [[cols krows]|]; [|discriminate].
  cbn in Hres, Hwf. inv_ret Hres.
  destruct Hst as (ticker & tst & kdata & Hin & Hdata & Hne & _ & Hperm & Hmax).
  exists ticker, tst, (keyed_table tag [ticker] kdata),
    (map fst krows), (map fst kdata).
  rewrite !keyed_table_len. repeat split; auto.
  - apply Permutation_length in Hperm. now rewrite !length_map in Hperm.
  - now apply keyed_table_dates.
  - apply keyed_table_dates. intros [Ht'|[]]. now apply Hne.
Qed.

End MoreOfDataCreator.

(** ** The rebalancing signal of the entry script *)

Module RebalancingFacts.

Import Rebalancing.

Lemma streak_reaches (above : nat -> bool) (w k : nat) :
  (w <= streak above k)%nat <->
  (w <= k)%nat /\ forall j, (k - w <= j < k)%nat -> above j = true.
Proof.
  revert w; induction k as [|k IH]; intros w; simpl.
  - split.
    + intros H. split; [exact H|]. intros j Hj. lia.
    + tauto.
  - destruct (above k) eqn:Ek.
    + destruct w as [|w].
      * split; [|lia]. intros _. split; [lia|]. intros j Hj. lia.
      * rewrite <- Nat.succ_le_mono, IH. split.
        -- intros [Hw Hall]. split; [lia|]. intros j Hj.
           destruct (Nat.eq_dec j k) as [->|Hne]; [exact Ek|].
           apply Hall. lia.
        -- intros [Hw Hall]. split; [lia|]. intros j Hj. apply Hall. lia.
    + split.
      * intros Hw. assert (w = O) by lia. subst w.
        split; [lia|]. intros j Hj. lia.
      * intros [Hw Hall]. destruct w as [|w]; [lia|].
        assert (above k = true) by (apply Hall; lia). congruence.
Qed.

Lemma nth_replace_nth_same {B : Type} (l : list B) (i : nat) (x dflt : B) :
  (i < List.length l)%nat -> nth i (replace_nth i x l) dflt = x.
Proof.
  revert i; induction l as [|y ys IH]; intros [|i]; simpl; intros H;
    try lia; [reflexivity|].
  apply IH. lia.
Qed.

Lemma nth_replace_nth_other {B : Type} (l : list B) (i j : nat) (x dflt : B) :
  i <> j -> nth j (replace_nth i x l) dflt = nth j l dflt.
Proof.
  revert i j; induction l as [|y ys IH]; intros [|i] [|j]; simpl; intros H;
    try reflexivity; try congruence.
  apply IH. congruence.
Qed.

Lemma replace_nth_length {B : Type} (l : list B) (i : nat) (x : B) :
  List.length (replace_nth i x l) = List.length l.
Proof.
  revert i; induction l as [|y ys IH]; intros [|i]; simpl; auto.
Qed.

Section Signal.

Context {A : Type}.
Variable zero : A.
Variable gt : A -> A -> bool.
Variable window : nat.
Variable threshold : A.
Variable signal_values : list A.

Let n := List.length signal_values.
Let above (j : nat) : bool := gt (nth j signal_values zero) threshold.
Let pass := signal_pass zero gt window threshold signal_values.

(** After [k] passes: the count is the current run, rows from [k] on are
    untouched, and an earlier row holds 1 exactly when its run had reached
    the window and it is not the last row. *)
Lemma passes_invariant (k : nat) :
  (k <= n)%nat ->
  let state := fold_left pass (seq 0 k) (O, repeat 0 n) in
  fst state = streak above k /\
  List.length (snd state) = n /\
  forall i,
    (nth i (snd state) 0 = 0 \/ nth i (snd state) 0 = 1) /\
    (nth i (snd state) 0 = 1 <->
     (i < k)%nat /\ (window <= streak above (S i))%nat /\ (i + 1 < n)%nat).
Proof.
  induction k as [|k IH]; intros Hk; cbn zeta.
  - simpl. split; [reflexivity|]. split; [apply repeat_length|].
    intros i.
    assert (H0 : nth i (repeat 0 n) 0 = 0).
    { destruct (Nat.lt_ge_cases i n) as [Hi|Hi].
      - now apply nth_repeat_lt.
      - apply nth_overflow. now rewrite repeat_length. }
    rewrite H0. split; [now left|]. split; [discriminate|lia].
  - rewrite seq_S, fold_left_app. cbn [fold_left Nat.add].
    destruct (IH ltac:(lia)) as (Hc & Hlen & Hsig). clear IH.
    destruct (fold_left pass (seq 0 k) (O, repeat 0 n)) as [count sig].
    cbn [fst snd] in *. subst count.
    unfold pass, signal_pass. cbn [fst snd].
    fold n. fold (above k).
    change (if above k then S (streak above k) else O)
      with (streak above (S k)).
    destruct ((window <=? streak above (S k))%nat && (k + 1 <? n)%nat) eqn:Hflag.
    + apply andb_true_iff in Hflag. destruct Hflag as [Hw Hlast].
      apply Nat.leb_le in Hw. apply Nat.ltb_lt in Hlast.
      split; [reflexivity|]. split; [now rewrite replace_nth_length|].
      intros i. destruct (Nat.eq_dec k i) as [<-|Hne].
      * rewrite nth_replace_nth_same by lia.
        split; [now right|]. split; [lia|reflexivity].
      * rewrite nth_replace_nth_other by exact Hne.
        destruct (Hsig i) as [Hb Hi]. split; [exact Hb|].
        rewrite Hi. split; intros (H1 & H2 & H3); repeat split; auto; lia.
    + split; [reflexivity|]. split; [exact Hlen|].
      intros i. destruct (Hsig i) as [Hb Hi]. split; [exact Hb|].
      rewrite Hi. split.
      * intros (H1 & H2 & H3). repeat split; auto; lia.
      * intros (H1 & H2 & H3). repeat split; auto.
        destruct (Nat.eq_dec i k) as [->|Hne]; [|lia].
        apply andb_false_iff in Hflag. destruct Hflag as [Hf|Hf].
        -- apply Nat.leb_gt in Hf. lia.
        -- apply Nat.ltb_ge in Hf. lia.
Qed.

(** X11. The signal has one entry per row, each 0 or 1. *)
Theorem rebalance_signal_shape :
  List.length (rebalance_signal zero gt window threshold signal_values) = n /\
  Forall (fun x => x = 0 \/ x = 1)
    (rebalance_signal zero gt window threshold signal_values).
Proof.
  destruct (passes_invariant n (Nat.le_refl n)) as (_ & Hlen & Hsig).
  unfold rebalance_signal. fold n. fold pass. split; [exact Hlen|].
  apply Forall_forall. intros x Hx.
  destruct (In_nth _ _ 0 Hx) as (i & _ & <-). apply Hsig.
Qed.

(** X12. Row [i] is flagged exactly when it is not the last row and it ends a
    run of at least [window] consecutive rows above the threshold. *)
Theorem rebalance_signal_flags (i : nat) :
  nth i (rebalance_signal zero gt window threshold signal_values) 0 = 1 <->
  (i + 1 < n)%nat /\ (window <= i + 1)%nat /\
  forall j, (i + 1 - window <= j <= i)%nat ->
            gt (nth j signal_values zero) threshold = true.
Proof.
  destruct (passes_invariant n (Nat.le_refl n)) as (_ & _ & Hsig).
  unfold rebalance_signal. fold n. fold pass.
  destruct (Hsig i) as [_ Hi]. rewrite Hi, streak_reaches.
  replace (S i) with (i + 1)%nat by lia. split.
  - intros (H1 & (H2 & Hall) & H3). repeat split; auto.
    intros j Hj. apply Hall. lia.
  - intros (H1 & H2 & Hall). repeat split; auto; try lia.
    intros j Hj. apply Hall. lia.
Qed.

(** X13. The last row is never flagged, whatever the values. *)
Theorem last_row_never_flagged (i : nat) :
  (n <= i + 1)%nat ->
  nth i (rebalance_signal zero gt window threshold signal_values) 0 = 0.
Proof.
  intros Hlast.
  destruct (passes_invariant n (Nat.le_refl n)) as (_ & _ & Hsig).
  unfold rebalance_signal. fold n. fold pass.
  destruct (Hsig i) as [[H0|H1] Hi]; [exact H0|].
  apply Hi in H1. lia.
Qed.

End Signal.

(** X14. A missing value, replaced by 0, breaks the run when 0 is not above
    the threshold: no row of the window that follows it is flagged. *)
Theorem missing_value_breaks_run {A : Type} (zero : A) (gt : A -> A -> bool)
  (window : nat) (threshold : A) (column : list (option A)) (j i : nat) :
  gt zero threshold = false ->
  nth_error column j = Some None ->
  (j <= i < j + window)%nat ->
  nth i (rebalance_signal zero gt window threshold (fillna zero column)) 0 = 0.
Proof.
  intros Hzero Hj Hi.
  pose proof (passes_invariant zero gt window threshold (fillna zero column)
                (List.length (fillna zero column)) (Nat.le_refl _)) as Hinv.
  cbn zeta in Hinv. destruct Hinv as (_ & _ & Hsig).
  unfold rebalance_signal.
  destruct (Hsig i) as [[H0|H1] Hflag]; [exact H0|].
  apply Hflag in H1. destruct H1 as (_ & Hrun & _).
  apply streak_reaches in Hrun. destruct Hrun as [_ Hall].
  assert (Hgt : gt (nth j (fillna zero column) zero) threshold = true)
    by (apply Hall; lia).
  unfold fillna in Hgt.
  rewrite (nth_error_nth _ _ zero
             (eq_trans (nth_error_map _ _ _) (f_equal _ Hj))) in Hgt.
  congruence.
Qed.

End RebalancingFacts.

(** * The further properties on concrete inputs *)

Module MoreScenarioFacts.

Import Scenario MoreScenarios Rebalancing RebalancingFacts.

Lemma two_tickers_distinct : NoDup (keys two_tickers).
Proof. repeat constructor; simpl; intuition discriminate. Qed.

Lemma three_tickers_distinct_dates :
  forall ticker tst data col,
    In (ticker, tst) three_tickers ->
    projected ticker tst = Return data ->
    column data "m_date" = Return col -> NoDup col.
Proof.
  intros ticker tst data col [Hin|[Hin|[Hin|[]]]] Hdata Hcol;
    injection Hin as <- <-; vm_compute in Hdata;
    injection Hdata as <-; vm_compute in Hcol; injection Hcol as <-;
    repeat constructor; simpl; intuition discriminate.
Qed.

(** [returned_dates_in_range] at Scenario A. *)
Lemma returned_dates_in_range_witness :
  exists out t,
    run two_tickers ["price"] = Return out /\
    dict_get "price" out = Some (Some t) /\
    exists dates,
      column t "m_date" = Return (map Timestamp dates) /\
      Forall (fun k =>
                d2020_01_01 * ms_per_day <= k <= d2020_01_10 * ms_per_day /\
                exists ticker c,
                  observed uncastable d2020_01_01 d2020_01_10 "m_date"
                    two_tickers "price" ticker k c) dates.
Proof.
  do 2 eexists. split; [reflexivity|]. split; [reflexivity|].
  eapply (returned_dates_in_range uncastable d2020_01_01 d2020_01_10 "m_date"
            two_tickers ["price"]); reflexivity.
Defined.

(** [returned_cells_observed] at Scenario A. *)
Lemma returned_cells_observed_witness :
  NoDup (keys two_tickers) /\
  exists out t,
    run two_tickers ["price"] = Return out /\
    dict_get "price" out = Some (Some t) /\
    exists dates,
      column t "m_date" = Return (map Timestamp dates) /\
      forall ticker tst,
        In (ticker, tst) two_tickers ->
        exists col,
          column t ticker = Return col /\
          Forall2 (fun k c =>
                     c = Null \/
                     observed uncastable d2020_01_01 d2020_01_10 "m_date"
                       two_tickers "price" ticker k c) dates col.
Proof.
  split; [exact two_tickers_distinct|].
  do 2 eexists. split; [reflexivity|]. split; [reflexivity|].
  eapply (returned_cells_observed uncastable d2020_01_01 d2020_01_10 "m_date"
            two_tickers ["price"]);
    [exact two_tickers_distinct|reflexivity|reflexivity].
Defined.

(** [filter_idempotent] at AAA's table. *)
Lemma filter_idempotent_witness :
  exists ft,
    filtered_table uncastable d2020_01_01 d2020_01_10 "m_date" AAA = Return ft /\
    filtered_table uncastable d2020_01_01 d2020_01_10 "m_date" ft = Return ft.
Proof.
  eexists. split; [reflexivity|].
  apply (filter_idempotent uncastable d2020_01_01 d2020_01_10 "m_date" AAA).
  reflexivity.
Defined.

(** [accepted_tables] at Scenario A. *)
Lemma accepted_tables_witness :
  exists out,
    run two_tickers ["price"] = Return out /\
    In "price" ["price"] /\
    In ("BBB", BBB) two_tickers /\
    "BBB" <> "m_date" /\
    exists rest j,
      column_names BBB = "m_date" :: rest /\
      ~ In "m_date" rest /\
      field_index (column_names BBB) "price" = Return j.
Proof.
  eexists. split; [reflexivity|].
  split; [simpl; tauto|]. split; [simpl; tauto|].
  eapply (accepted_tables uncastable d2020_01_01 d2020_01_10 "m_date"
            two_tickers ["price"]); [reflexivity|simpl; tauto|simpl; tauto].
Defined.

(** [missing_date_column_raises] at a table that has no date column. *)
Lemma missing_date_column_raises_witness :
  ~ In "m_date" (column_names undated) /\
  run [("AAA", undated); ("BBB", BBB)] ["price"; "volume"] =
  Raise (KeyError "m_date").
Proof.
  assert (H : ~ In "m_date" (column_names undated)).
  { simpl. intuition discriminate. }
  split; [exact H|].
  exact (missing_date_column_raises uncastable d2020_01_01 d2020_01_10 "m_date"
           "AAA" "price" undated [("BBB", BBB)] ["volume"] H).
Defined.

(** [missing_feature_column_raises] at Scenario B. *)
Lemma missing_feature_column_raises_witness :
  (exists ft,
      filtered_table uncastable d2020_01_01 d2020_01_10 "m_date" AAA =
      Return ft) /\
  ~ In "volume" (column_names AAA) /\
  run [("AAA", AAA); ("BBB", BBB)] ["volume"; "price"] =
  Raise (KeyError "volume").
Proof.
  assert (H : ~ In "volume" (column_names AAA)).
  { simpl. intuition discriminate. }
  split; [eexists; reflexivity|]. split; [exact H|].
  exact (missing_feature_column_raises uncastable d2020_01_01 d2020_01_10
           "m_date" "AAA" "volume" AAA _ [("BBB", BBB)] ["price"] eq_refl H).
Defined.

(** [single_ticker_table] at AAA alone. *)
Lemma single_ticker_table_witness :
  exists out t,
    run one_ticker ["price"] = Return out /\
    dict_get "price" out = Some (Some t) /\
    exists data dates,
      projected "AAA" AAA = Return data /\
      column_names t = ["m_date"; "AAA"] /\
      Permutation (rows t) (rows data) /\
      column t "m_date" = Return (map Timestamp dates) /\
      StronglySorted Z.le dates.
Proof.
  do 2 eexists. split; [reflexivity|]. split; [reflexivity|].
  eapply (single_ticker_table uncastable d2020_01_01 d2020_01_10 "m_date"
            "AAA" AAA ["price"]); reflexivity.
Defined.


(** [table_has_dates_of_longest_ticker] at the three tickers. *)
Lemma longest_ticker_witness :
  (forall ticker tst data col,
      In (ticker, tst) three_tickers ->
      projected ticker tst = Return data ->
      column data "m_date" = Return col -> NoDup col) /\
  exists out t,
    run three_tickers ["price"] = Return out /\
    dict_get "price" out = Some (Some t) /\
    exists ticker tst data dates dates',
      In (ticker, tst) three_tickers /\
      projected ticker tst = Return data /\
      (forall ticker' tst' data',
          In (ticker', tst') three_tickers ->
          projected ticker' tst' = Return data' ->
          (len data' <= len data)%nat) /\
      len t = len data /\
      column t "m_date" = Return (map Timestamp dates) /\
      column data "m_date" = Return (map Timestamp dates') /\
      Permutation dates dates'.
Proof.
  split; [exact three_tickers_distinct_dates|].
  do 2 eexists. split; [reflexivity|]. split; [reflexivity|].
  eapply (table_has_dates_of_longest_ticker uncastable d2020_01_01 d2020_01_10
            "m_date" three_tickers ["price"]);
    [reflexivity|reflexivity|exact three_tickers_distinct_dates].
Defined.

(** [last_row_never_flagged] at the last of the nine rows. *)
Lemma last_row_never_flagged_witness :
  (List.length (fillna 0%Z signal_column) <= 8 + 1)%nat /\
  nth 8 (rebalance_signal 0 Z.gtb window_days 25 (fillna 0 signal_column)) 0
  = 0.
Proof.
  split; [simpl; lia|].
  apply (last_row_never_flagged 0 Z.gtb window_days 25
           (fillna 0 signal_column) 8).
  simpl. lia.
Defined.

(** [missing_value_breaks_run] at the missing third value: row 6 ends five
    values above the threshold and is not flagged before row 7 is. *)
Lemma missing_value_breaks_run_witness :
  Z.gtb 0 25 = false /\
  nth_error signal_column 2 = Some None /\
  (2 <= 6 < 2 + window_days)%nat /\
  nth 6 (rebalance_signal 0 Z.gtb window_days 25 (fillna 0 signal_column)) 0
  = 0.
Proof.
  split; [reflexivity|]. split; [reflexivity|].
  split; [unfold window_days; lia|].
  apply (missing_value_breaks_run 0 Z.gtb window_days 25 signal_column 2 6).
  - reflexivity.
  - reflexivity.
  - unfold window_days. lia.
Defined.

End MoreScenarioFacts.

(** ** The portfolio weights of the entry script *)

Module PortfolioFacts.

Import Portfolio.

Section TopStocks.

Context {V : Type}.
Variable signal_leb : Scalar V -> Scalar V -> bool.

Implicit Types (items top : list (string * Scalar V)).

Let geq (a b : string * Scalar V) : Prop := signal_leb (snd b) (snd a) = true.

Lemma insert_desc_perm (x : string * Scalar V) items :
  Permutation (insert_desc signal_leb x items) (x :: items).
Proof.
  induction items as [|y ys IH]; simpl.
  - reflexivity.
  - destruct (signal_leb (snd y) (snd x)); [reflexivity|].
    rewrite IH. apply perm_swap.
Qed.

Lemma sorted_signals_perm items :
  Permutation (sorted_signals signal_leb items) items.
Proof.
  induction items as [|x xs IH]; simpl.
  - reflexivity.
  - rewrite insert_desc_perm. now constructor.
Qed.

Lemma insert_desc_sorted (x : string * Scalar V) items :
  (forall y, In y items -> geq x y \/ geq y x) ->
  (forall y z, In y items -> In z items -> geq y z -> geq x y -> geq x z) ->
  StronglySorted geq items ->
  StronglySorted geq (insert_desc signal_leb x items).
Proof.
  induction items as [|y ys IH]; simpl; intros Htot Htrans Hs.
  - repeat constructor.
  - inversion Hs as [|? ? Hs' Hf]; subst.
    destruct (signal_leb (snd y) (snd x)) eqn:E.
    + constructor; [exact Hs|]. constructor; [exact E|].
      rewrite Forall_forall in Hf |- *. intros z Hz.
      apply (Htrans y z); simpl; auto.
    + constructor.
      * apply IH; auto.
        intros y' z' Hy' Hz'. apply Htrans; now right.
      * apply Forall_forall. intros z Hz.
        apply (Permutation_in z (insert_desc_perm x ys)) in Hz.
        destruct Hz as [<-|Hz].
        -- destruct (Htot y (or_introl eq_refl)) as [H|H]; [|exact H].
           unfold geq in H. congruence.
        -- rewrite Forall_forall in Hf. now apply Hf.
Qed.

Lemma sorted_signals_sorted items :
  (forall a b, In a items -> In b items -> geq a b \/ geq b a) ->
  (forall a b c, In a items -> In b items -> In c items ->
                 geq a b -> geq b c -> geq a c) ->
  StronglySorted geq (sorted_signals signal_leb items).
Proof.
  induction items as [|x xs IH]; simpl; intros Htot Htrans.
  - constructor.
  - assert (Hin : forall y, In y (sorted_signals signal_leb xs) -> In y xs).
    { intros y. apply Permutation_in, sorted_signals_perm. }
    apply insert_desc_sorted.
    + intros y Hy. apply Htot; [now left|right; auto].
    + intros y z Hy Hz Hyz Hxy.
      apply (Htrans x y z); simpl; auto.
    + apply IH.
      * intros a b Ha Hb. apply Htot; now right.
      * intros a b c Ha Hb Hc. apply Htrans; now right.
Qed.

Lemma sorted_split (l : list (string * Scalar V)) (k : nat) :
  StronglySorted geq l ->
  forall a b, In a (firstn k l) -> In b (skipn k l) -> geq a b.
Proof.
  revert k; induction l as [|x xs IH]; intros [|k] Hs a b Ha Hb; simpl in *;
    try contradiction.
  inversion Hs as [|? ? Hs' Hf]; subst. destruct Ha as [<-|Ha].
  - rewrite Forall_forall in Hf. apply Hf.
    rewrite <- (firstn_skipn k xs). apply in_or_app. now right.
  - eapply IH; eauto.
Qed.

(** X16. The stocks that get the weight are the best [n_top_stocks]: there are
    as many as qualify, up to five, and no stock left out has a signal above
    the signal of a stock taken.  The signals must be comparable (no NaN
    among them). *)
Theorem top_n_stocks_are_best items :
  (forall a b, In a items -> In b items ->
               signal_leb (snd b) (snd a) = true \/
               signal_leb (snd a) (snd b) = true) ->
  (forall a b c, In a items -> In b items -> In c items ->
                 signal_leb (snd b) (snd a) = true ->
                 signal_leb (snd c) (snd b) = true ->
                 signal_leb (snd c) (snd a) = true) ->
  List.length (top_n_stocks signal_leb items) =
  Nat.min n_top_stocks (List.length items) /\
  (forall a, In a (top_n_stocks signal_leb items) -> In a items) /\
  (forall a b,
      In a (top_n_stocks signal_leb items) ->
      In b items -> ~ In b (top_n_stocks signal_leb items) ->
      signal_leb (snd b) (snd a) = true).
Proof.
  intros Htot Htrans. unfold top_n_stocks.
  pose proof (sorted_signals_perm items) as Hperm.
  split; [|split].
  - rewrite length_firstn. now rewrite (Permutation_length Hperm).
  - intros a Ha. apply (Permutation_in a Hperm).
    rewrite <- (firstn_skipn n_top_stocks). apply in_or_app. now left.
  - intros a b Ha Hb Hnb.
    apply (sorted_split (sorted_signals signal_leb items) n_top_stocks); auto.
    + now apply sorted_signals_sorted.
    + apply (Permutation_in b (Permutation_sym Hperm)) in Hb.
      rewrite <- (firstn_skipn n_top_stocks) in Hb.
      apply in_app_or in Hb. tauto.
Qed.

End TopStocks.

Section WeightsLoop.

Context {V : Type}.
Variable py_eqb : Scalar V -> Scalar V -> bool.
Variable is_one : Scalar V -> bool.
Variable signal_leb : Scalar V -> Scalar V -> bool.
Variable tag : string.

Implicit Types (weights : dict (list (Scalar V * Weight))).
Implicit Types (stocks eligible : list string).
Implicit Types (date_column dates : list (Scalar V)).

Lemma py_set_keys {B : Type} (k : Scalar V) (v : B)
  (d : list (Scalar V * B)) :
  map fst (py_set py_eqb k v d) = key_set py_eqb k (map fst d).
Proof.
  unfold key_set. induction d as [|[k' v'] rest IH]; simpl.
  - reflexivity.
  - destruct (py_eqb k' k); simpl; [reflexivity|].
    rewrite IH. now destruct (existsb (fun k'0 => py_eqb k'0 k) (map fst rest)).
Qed.

Lemma py_set_values {B : Type} (P : B -> Prop) (k : Scalar V) (v : B)
  (d : list (Scalar V * B)) :
  P v -> Forall P (map snd d) -> Forall P (map snd (py_set py_eqb k v d)).
Proof.
  intros Hv. induction d as [|[k' v'] rest IH]; simpl; intros H.
  - repeat constructor. exact Hv.
  - inversion H as [|? ? Hv' Hrest]; subst.
    destruct (py_eqb k' k); simpl; constructor; auto.
Qed.

Lemma py_get_In {B : Type} (k : Scalar V) (v : B) (d : list (Scalar V * B)) :
  py_get py_eqb k d = Some v -> In v (map snd d).
Proof.
  induction d as [|[k' v'] rest IH]; simpl; intros H.
  - discriminate.
  - destruct (py_eqb k' k); [inv_ret H; now left|right; auto].
Qed.

Lemma key_set_idempotent (k : Scalar V) (ks : list (Scalar V)) :
  py_eqb k k = true -> key_set py_eqb k (key_set py_eqb k ks) = key_set py_eqb k ks.
Proof.
  intros Hrefl. unfold key_set.
  destruct (existsb (fun k' => py_eqb k' k) ks) eqn:E.
  - now rewrite E.
  - rewrite existsb_app. simpl. now rewrite E, Hrefl.
Qed.

Lemma key_set_incl (k : Scalar V) (ks : list (Scalar V)) (x : Scalar V) :
  In x (key_set py_eqb k ks) -> In x ks \/ x = k.
Proof.
  unfold key_set. destruct (existsb (fun k' => py_eqb k' k) ks); [tauto|].
  intros H. apply in_app_or in H. destruct H as [H|[H|[]]]; auto.
Qed.

Lemma dict_get_keys {B : Type} (k : string) (d : dict B) :
  In k (keys d) <-> exists v, dict_get k d = Some v.
Proof.
  unfold keys. induction d as [|[k' v'] rest IH]; simpl.
  - split; [tauto|intros (v & H); discriminate].
  - destruct (String.eqb k' k) eqn:E.
    + apply String.eqb_eq in E. split; eauto.
    + apply String.eqb_neq in E. rewrite <- IH. tauto.
Qed.

Lemma dict_set_keys_present {B : Type} (k : string) (v v' : B) (d : dict B) :
  dict_get k d = Some v' -> keys (dict_set k v d) = keys d.
Proof.
  intros H. rewrite dict_set_keys.
  assert (Hin : In k (keys d)) by (apply dict_get_keys; eauto).
  apply existsb_eqb_In in Hin. now rewrite Hin.
Qed.

Lemma initial_weights_spec stocks :
  keys (initial_weights (V:=V) stocks) = distinct_names stocks /\
  forall stock by_date,
    dict_get stock (initial_weights (V:=V) stocks) = Some by_date -> by_date = [].
Proof.
  unfold initial_weights, distinct_names.
  assert (G : forall l (acc : dict (list (Scalar V * Weight))),
             (forall stock by_date,
                 dict_get stock acc = Some by_date -> by_date = []) ->
             keys (fold_left (fun w s => dict_set s [] w) l acc) =
             (keys acc ++ first_occurrences (keys acc) l)%list /\
             forall stock by_date,
               dict_get stock (fold_left (fun w s => dict_set s [] w) l acc) =
               Some by_date -> by_date = []).
  { induction l as [|s l IH]; simpl; intros acc Hacc.
    - rewrite app_nil_r. auto.
    - destruct (IH (dict_set s [] acc)) as [Hk Hv].
      + intros stock by_date.
        destruct (string_dec stock s) as [->|Hne].
        * rewrite dict_get_set_same. intros H. now inv_ret H.
        * rewrite dict_get_set_other by exact Hne. apply Hacc.
      + split; [|exact Hv]. rewrite Hk, dict_set_keys.
        destruct (existsb (String.eqb s) (keys acc)) eqn:E; [reflexivity|].
        rewrite <- app_assoc. simpl. do 2 f_equal.
        apply first_occurrences_ext. intros y. rewrite in_app_iff. simpl. tauto. }
  apply (G stocks []). intros stock by_date H. discriminate.
Qed.

Lemma foldM_app {B C : Type} (f : B -> C -> Exc B) (l1 l2 : list C) (a : B) :
  foldM f (l1 ++ l2) a = (a1 <- foldM f l1 a ;; foldM f l2 a1).
Proof.
  revert a; induction l1 as [|x xs IH]; simpl; intros a.
  - reflexivity.
  - destruct (f a x); simpl; [apply IH|reflexivity].
Qed.

Lemma foldM_invariant {B C : Type} (f : B -> C -> Exc B) (P : B -> Prop)
  (l : list C) :
  (forall a x b, P a -> f a x = Return b -> P b) ->
  forall a b, P a -> foldM f l a = Return b -> P b.
Proof.
  intros Hstep. induction l as [|x xs IH]; simpl; intros a b Ha H.
  - now inv_ret H.
  - inv_bind H as a1 Ha1. apply (IH a1 b); [|exact H].
    eapply Hstep; eauto.
Qed.

Lemma column_length (t : Table V) (name : string) (col : list (Scalar V)) :
  column t name = Return col -> List.length col = len t.
Proof.
  unfold column, len. intros H. inv_bind H as i Hi. inv_ret H.
  apply length_map.
Qed.

(** The eligible stocks of a row are stock columns. *)
Lemma eligible_stocks_incl (iu : Table V) stocks (row_index : nat) eligible :
  eligible_stocks is_one iu stocks row_index = Return eligible ->
  incl eligible stocks.
Proof.
  unfold eligible_stocks.
  assert (G : forall l acc,
             incl l stocks -> incl acc stocks ->
             foldM (fun eligible0 stock =>
                      flag <- value_at iu stock row_index ;;
                      Return (if is_one flag then add_stock stock eligible0
                              else eligible0)) l acc = Return eligible ->
             incl eligible stocks).
  { induction l as [|s l IH]; simpl; intros acc Hl Hacc H.
    - now inv_ret H.
    - inv_bind H as acc1 Hacc1. inv_bind Hacc1 as flag Hflag. inv_ret Hacc1.
      apply (IH _ (fun x Hx => Hl x (or_intror Hx))) in H; [exact H|].
      destruct (is_one flag); [|exact Hacc].
      unfold add_stock. destruct (has_stock s acc); [exact Hacc|].
      intros x Hx. apply in_app_or in Hx. destruct Hx as [Hx|[<-|[]]]; auto.
      apply Hl. now left. }
  apply G; [apply incl_refl|intros x []].
Qed.

Lemma investable_stocks_incl (iu : Table V) stocks
  (investable : list (Scalar V * list string)) (date : Scalar V) eligible :
  investable_stocks_by_date py_eqb is_one tag iu stocks = Return investable ->
  py_get py_eqb date investable = Some eligible ->
  incl eligible stocks.
Proof.
  unfold investable_stocks_by_date. intros H Hget.
  apply py_get_In in Hget. revert eligible Hget. apply Forall_forall.
  revert H. apply foldM_invariant with (P := fun d => Forall (fun e => incl e stocks) (map snd d)).
  - intros by_date row_index b Hinv Hb.
    inv_bind Hb as date0 Hdate. inv_bind Hb as el Hel. inv_ret Hb.
    apply py_set_values; [|exact Hinv].
    eapply eligible_stocks_incl; eauto.
  - constructor.
Qed.

Lemma weight_is_share_or_nothing (top : list (string * Scalar V)) :
  weight top = share n_top_stocks \/ weight top = nothing.
Proof. destruct top; simpl; auto. Qed.

Lemma getitem_nth (col : list (Scalar V)) (i : nat) (x : Scalar V) :
  getitem col i = Return x -> nth_error col i = Some x.
Proof.
  unfold getitem. destruct (nth_error col i); intros H; [now inv_ret H|discriminate].
Qed.

Lemma assign_weights_keys date_column stocks (top : list (string * Scalar V))
  (row_index : nat) weights weights' :
  assign_weights py_eqb date_column stocks top row_index weights =
  Return weights' ->
  keys weights' = keys weights.
Proof.
  unfold assign_weights.
  apply foldM_invariant with (P := fun w => keys w = keys weights);
    [|reflexivity].
  intros w stock w' Hw H.
  destruct (dict_get stock w) as [by_date|] eqn:Eg; [|discriminate].
  inv_bind H as next Hnext. inv_ret H.
  now rewrite (dict_set_keys_present _ _ _ _ Eg).
Qed.

(** While the stocks are assigned, those already seen hold the dates with
    the next date set, the others the dates as they were. *)
Lemma assign_weights_marks date_column (top : list (string * Scalar V))
  (row_index : nat) dates :
  (forall x, py_eqb x x = true) ->
  forall stocks seen weights weights',
    assign_weights py_eqb date_column stocks top row_index weights =
    Return weights' ->
    (forall stock by_date,
        dict_get stock weights = Some by_date ->
        (In stock seen ->
         map fst by_date =
         key_set py_eqb (nth (row_index + 1) date_column Null) dates) /\
        (~ In stock seen -> map fst by_date = dates) /\
        Forall (fun w => w = share n_top_stocks \/ w = nothing)
          (map snd by_date)) ->
    forall stock by_date,
      dict_get stock weights' = Some by_date ->
      (In stock (seen ++ stocks) ->
       map fst by_date =
       key_set py_eqb (nth (row_index + 1) date_column Null) dates) /\
      (~ In stock (seen ++ stocks) -> map fst by_date = dates) /\
      Forall (fun w => w = share n_top_stocks \/ w = nothing)
        (map snd by_date).
Proof.
  intros Hrefl. unfold assign_weights.
  induction stocks as [|s stocks IH]; cbn [foldM]; intros seen weights weights' H Hinv.
  - inv_ret H. rewrite app_nil_r. exact Hinv.
  - inv_bind H as w1 Hw1.
    destruct (dict_get s weights) as [bd|] eqn:Eg; [|discriminate].
    inv_bind Hw1 as next Hnext. inv_ret Hw1.
    apply getitem_nth in Hnext.
    rewrite (nth_error_nth _ _ Null Hnext) in *.
    intros stock by_date Hget.
    replace (seen ++ s :: stocks)%list with ((seen ++ [s]) ++ stocks)%list
      by (rewrite <- app_assoc; reflexivity).
    revert stock by_date Hget. apply (IH (seen ++ [s])%list _ _ H).
    intros stock by_date Hget.
    destruct (string_dec stock s) as [->|Hne].
    + rewrite dict_get_set_same in Hget. inv_ret Hget.
      destruct (Hinv s bd Eg) as (Hseen & Hnew & Hok).
      assert (Hkeys : map fst (py_set py_eqb next
                                 (if has_stock s (map fst top)
                                  then weight top else nothing) bd) =
                      key_set py_eqb next dates).
      { rewrite py_set_keys.
        destruct (in_dec string_dec s seen) as [Hin|Hnin].
        - rewrite (Hseen Hin). now apply key_set_idempotent.
        - now rewrite (Hnew Hnin). }
      split; [intros _; exact Hkeys|]. split.
      * intros Hn. exfalso. apply Hn. apply in_or_app. right. now left.
      * apply py_set_values; [|exact Hok].
        destruct (has_stock s (map fst top)); [|now right].
        apply weight_is_share_or_nothing.
    + rewrite dict_get_set_other in Hget by exact Hne.
      destruct (Hinv stock by_date Hget) as (Hseen & Hnew & Hok).
      split; [|split; [|exact Hok]].
      * intros Hin. apply Hseen. apply in_app_or in Hin.
        destruct Hin as [Hin|[Hin|[]]]; [exact Hin|congruence].
      * intros Hn. apply Hnew. intros Hin. apply Hn. apply in_or_app. now left.
Qed.

Lemma assign_weights_next date_column (s : string) stocks
  (top : list (string * Scalar V)) (row_index : nat) weights weights' :
  assign_weights py_eqb date_column (s :: stocks) top row_index weights =
  Return weights' ->
  exists next, nth_error date_column (row_index + 1) = Some next.
Proof.
  unfold assign_weights. cbn [foldM]. intros H. inv_bind H as w1 Hw1.
  destruct (dict_get s weights); [|discriminate].
  inv_bind Hw1 as next Hnext. apply getitem_nth in Hnext. eauto.
Qed.

Lemma nth_error_skip_first (l : list (Scalar V)) (i : nat) (x : Scalar V) :
  nth_error l (i + 1) = Some x -> In x (skipn 1 l).
Proof.
  rewrite Nat.add_1_r. destruct l as [|y ys]; simpl; [discriminate|].
  apply nth_error_In.
Qed.

Lemma weights_pass_uniform (ss : Table V) date_column stocks
  (rebalancing : list (Scalar V)) (investable : list (Scalar V * list string))
  dates weights (row_index : nat) weights' :
  (forall x, py_eqb x x = true) ->
  uniform stocks date_column dates weights ->
  weights_pass py_eqb signal_leb ss date_column stocks rebalancing investable
    weights row_index = Return weights' ->
  exists dates', uniform stocks date_column dates' weights'.
Proof.
  intros Hrefl Hu H. unfold weights_pass in H.
  inv_bind H as current_date Hcur.
  destruct (negb (py_in py_eqb current_date rebalancing));
    [inv_ret H; eauto|].
  destruct (py_get py_eqb current_date investable) as [[|e es]|];
    [inv_ret H; eauto| |inv_ret H; eauto].
  inv_bind H as signals Hsig.
  destruct Hu as (Hkeys & Hincl & Hall).
  pose proof (assign_weights_keys _ _ _ _ _ _ H) as Hk.
  destruct stocks as [|s stocks'] eqn:Es.
  - exists dates. cbn in H. inv_ret H. split; [|split]; auto.
  - rewrite <- Es in *.
    assert (Hnext : exists next, nth_error date_column (row_index + 1) = Some next).
    { rewrite Es in H. eapply assign_weights_next; eauto. }
    destruct Hnext as (next & Hnext).
    exists (key_set py_eqb next dates). split; [congruence|]. split.
    + intros x Hx. apply key_set_incl in Hx. destruct Hx as [Hx| ->]; auto.
      eapply nth_error_skip_first; eauto.
    + intros stock by_date Hget.
      destruct (assign_weights_marks date_column _ row_index dates Hrefl
                  stocks [] weights weights' H) with (stock := stock)
                  (by_date := by_date) as (Hseen & _ & Hok); auto.
      * intros st bd Hg. destruct (Hall st bd Hg) as [Hd Hw].
        split; [intros []|]. split; auto.
      * split; [|exact Hok].
        rewrite (nth_error_nth _ _ Null Hnext) in Hseen. apply Hseen.
        cbn [app].
        assert (Hin : In stock (keys weights')) by (apply dict_get_keys; eauto).
        rewrite Hk, Hkeys in Hin. unfold distinct_names in Hin.
        apply first_occurrences_In in Hin. tauto.
Qed.

(** X17. The shape of the weights.  There is one entry per distinct stock
    column, in column order; all stocks hold weights for the same dates,
    which are dates of rows after the first; every weight is
    [1.0 / n_top_stocks] or 0. *)
Theorem portfolio_weights_shape (iu rd ss : Table V) weights :
  (forall x, py_eqb x x = true) ->
  portfolio_weights py_eqb is_one signal_leb tag iu rd ss = Return weights ->
  exists date_column dates,
    column ss tag = Return date_column /\
    keys weights = distinct_names (stock_columns tag ss) /\
    incl dates (skipn 1 date_column) /\
    forall stock by_date,
      dict_get stock weights = Some by_date ->
      map fst by_date = dates /\
      Forall (fun w => w = share n_top_stocks \/ w = nothing) (map snd by_date).
Proof.
  intros Hrefl H. unfold portfolio_weights in H.
  inv_bind H as date_column Hcol. inv_bind H as rebalancing Hreb.
  inv_bind H as investable Hinv.
  exists date_column.
  assert (G : exists dates,
             uniform (stock_columns tag ss) date_column dates weights).
  { revert H. apply foldM_invariant
      with (P := fun w => exists dates,
                   uniform (stock_columns tag ss) date_column dates w).
    - intros w i w' (dates & Hu) Hw. eapply weights_pass_uniform; eauto.
    - exists []. destruct (initial_weights_spec (stock_columns tag ss))
        as [Hk Hv]. split; [exact Hk|]. split; [intros x []|].
      intros stock by_date Hget. rewrite (Hv _ _ Hget). simpl. auto. }
  destruct G as (dates & Hk & Hi & Ha). exists dates. auto.
Qed.

(** X18. A rebalancing date on the last row makes the script fail.  When the
    last row of the signals is a rebalancing date with at least one eligible
    stock, the weights are to be dated on the row after it, and the lookup of
    that row raises [IndexError]. *)
Theorem rebalancing_on_last_row_raises (iu rd ss : Table V)
  date_column (rebalancing : list (Scalar V))
  (investable : list (Scalar V * list string)) (n : nat) weights
  (current_date : Scalar V) (e : string) (es : list string)
  (signals : dict (Scalar V)) :
  column ss tag = Return date_column ->
  rebalancing_dates_filtered py_eqb is_one tag rd = Return rebalancing ->
  investable_stocks_by_date py_eqb is_one tag iu (stock_columns tag ss) =
  Return investable ->
  len ss = S n ->
  foldM (weights_pass py_eqb signal_leb ss date_column (stock_columns tag ss)
           rebalancing investable)
    (seq 0 n) (initial_weights (stock_columns tag ss)) = Return weights ->
  nth_error date_column n = Some current_date ->
  py_in py_eqb current_date rebalancing = true ->
  py_get py_eqb current_date investable = Some (e :: es) ->
  stock_signals ss (stock_columns tag ss) (e :: es) n = Return signals ->
  portfolio_weights py_eqb is_one signal_leb tag iu rd ss = Raise IndexError.
Proof.
  intros Hcol Hreb Hinv Hlen Hfold Hcur Hin Hget Hsig.
  unfold portfolio_weights. rewrite Hcol. cbn [bind].
  rewrite Hreb. cbn [bind]. rewrite Hinv. cbn [bind].
  rewrite Hlen, seq_S, foldM_app, Hfold. cbn [bind Nat.add foldM].
  unfold weights_pass, getitem at 1. rewrite Hcur. cbn [bind].
  rewrite Hin. cbn [negb]. rewrite Hget, Hsig. cbn [bind].
  assert (He : In e (stock_columns tag ss)).
  { eapply investable_stocks_incl; eauto. now left. }
  assert (Hkeys : keys weights = distinct_names (stock_columns tag ss)).
  { revert Hfold. apply foldM_invariant
      with (P := fun w => keys w = distinct_names (stock_columns tag ss)).
    - intros w i w' Hw Hpass. unfold weights_pass in Hpass.
      inv_bind Hpass as cd Hcd.
      destruct (negb (py_in py_eqb cd rebalancing)); [now inv_ret Hpass|].
      destruct (py_get py_eqb cd investable) as [[|e0 es0]|];
        [now inv_ret Hpass| |now inv_ret Hpass].
      inv_bind Hpass as sg Hsg.
      now rewrite (assign_weights_keys _ _ _ _ _ _ Hpass).
    - apply initial_weights_spec. }
  destruct (stock_columns tag ss) as [|s stocks] eqn:Es; [contradiction|].
  assert (Hs : exists by_date, dict_get s weights = Some by_date).
  { apply dict_get_keys. rewrite Hkeys. unfold distinct_names.
    apply first_occurrences_In. simpl. tauto. }
  destruct Hs as (by_date & Hs).
  unfold assign_weights. cbn [foldM]. rewrite Hs.
  assert (Hnone : nth_error date_column (n + 1) = None).
  { apply nth_error_None. rewrite (column_length _ _ _ Hcol), Hlen. lia. }
  unfold getitem. rewrite Hnone. reflexivity.
Qed.

Lemma py_get_set_same {B : Type} (k : Scalar V) (v : B)
  (d : list (Scalar V * B)) :
  py_eqb k k = true -> py_get py_eqb k (py_set py_eqb k v d) = Some v.
Proof.
  intros Hrefl. induction d as [|[k' v'] rest IH]; simpl.
  - now rewrite Hrefl.
  - destruct (py_eqb k' k) eqn:E; simpl; now rewrite E.
Qed.

Lemma assign_weights_lookup date_column (top : list (string * Scalar V))
  (row_index : nat) (next : Scalar V) :
  (forall x, py_eqb x x = true) ->
  nth_error date_column (row_index + 1) = Some next ->
  forall stocks seen weights weights',
    assign_weights py_eqb date_column stocks top row_index weights =
    Return weights' ->
    (forall stock by_date,
        In stock seen -> dict_get stock weights = Some by_date ->
        py_get py_eqb next by_date =
        Some (if has_stock stock (map fst top) then weight top else nothing)) ->
    forall stock by_date,
      In stock (seen ++ stocks) -> dict_get stock weights' = Some by_date ->
      py_get py_eqb next by_date =
      Some (if has_stock stock (map fst top) then weight top else nothing).
Proof.
  intros Hrefl Hnext. unfold assign_weights.
  induction stocks as [|s stocks IH]; cbn [foldM];
    intros seen weights weights' H Hinv.
  - inv_ret H. rewrite app_nil_r. exact Hinv.
  - inv_bind H as w1 Hw1.
    destruct (dict_get s weights) as [bd|] eqn:Eg; [|discriminate].
    inv_bind Hw1 as next' Hnext'. inv_ret Hw1.
    apply getitem_nth in Hnext'. rewrite Hnext in Hnext'. inv_ret Hnext'.
    intros stock by_date.
    replace (seen ++ s :: stocks)%list with ((seen ++ [s]) ++ stocks)%list
      by (rewrite <- app_assoc; reflexivity).
    apply (IH (seen ++ [s])%list _ _ H).
    intros stock0 by_date0 Hin Hget.
    destruct (string_dec stock0 s) as [->|Hne].
    + rewrite dict_get_set_same in Hget. inv_ret Hget.
      now apply py_get_set_same.
    + rewrite dict_get_set_other in Hget by exact Hne.
      apply Hinv; [|exact Hget].
      apply in_app_or in Hin. destruct Hin as [Hin|[Hin|[]]]; [exact Hin|congruence].
Qed.

(** X19. What a processed row writes.  After a row that is a rebalancing date
    with eligible stocks, every stock holds, at the date of the next row,
    [1.0 / n_top_stocks] if it is one of the top stocks and 0 otherwise; at
    most [n_top_stocks] stocks hold the former, each with the same fifth
    also when fewer than five qualify. *)
Theorem processed_row_weights (ss : Table V) date_column stocks
  (rebalancing : list (Scalar V)) (investable : list (Scalar V * list string))
  weights weights' (row_index : nat) (current_date next : Scalar V)
  (e : string) (es : list string) (signals : dict (Scalar V)) :
  (forall x, py_eqb x x = true) ->
  nth_error date_column row_index = Some current_date ->
  py_in py_eqb current_date rebalancing = true ->
  py_get py_eqb current_date investable = Some (e :: es) ->
  stock_signals ss stocks (e :: es) row_index = Return signals ->
  nth_error date_column (row_index + 1) = Some next ->
  weights_pass py_eqb signal_leb ss date_column stocks rebalancing investable
    weights row_index = Return weights' ->
  (forall stock by_date,
      In stock stocks -> dict_get stock weights' = Some by_date ->
      py_get py_eqb next by_date =
      Some (if has_stock stock (map fst (top_n_stocks signal_leb signals))
            then share n_top_stocks else nothing)) /\
  (forall l,
      NoDup l ->
      (forall stock,
          In stock l ->
          In stock stocks /\
          exists by_date,
            dict_get stock weights' = Some by_date /\
            py_get py_eqb next by_date = Some (share n_top_stocks)) ->
      (List.length l <= n_top_stocks)%nat).
Proof.
  intros Hrefl Hcur Hin Hget Hsig Hnext H.
  unfold weights_pass, getitem at 1 in H. rewrite Hcur in H. cbn [bind] in H.
  rewrite Hin in H. cbn [negb] in H. rewrite Hget, Hsig in H. cbn [bind] in H.
  set (top := top_n_stocks signal_leb signals) in *.
  assert (Hvalue : forall stock by_date,
             In stock stocks -> dict_get stock weights' = Some by_date ->
             py_get py_eqb next by_date =
             Some (if has_stock stock (map fst top)
                   then share n_top_stocks else nothing)).
  { intros stock by_date Hs Hg.
    rewrite (assign_weights_lookup date_column top row_index next Hrefl Hnext
               stocks [] weights weights' H) with (stock := stock); auto.
    - destruct (has_stock stock (map fst top)) eqn:Eh; [|reflexivity].
      destruct top; [discriminate|reflexivity].
    - intros ? ? []. }
  split; [exact Hvalue|].
  intros l Hnd Hl.
  assert (Hincl : incl l (map fst top)).
  { intros stock Hs. destruct (Hl stock Hs) as (Hst & by_date & Hg & Hp).
    rewrite (Hvalue stock by_date Hst Hg) in Hp.
    destruct (has_stock stock (map fst top)) eqn:Eh; [|discriminate].
    unfold has_stock in Eh. now apply existsb_eqb_In in Eh. }
  apply (NoDup_incl_length Hnd) in Hincl.
  rewrite length_map in Hincl. unfold top, top_n_stocks in Hincl.
  rewrite length_firstn in Hincl. lia.
Qed.

End WeightsLoop.

End PortfolioFacts.

(** * The portfolio weights on concrete inputs *)

Module PortfolioScenarioFacts.

Import Scenario MoreScenarios Portfolio PortfolioFacts.

Lemma z_eqb_refl (x : Scalar Z) : z_eqb x x = true.
Proof. destruct x; simpl; auto using Z.eqb_refl. Qed.

Lemma first_row_signals_comparable :
  (forall a b, In a first_row_signals -> In b first_row_signals ->
               z_leb (snd b) (snd a) = true \/ z_leb (snd a) (snd b) = true) /\
  (forall a b c,
      In a first_row_signals -> In b first_row_signals ->
      In c first_row_signals ->
      z_leb (snd b) (snd a) = true -> z_leb (snd c) (snd b) = true ->
      z_leb (snd c) (snd a) = true).
Proof.
  assert (Hval : forall a, In a first_row_signals -> exists z, snd a = Val z).
  { intros a Ha. simpl in Ha.
    repeat (destruct Ha as [<-|Ha]; [simpl; eauto|]). contradiction. }
  split.
  - intros a b Ha Hb.
    destruct (Hval a Ha) as (x & ->), (Hval b Hb) as (y & ->). simpl.
    rewrite !Z.leb_le. lia.
  - intros a b c Ha Hb Hc.
    destruct (Hval a Ha) as (x & ->), (Hval b Hb) as (y & ->),
      (Hval c Hc) as (z & ->). simpl.
    rewrite !Z.leb_le. lia.
Qed.

(** [top_n_stocks_are_best] at the first row: S1, with the least signal, is
    the one left out. *)
Lemma top_n_stocks_witness :
  (forall a b, In a first_row_signals -> In b first_row_signals ->
               z_leb (snd b) (snd a) = true \/ z_leb (snd a) (snd b) = true) /\
  (forall a b c,
      In a first_row_signals -> In b first_row_signals ->
      In c first_row_signals ->
      z_leb (snd b) (snd a) = true -> z_leb (snd c) (snd b) = true ->
      z_leb (snd c) (snd a) = true) /\
  top_n_stocks z_leb first_row_signals =
  [("S2", Val 70); ("S6", Val 60); ("S5", Val 50); ("S3", Val 30);
   ("S7", Val 20)] /\
  List.length (top_n_stocks z_leb first_row_signals) =
  Nat.min n_top_stocks (List.length first_row_signals) /\
  (forall a, In a (top_n_stocks z_leb first_row_signals) ->
             In a first_row_signals) /\
  (forall a b,
      In a (top_n_stocks z_leb first_row_signals) ->
      In b first_row_signals ->
      ~ In b (top_n_stocks z_leb first_row_signals) ->
      z_leb (snd b) (snd a) = true).
Proof.
  destruct first_row_signals_comparable as [Htot Htrans].
  split; [exact Htot|]. split; [exact Htrans|]. split; [reflexivity|].
  exact (top_n_stocks_are_best z_leb first_row_signals Htot Htrans).
Defined.

(** [portfolio_weights_shape] with the first two rows as rebalancing
    dates. *)
Lemma portfolio_weights_shape_witness :
  (forall x, z_eqb x x = true) /\
  exists weights,
    weights_of (flags 1 1 0) = Return weights /\
    exists date_column dates,
      column strategy_signals "m_date" = Return date_column /\
      keys weights = distinct_names (stock_columns "m_date" strategy_signals) /\
      incl dates (skipn 1 date_column) /\
      forall stock by_date,
        dict_get stock weights = Some by_date ->
        map fst by_date = dates /\
        Forall (fun w => w = share n_top_stocks \/ w = nothing)
          (map snd by_date).
Proof.
  split; [exact z_eqb_refl|].
  destruct (weights_of (flags 1 1 0)) as [weights|e] eqn:E;
    [|vm_compute in E; discriminate].
  exists weights. split; [reflexivity|].
  exact (portfolio_weights_shape z_eqb z_is_one z_leb "m_date"
           investable_universe (flags 1 1 0) strategy_signals weights
           z_eqb_refl E).
Defined.

(** [rebalancing_on_last_row_raises] with the last row as the rebalancing
    date. *)
Lemma rebalancing_on_last_row_witness :
  column strategy_signals "m_date" = Return signal_dates /\
  rebalancing_dates_filtered z_eqb z_is_one "m_date" (flags 0 0 1) =
  Return [Date32 d2020_01_06] /\
  investable_stocks_by_date z_eqb z_is_one "m_date" investable_universe
    (stock_columns "m_date" strategy_signals) = Return investable_by_date /\
  len strategy_signals = 3%nat /\
  foldM (weights_pass z_eqb z_leb strategy_signals signal_dates
           (stock_columns "m_date" strategy_signals) [Date32 d2020_01_06]
           investable_by_date)
    (seq 0 2) (initial_weights (stock_columns "m_date" strategy_signals)) =
  Return (initial_weights stocks7) /\
  nth_error signal_dates 2 = Some (Date32 d2020_01_06) /\
  py_in z_eqb (Date32 d2020_01_06) [Date32 d2020_01_06] = true /\
  py_get z_eqb (Date32 d2020_01_06) investable_by_date = Some stocks7 /\
  stock_signals strategy_signals (stock_columns "m_date" strategy_signals)
    stocks7 2 = Return last_row_signals /\
  weights_of (flags 0 0 1) = Raise IndexError.
Proof.
  repeat (split; [reflexivity|]).
  apply (rebalancing_on_last_row_raises z_eqb z_is_one z_leb "m_date"
           investable_universe (flags 0 0 1) strategy_signals signal_dates
           [Date32 d2020_01_06] investable_by_date 2
           (initial_weights stocks7) (Date32 d2020_01_06)
           "S1" ["S2"; "S3"; "S4"; "S5"; "S6"; "S7"] last_row_signals);
    reflexivity.
Defined.

(** [processed_row_weights] at the first row. *)
Lemma processed_row_weights_witness :
  (forall x, z_eqb x x = true) /\
  nth_error signal_dates 0 = Some (Date32 d2020_01_02) /\
  py_in z_eqb (Date32 d2020_01_02) [Date32 d2020_01_02] = true /\
  py_get z_eqb (Date32 d2020_01_02) investable_by_date = Some stocks7 /\
  stock_signals strategy_signals stocks7 stocks7 0 = Return first_row_signals /\
  nth_error signal_dates (0 + 1) = Some (Date32 d2020_01_03) /\
  weights_pass z_eqb z_leb strategy_signals signal_dates stocks7
    [Date32 d2020_01_02] investable_by_date (initial_weights stocks7) 0 =
  Return after_first_row /\
  (forall stock by_date,
      In stock stocks7 -> dict_get stock after_first_row = Some by_date ->
      py_get z_eqb (Date32 d2020_01_03) by_date =
      Some (if has_stock stock (map fst (top_n_stocks z_leb first_row_signals))
            then share n_top_stocks else nothing)) /\
  (forall l,
      NoDup l ->
      (forall stock,
          In stock l ->
          In stock stocks7 /\
          exists by_date,
            dict_get stock after_first_row = Some by_date /\
            py_get z_eqb (Date32 d2020_01_03) by_date =
            Some (share n_top_stocks)) ->
      (List.length l <= n_top_stocks)%nat).
Proof.
  split; [exact z_eqb_refl|].
  repeat (split; [reflexivity|]).
  apply (processed_row_weights z_eqb z_leb strategy_signals signal_dates
           stocks7 [Date32 d2020_01_02] investable_by_date
           (initial_weights stocks7) after_first_row 0
           (Date32 d2020_01_02) (Date32 d2020_01_03)
           "S1" ["S2"; "S3"; "S4"; "S5"; "S6"; "S7"] first_row_signals
           z_eqb_refl); reflexivity.
Defined.

End PortfolioScenarioFacts.

(** ** Where a join puts the new ticker's column *)

Section ColumnOrder.

Context {V : Type}.
Variable tag : string.

Lemma join_column_names (left right t : Table V) (colsL colsR : list string)
  (sfx : string) (jt : JoinType) :
  column_names left = tag :: colsL ->
  column_names right = tag :: colsR ->
  join left right tag sfx jt = Return t ->
  column_names t =
  tag :: (colsL ++ map (suffixed (tag :: colsL) sfx) colsR)%list.
Proof.
  intros HL HR H. unfold join in H. rewrite HL, HR in H.
  inv_bind H as kl Hkl. inv_bind H as kr Hkr.
  apply find_one_head in Hkl, Hkr. destruct Hkl as [-> _], Hkr as [-> _].
  inv_bind H as ls Hls. inv_bind H as rs Hrs.
  destruct jt; inv_ret H; reflexivity.
Qed.

(** X15. The column order after a join.  The columns of the left table come
    first: the new ticker's column goes last when the accumulated table has
    strictly more rows than the ticker's table, and directly after the date
    column, before all earlier tickers, otherwise. *)
Theorem accumulate_column_order (result data t : Table V)
  (cols : list string) (ticker : string) :
  column_names result = tag :: cols ->
  column_names data = [tag; ticker] ->
  ticker <> tag ->
  ~ In ticker cols ->
  accumulate tag (Some result) data = Return t ->
  column_names t =
  if Nat.ltb (len data) (len result)
  then tag :: (cols ++ [ticker])%list
  else tag :: ticker :: cols.
Proof.
  intros Hr Hd Hne Hnew H. unfold accumulate, default_join_type in H.
  destruct (len data <? len result)%nat.
  - rewrite (join_column_names _ _ _ _ _ _ _ Hr Hd H). simpl.
    rewrite suffixed_fresh; [reflexivity|].
    intros [Ht|Hc]; [now apply Hne|contradiction].
  - assert (Htag : ~ In tag cols).
    { unfold join in H. rewrite Hr, Hd in H.
      inv_bind H as kl Hkl. inv_bind H as kr Hkr.
      now apply find_one_head in Hkr. }
    rewrite (join_column_names _ _ _ _ _ _ _ Hd Hr H). simpl.
    rewrite map_suffixed_fresh; [reflexivity|].
    intros c Hc [Ht|[Ht|[]]]; subst; contradiction.
Qed.

End ColumnOrder.

Module ColumnOrderFacts.

Import Scenario.

(** [accumulate_column_order] at Scenario A, where the two tables have as
    many rows and BBB's column comes first. *)
Lemma accumulate_column_order_witness :
  exists result data t,
    projected "AAA" AAA = Return result /\
    projected "BBB" BBB = Return data /\
    column_names result = ["m_date"; "AAA"] /\
    column_names data = ["m_date"; "BBB"] /\
    "BBB" <> "m_date" /\
    ~ In "BBB" ["AAA"] /\
    accumulate "m_date" (Some result) data = Return t /\
    column_names t =
    (if Nat.ltb (len data) (len result)
     then ["m_date"; "AAA"; "BBB"] else ["m_date"; "BBB"; "AAA"]).
Proof.
  assert (Hne : "BBB" <> "m_date") by discriminate.
  assert (Hnew : ~ In "BBB" ["AAA"]) by (simpl; intuition discriminate).
  pose (result := mkTable ["m_date"; "AAA"]
                    [[ts d2020_01_02; Val 10]; [ts d2020_01_03; Val 11]]).
  pose (data := mkTable ["m_date"; "BBB"]
                  [[ts d2020_01_03; Val 20]; [ts d2020_01_06; Val 21]]).
  pose (t := mkTable ["m_date"; "BBB"; "AAA"]
               [[ts d2020_01_03; Val 20; Val 11];
                [ts d2020_01_06; Val 21; Null]]).
  exists result, data, t.
  split; [reflexivity|]. split; [reflexivity|].
  split; [reflexivity|]. split; [reflexivity|].
  split; [exact Hne|]. split; [exact Hnew|]. split; [reflexivity|].
  exact (accumulate_column_order "m_date" result data t ["AAA"] "BBB"
           eq_refl eq_refl Hne Hnew eq_refl).
Defined.

End ColumnOrderFacts.
